(** * sawNDITracker: the serial engine of [mtsNDISerial]

    A shallow embedding of [components/code/mtsNDISerial.cpp]: the CRC-16
    codec, the command buffer and the CRC-checked response reader, the tool
    registry, the control commands ([Beep], [ToggleTracking],
    [ReportStrayMarkers]), the tool-definition upload and the parser of the
    [TX] reply, followed by the properties proved about them. *)

From Stdlib Require Import String Ascii Strings.Byte.
From Stdlib Require Import ZArith QArith List Bool Lia DecimalString.
Import ListNotations.

Local Close Scope Q_scope.
Local Open Scope Z_scope.

(* ================================================================== *)
(** ** Bytes and C strings *)

Definition byte_to_Z (b : byte) : Z := Z.of_N (Byte.to_N b).

Definition Z_to_byte (z : Z) : byte :=
  match Byte.of_N (Z.to_N (z mod 256)) with
  | Some b => b
  | None => x00
  end.

Definition is_nul (b : byte) : bool := Byte.eqb b x00.

(** A string literal of the source, as the bytes it denotes (without the
    terminating NUL). *)
Definition lit (s : string) : list byte := list_byte_of_string s.

(** The C string that starts at the head of [mem]: the bytes before the
    first NUL.  Memory past the end of the list reads as NUL. *)
Fixpoint cstr (mem : list byte) : list byte :=
  match mem with
  | [] => []
  | b :: rest => if is_nul b then [] else b :: cstr rest
  end.

(** [strlen]. *)
Definition strlen (mem : list byte) : nat := length (cstr mem).

(** [strncmp(a, b, n) == 0]: both strings agree on their first [n]
    characters, the comparison ending early at a common NUL. *)
Fixpoint strncmp_eq (a b : list byte) (n : nat) : bool :=
  match n with
  | O => true
  | S n' =>
      let ca := hd x00 a in
      let cb := hd x00 b in
      if Byte.eqb ca cb
      then if is_nul ca then true else strncmp_eq (tl a) (tl b) n'
      else false
  end.

(** [strncpy(dst, src, n)]: the [n] bytes stored at [dst], the characters of
    [src] up to its NUL and NUL padding after it. *)
Fixpoint strncpy (src : list byte) (n : nat) : list byte :=
  match n with
  | O => []
  | S n' =>
      let c := hd x00 src in
      if is_nul c then repeat x00 n else c :: strncpy (tl src) n'
  end.

(** Upper-case hexadecimal digit of a value below 16 (the [X] conversion). *)
Definition hex_upper (d : Z) : byte :=
  nth (Z.to_nat d) (lit "0123456789ABCDEF") x00.

(** The eight nibbles of an [unsigned int], most significant first. *)
Definition nibbles32 (n : Z) : list Z :=
  map (fun k => Z.land (Z.shiftr n (4 * k)) 15) [7; 6; 5; 4; 3; 2; 1; 0].

(** Leading zero digits are dropped while more than [width] digits remain. *)
Fixpoint drop_leading_zeros (width : nat) (ds : list Z) : list Z :=
  match ds with
  | d :: rest =>
      if (d =? 0) && (width <? length ds)%nat
      then drop_leading_zeros width rest
      else ds
  | [] => []
  end.

(** [sprintf(buf, "%0<width>X", n)] for an [unsigned int] [n], [width >= 1]. *)
Definition sprintf_0X (width : nat) (n : Z) : list byte :=
  map hex_upper (drop_leading_zeros width (nibbles32 (n mod 2 ^ 32))).

Definition sprintf_04X : Z -> list byte := sprintf_0X 4.
Definition sprintf_02X : Z -> list byte := sprintf_0X 2.

(** Value of one hexadecimal digit, either case (as [strtoul] and the [X]
    conversion of [sscanf] read it). *)
Definition hex_value (b : byte) : option Z :=
  let c := byte_to_Z b in
  if (48 <=? c) && (c <=? 57) then Some (c - 48)
  else if (65 <=? c) && (c <=? 70) then Some (c - 55)
  else if (97 <=? c) && (c <=? 102) then Some (c - 87)
  else None.

Definition is_hex_digit (b : byte) : bool :=
  match hex_value b with Some _ => true | None => false end.

(** Upper-case hexadecimal digit: [0-9A-F]. *)
Definition is_upper_hex_digit (b : byte) : bool :=
  let c := byte_to_Z b in
  ((48 <=? c) && (c <=? 57)) || ((65 <=? c) && (c <=? 70)).

(** Value of a run of hexadecimal digits, most significant first. *)
Fixpoint hex_number_from (acc : Z) (ds : list byte) : option Z :=
  match ds with
  | [] => Some acc
  | d :: rest =>
      match hex_value d with
      | Some v => hex_number_from (16 * acc + v) rest
      | None => None
      end
  end.

Definition hex_number (ds : list byte) : option Z := hex_number_from 0 ds.

(* ================================================================== *)
(** ** CRC-16 codec *)

Definition oddParity : list Z :=
  [0; 1; 1; 0; 1; 0; 0; 1; 1; 0; 0; 1; 0; 1; 1; 0].

(** Wrap-around of [unsigned int]. *)
Definition u32 (z : Z) : Z := z mod 2 ^ 32.

(** One turn of the [while] loop of [ComputeCRC]. *)
Definition ComputeCRC_step (crc : Z) (b : byte) : Z :=
  let temp := Z.land (Z.lxor (byte_to_Z b) (Z.land crc 255)) 255 in
  let crc := Z.shiftr crc 8 in
  let crc :=
    if Z.lxor (nth (Z.to_nat (Z.land temp 15)) oddParity 0)
              (nth (Z.to_nat (Z.shiftr temp 4)) oddParity 0) =? 0
    then crc
    else Z.lxor crc 49153 in
  let temp := u32 (Z.shiftl temp 6) in
  let crc := Z.lxor crc temp in
  let temp := u32 (Z.shiftl temp 1) in
  let crc := Z.lxor crc temp in
  crc.

Fixpoint ComputeCRC_loop (crc : Z) (data : list byte) : Z :=
  match data with
  | [] => crc
  | b :: rest =>
      if is_nul b then crc else ComputeCRC_loop (ComputeCRC_step crc b) rest
  end.

Definition ComputeCRC (data : list byte) : Z := ComputeCRC_loop 0 data.

(** *** The update rule in the words of the specification *)

(** Parity of the four low bits of [n]. *)
Definition nibble_parity (n : Z) : bool :=
  xorb (xorb (Z.testbit n 0) (Z.testbit n 1))
       (xorb (Z.testbit n 2) (Z.testbit n 3)).

Definition spec_crc_update (crc : Z) (b : Z) : Z :=
  let t := Z.land (Z.lxor b (Z.land crc 255)) 255 in
  let crc := Z.shiftr crc 8 in
  let crc :=
    if xorb (nibble_parity t) (nibble_parity (Z.shiftr t 4))
    then Z.lxor crc 49153
    else crc in
  let t := Z.shiftl t 6 in
  let crc := Z.lxor crc t in
  let t := Z.shiftl t 1 in
  Z.lxor crc t.

Definition spec_crc (data : list byte) : Z :=
  fold_left spec_crc_update (map byte_to_Z data) 0.

(* ================================================================== *)
(** ** Arithmetic on [double] and the cisstVector types

    The driver computes with [double] and with the fixed-size vectors,
    quaternions and frames of cisstVector.  The arithmetic is kept abstract:
    every result below holds for whatever [double] operations the platform
    provides. *)

Record vct3 (scalar : Type) := mk_vct3 { vx : scalar; vy : scalar; vz : scalar }.
Arguments mk_vct3 {scalar}.
Arguments vx {scalar}.
Arguments vy {scalar}.
Arguments vz {scalar}.

Record vctQuatRot3 (scalar : Type) :=
  mk_quat { qx : scalar; qy : scalar; qz : scalar; qw : scalar }.
Arguments mk_quat {scalar}.
Arguments qx {scalar}.
Arguments qy {scalar}.
Arguments qz {scalar}.
Arguments qw {scalar}.

(** A rotation matrix, by rows. *)
Record vctMatRot3 (scalar : Type) :=
  mk_rot { row0 : vct3 scalar; row1 : vct3 scalar; row2 : vct3 scalar }.
Arguments mk_rot {scalar}.

Record vctFrm3 (scalar : Type) :=
  mk_frm { Rotation : vctMatRot3 scalar; Translation : vct3 scalar }.
Arguments mk_frm {scalar}.
Arguments Rotation {scalar}.
Arguments Translation {scalar}.

Record prmPositionCartesianGet (scalar : Type) :=
  mk_prm { Position : vctFrm3 scalar; Valid : bool }.
Arguments mk_prm {scalar}.
Arguments Position {scalar}.
Arguments Valid {scalar}.

Class Numeric (scalar : Type) := {
  (** the [double] that holds an integer *)
  of_Z : Z -> scalar;
  fadd : scalar -> scalar -> scalar;
  fmul : scalar -> scalar -> scalar;
  fdiv : scalar -> scalar -> scalar;
  (** the unit constant [cmn_mm] *)
  cmn_mm : scalar;
  (** what an uninitialised [double] happens to hold *)
  indeterminate : scalar;
  (** [vctMatRot3::FromRaw(quaternion)] *)
  FromRaw : vctQuatRot3 scalar -> vctMatRot3 scalar;
  (** [rotation * vector] *)
  RotApply : vctMatRot3 scalar -> vct3 scalar -> vct3 scalar
}.

(** The class header [mtsNDISerial.h] is not part of the sources at hand.
    Its inline accessor [GetSerialBufferStringSize] is taken as a parameter:
    a function of the buffer and of the write cursor. *)
Class Header := {
  GetSerialBufferStringSize : list byte -> nat -> nat
}.

Section Vectors.
Context {scalar : Type} `{Numeric scalar}.

Definition vct3_all (s : scalar) : vct3 scalar := mk_vct3 s s s.

(** [v.Divide(s)], [v.Multiply(s)], [v += w]. *)
Definition vct3_Divide (v : vct3 scalar) (s : scalar) : vct3 scalar :=
  mk_vct3 (fdiv (vx v) s) (fdiv (vy v) s) (fdiv (vz v) s).

Definition vct3_Multiply (v : vct3 scalar) (s : scalar) : vct3 scalar :=
  mk_vct3 (fmul (vx v) s) (fmul (vy v) s) (fmul (vz v) s).

Definition vct3_Add (v w : vct3 scalar) : vct3 scalar :=
  mk_vct3 (fadd (vx v) (vx w)) (fadd (vy v) (vy w)) (fadd (vz v) (vz w)).

Definition quat_Divide (q : vctQuatRot3 scalar) (s : scalar)
  : vctQuatRot3 scalar :=
  mk_quat (fdiv (qx q) s) (fdiv (qy q) s) (fdiv (qz q) s) (fdiv (qw q) s).

(** Default-constructed values. *)
Definition quat_identity : vctQuatRot3 scalar :=
  mk_quat (of_Z 0) (of_Z 0) (of_Z 0) (of_Z 1).

Definition rot_identity : vctMatRot3 scalar :=
  mk_rot (mk_vct3 (of_Z 1) (of_Z 0) (of_Z 0))
         (mk_vct3 (of_Z 0) (of_Z 1) (of_Z 0))
         (mk_vct3 (of_Z 0) (of_Z 0) (of_Z 1)).

Definition frm_identity : vctFrm3 scalar :=
  mk_frm rot_identity (vct3_all (of_Z 0)).

Definition vct3_uninitialized : vct3 scalar := vct3_all indeterminate.
End Vectors.

(* ================================================================== *)
(** ** Driver state *)

(** A [Tool] of the registry. *)
Record Tool (scalar : Type) := mk_Tool {
  ToolName : list byte;
  SerialNumber : list byte;
  Definition_ : list byte;
  PortHandle : list byte;
  MainType : list byte;
  ManufacturerID : list byte;
  ToolRevision : list byte;
  PartNumber : list byte;
  TooltipOffset : vct3 scalar;
  TooltipPosition : prmPositionCartesianGet scalar;
  MarkerPosition : prmPositionCartesianGet scalar;
  ErrorRMS : scalar;
  FrameNumber : Z
}.
Arguments mk_Tool {scalar}.
Arguments ToolName {scalar}.
Arguments SerialNumber {scalar}.
Arguments Definition_ {scalar}.
Arguments PortHandle {scalar}.
Arguments MainType {scalar}.
Arguments ManufacturerID {scalar}.
Arguments ToolRevision {scalar}.
Arguments PartNumber {scalar}.
Arguments TooltipOffset {scalar}.
Arguments TooltipPosition {scalar}.
Arguments MarkerPosition {scalar}.
Arguments ErrorRMS {scalar}.
Arguments FrameNumber {scalar}.

(** Events and messages sent through the provided interface, and the
    error and warning lines of the log, each by the text of its site. *)
Inductive Event :=
| EvConnected (port : list byte)
| EvTracking (tracking : bool)
| EvUpdatedTools
| SendStatus (message : list byte)
| SendError (message : list byte)
| LogError (site : string)
| LogWarning (site : string).

(** The serial link: the byte strings handed to [Write], oldest first, and
    the replies still to come, each the bytes that reach the host before
    the read deadline of one [ResponseRead]. *)
Record osaSerialPort := mk_port {
  written : list (list byte);
  incoming : list (list byte)
}.

(** A pointer to a [Tool]: its index on the heap; [None] is the null
    pointer. *)
Definition ToolPtr := nat.

Record Driver (scalar : Type) := mk_Driver {
  Name : list byte;
  mSerialBuffer : list byte;
  mSerialBufferPointer : nat;
  mSerialPort : osaSerialPort;
  mIsTracking : bool;
  mTrackStrayMarkers : bool;
  mStrayMarkers : list (list scalar);
  heap : list (Tool scalar);
  mTools : list (list byte * ToolPtr);
  mPortToTool : list (list byte * ToolPtr);
  mToolNames : list (list byte);
  Events : list Event
}.
Arguments mk_Driver {scalar}.
Arguments Name {scalar}.
Arguments mSerialBuffer {scalar}.
Arguments mSerialBufferPointer {scalar}.
Arguments mSerialPort {scalar}.
Arguments mIsTracking {scalar}.
Arguments mTrackStrayMarkers {scalar}.
Arguments mStrayMarkers {scalar}.
Arguments heap {scalar}.
Arguments mTools {scalar}.
Arguments mPortToTool {scalar}.
Arguments mToolNames {scalar}.
Arguments Events {scalar}.

(** *** Faults and the driver monad

    A step that leaves the memory the program owns (a write outside the
    serial buffer or outside the stray-marker matrix, a cursor moved before
    the start of the buffer, a pointer to no tool) has no defined result: it is a [Fault]. *)
Inductive Fault :=
| BufferRange
| MatrixRange (row : nat)
| ToolPointer
| OutOfFuel.

Inductive Outcome (S A : Type) :=
| Ok (a : A) (s : S)
| Crash (f : Fault).
Arguments Ok {S A}.
Arguments Crash {S A}.

Definition M (S A : Type) := S -> Outcome S A.

Definition ret {S A} (a : A) : M S A := fun s => Ok a s.

Definition bind {S A B} (m : M S A) (k : A -> M S B) : M S B :=
  fun s => match m s with
           | Ok a s' => k a s'
           | Crash f => Crash f
           end.

Definition crash {S A} (f : Fault) : M S A := fun _ => Crash f.
Definition get {S} : M S S := fun s => Ok s s.
Definition gets {S A} (f : S -> A) : M S A := fun s => Ok (f s) s.
Definition modify {S} (f : S -> S) : M S unit := fun s => Ok tt (f s).

(** What a run returned, and the state it left. *)
Definition returned {S A} (o : Outcome S A) : option A :=
  match o with
  | Ok a _ => Some a
  | Crash _ => None
  end.

Definition final {S A} (o : Outcome S A) : option S :=
  match o with
  | Ok _ s => Some s
  | Crash _ => None
  end.

(** The [Tracking] events of a trace, oldest first, and the last of them. *)
Definition tracking_events (evs : list Event) : list bool :=
  flat_map (fun e => match e with EvTracking b => [b] | _ => [] end) evs.

Definition last_tracking_event (evs : list Event) : option bool :=
  last (map Some (tracking_events evs)) None.

Declare Scope driver_scope.
Delimit Scope driver_scope with driver.
Notation "x <- m ;; k" := (bind m (fun x => k))
  (at level 61, m at next level, right associativity) : driver_scope.
Notation "m ;;; k" := (bind m (fun _ => k))
  (at level 61, right associativity) : driver_scope.

(* ================================================================== *)
(** ** The serial engine *)

Section Engine.
Context {scalar : Type} `{Numeric scalar} `{Header}.

Local Open Scope driver_scope.
Local Open Scope nat_scope.

Local Abbreviation Drv := (Driver scalar).
Local Abbreviation Run := (M (Driver scalar)).

Definition set_buffer (buf : list byte) (d : Drv) : Drv :=
  mk_Driver (Name d) buf (mSerialBufferPointer d) (mSerialPort d)
            (mIsTracking d) (mTrackStrayMarkers d) (mStrayMarkers d)
            (heap d) (mTools d) (mPortToTool d) (mToolNames d) (Events d).

Definition set_pointer (p : nat) (d : Drv) : Drv :=
  mk_Driver (Name d) (mSerialBuffer d) p (mSerialPort d)
            (mIsTracking d) (mTrackStrayMarkers d) (mStrayMarkers d)
            (heap d) (mTools d) (mPortToTool d) (mToolNames d) (Events d).

Definition set_port (p : osaSerialPort) (d : Drv) : Drv :=
  mk_Driver (Name d) (mSerialBuffer d) (mSerialBufferPointer d) p
            (mIsTracking d) (mTrackStrayMarkers d) (mStrayMarkers d)
            (heap d) (mTools d) (mPortToTool d) (mToolNames d) (Events d).

Definition set_IsTracking (b : bool) (d : Drv) : Drv :=
  mk_Driver (Name d) (mSerialBuffer d) (mSerialBufferPointer d) (mSerialPort d)
            b (mTrackStrayMarkers d) (mStrayMarkers d)
            (heap d) (mTools d) (mPortToTool d) (mToolNames d) (Events d).

Definition set_TrackStrayMarkers (b : bool) (d : Drv) : Drv :=
  mk_Driver (Name d) (mSerialBuffer d) (mSerialBufferPointer d) (mSerialPort d)
            (mIsTracking d) b (mStrayMarkers d)
            (heap d) (mTools d) (mPortToTool d) (mToolNames d) (Events d).

Definition set_StrayMarkers (m : list (list scalar)) (d : Drv) : Drv :=
  mk_Driver (Name d) (mSerialBuffer d) (mSerialBufferPointer d) (mSerialPort d)
            (mIsTracking d) (mTrackStrayMarkers d) m
            (heap d) (mTools d) (mPortToTool d) (mToolNames d) (Events d).

Definition set_heap (h : list (Tool scalar)) (d : Drv) : Drv :=
  mk_Driver (Name d) (mSerialBuffer d) (mSerialBufferPointer d) (mSerialPort d)
            (mIsTracking d) (mTrackStrayMarkers d) (mStrayMarkers d)
            h (mTools d) (mPortToTool d) (mToolNames d) (Events d).

Definition set_Tools (t : list (list byte * ToolPtr)) (d : Drv) : Drv :=
  mk_Driver (Name d) (mSerialBuffer d) (mSerialBufferPointer d) (mSerialPort d)
            (mIsTracking d) (mTrackStrayMarkers d) (mStrayMarkers d)
            (heap d) t (mPortToTool d) (mToolNames d) (Events d).

Definition set_PortToTool (t : list (list byte * ToolPtr)) (d : Drv) : Drv :=
  mk_Driver (Name d) (mSerialBuffer d) (mSerialBufferPointer d) (mSerialPort d)
            (mIsTracking d) (mTrackStrayMarkers d) (mStrayMarkers d)
            (heap d) (mTools d) t (mToolNames d) (Events d).

Definition set_ToolNames (n : list (list byte)) (d : Drv) : Drv :=
  mk_Driver (Name d) (mSerialBuffer d) (mSerialBufferPointer d) (mSerialPort d)
            (mIsTracking d) (mTrackStrayMarkers d) (mStrayMarkers d)
            (heap d) (mTools d) (mPortToTool d) n (Events d).

Definition set_Events (e : list Event) (d : Drv) : Drv :=
  mk_Driver (Name d) (mSerialBuffer d) (mSerialBufferPointer d) (mSerialPort d)
            (mIsTracking d) (mTrackStrayMarkers d) (mStrayMarkers d)
            (heap d) (mTools d) (mPortToTool d) (mToolNames d) e.

(** An event, message or log line is appended to the trace. *)
Definition emit (e : Event) : Run unit :=
  modify (fun d => set_Events (Events d ++ [e]) d).

(** [Sleep]: time is not part of the state. *)
Definition Sleep : Run unit := ret tt.

(** [mem[i] = b], inside [mem] only. *)
Fixpoint store (mem : list byte) (i : nat) (b : byte) : option (list byte) :=
  match mem, i with
  | [], _ => None
  | _ :: rest, O => Some (b :: rest)
  | c :: rest, S i' => option_map (cons c) (store rest i' b)
  end.

(** A write into the serial buffer at offset [i]. *)
Definition poke (i : nat) (b : byte) : Run unit :=
  fun d => match store (mSerialBuffer d) i b with
           | Some buf => Ok tt (set_buffer buf d)
           | None => Crash BufferRange
           end.

Fixpoint poke_all (i : nat) (bs : list byte) : Run unit :=
  match bs with
  | [] => ret tt
  | b :: rest => poke i b ;;; poke_all (S i) rest
  end.

(** A read of the serial buffer at offset [i]. *)
Definition peek (d : Drv) (i : nat) : byte := nth i (mSerialBuffer d) x00.

(** The buffer from offset [i] on. *)
Definition buffer_at (d : Drv) (i : nat) : list byte :=
  skipn i (mSerialBuffer d).

Definition GetSerialBufferSize (d : Drv) : nat := mSerialBufferPointer d.

(** [MAX_BUFFER_SIZE] is the length of the buffer. *)
Definition GetSerialBufferAvailableSize (d : Drv) : nat :=
  length (mSerialBuffer d) - GetSerialBufferSize d.

Definition advance (n : nat) : Run unit :=
  modify (fun d => set_pointer (mSerialBufferPointer d + n) d).

Definition CommandInitialize : Run unit := modify (set_pointer 0).

(** [CommandAppend(const char)]. *)
Definition CommandAppend_char (command : byte) : Run unit :=
  p <- gets mSerialBufferPointer ;;
  poke p command ;;;
  advance 1.

(** [CommandAppend(const char * )]: [strncpy] of [strlen(command)]
    characters, no terminator. *)
Definition CommandAppend (command : list byte) : Run unit :=
  let size := strlen command in
  p <- gets mSerialBufferPointer ;;
  poke_all p (strncpy command size) ;;;
  advance size.

(** [printf("%d")]. *)
Definition sprintf_d (n : Z) : list byte :=
  lit (DecimalString.NilEmpty.string_of_int (Z.to_int n)).

(** [CommandAppend(const int)]: [snprintf] keeps inside the available
    size, ends what it writes with NUL and returns the full length. *)
Definition CommandAppend_int (command : Z) : Run unit :=
  let text := sprintf_d command in
  p <- gets mSerialBufferPointer ;;
  avail <- gets GetSerialBufferAvailableSize ;;
  match avail with
  | O => ret tt
  | S room => poke_all p (firstn room text ++ [x00])
  end ;;;
  advance (length text).

(** [mSerialPort.Write]: the link takes every byte it is given. *)
Definition Write (bytes : list byte) : Run nat :=
  modify (fun d =>
            set_port (mk_port (written (mSerialPort d) ++ [bytes])
                              (incoming (mSerialPort d))) d) ;;;
  ret (length bytes).

(** [CommandSend(void)]. *)
Definition CommandSend : Run bool :=
  CommandAppend_char "013"%byte ;;;
  CommandAppend_char x00 ;;;
  buf <- gets mSerialBuffer ;;
  let bytesToSend := strlen buf in
  bytesSent <- Write (firstn bytesToSend buf) ;;
  if negb (bytesSent =? bytesToSend)
  then emit (LogError "SendCommand: sent only") ;;; ret false
  else ret true.

(** Modelled from the spec: the overload [CommandSend(const char * )],
    declared inline in the class header, which is not among the sources.
    The command is written at the start of the buffer, the carriage return
    is appended and the buffer is written to the link. *)
Definition CommandSend_str (command : list byte) : Run bool :=
  CommandInitialize ;;;
  CommandAppend command ;;;
  CommandSend.

(** Modelled from the spec: the constant [CRC_SIZE] of the class header,
    which is not among the sources; the CRC of a reply is written in four
    hexadecimal digits. *)
Definition CRC_SIZE : nat := 4.

(** [ResponseCheckCRC].  With fewer than five bytes received, [crcPointer]
    would stand before the buffer. *)
Definition ResponseCheckCRC : Run bool :=
  p <- gets mSerialBufferPointer ;;
  if p <? CRC_SIZE + 1 then crash BufferRange else
  let crcPointer := p - (CRC_SIZE + 1) in
  buf <- gets mSerialBuffer ;;
  let receivedCRC := strncpy (skipn crcPointer buf) CRC_SIZE ++ [x00] in
  poke crcPointer x00 ;;;
  modify (set_pointer (crcPointer + 1)) ;;;
  buf <- gets mSerialBuffer ;;
  let computedCRC := firstn CRC_SIZE (sprintf_04X (ComputeCRC buf)) ++ [x00] in
  if negb (strncmp_eq receivedCRC computedCRC CRC_SIZE)
  then emit (LogError "ResponseCheckCRC: received, but computed") ;;; ret false
  else ret true.

(** [mSerialPort.Read] in the loop of [ResponseRead]: the next reply, cut
    to the room left in the buffer, is stored at the cursor. *)
Definition Read : Run nat :=
  d <- get ;;
  match incoming (mSerialPort d) with
  | [] => ret 0
  | reply :: later =>
      let got := firstn (GetSerialBufferAvailableSize d) reply in
      modify (set_port (mk_port (written (mSerialPort d)) later)) ;;;
      poke_all (mSerialBufferPointer d) got ;;;
      ret (length got)
  end.

(** [ResponseRead(void)].  The loop ends with a complete message or with
    the deadline passed: a reply that does not end in a carriage return,
    and no reply at all, are a timeout. *)
Definition ResponseRead : Run bool :=
  modify (set_pointer 0) ;;;
  bytesRead <- Read ;;
  (if 0 <? bytesRead then advance bytesRead else ret tt) ;;;
  d <- get ;;
  let receivedMessage :=
    (0 <? bytesRead) && (0 <? GetSerialBufferSize d)
    && Byte.eqb (peek d (mSerialBufferPointer d - 1)) "013"%byte in
  if negb receivedMessage
  then emit (LogError "ResponseRead: read command timed out") ;;; ret false
  else
    ok <- ResponseCheckCRC ;;
    if negb ok then ret false else ret true.

(** [ResponseRead(const char * expectedMessage)]. *)
Definition ResponseRead_expect (expectedMessage : list byte) : Run bool :=
  ok <- ResponseRead ;;
  if negb ok
  then emit (LogError "ResponseRead: timeout while waiting for") ;;; ret false
  else
    d <- get ;;
    let n := GetSerialBufferStringSize (mSerialBuffer d)
                                       (mSerialBufferPointer d) in
    if negb (strncmp_eq expectedMessage (mSerialBuffer d) n)
    then emit (LogError "ResponseRead: expected, but received") ;;; ret false
    else ret true.

(* ------------------------------------------------------------------ *)
(** *** [Beep] *)

(** The [do ... while] loop of [Beep].  Every turn takes one reply off the
    link, so the number of queued replies bounds the turns.  The result
    tells whether the loop was left through its condition ([true]) or by
    the [return] inside it ([false]). *)
Fixpoint Beep_loop (fuel : nat) (numberOfBeeps : Z) : Run bool :=
  match fuel with
  | O => crash OutOfFuel
  | S fuel' =>
      CommandInitialize ;;;
      CommandAppend (lit "BEEP ") ;;;
      CommandAppend_int numberOfBeeps ;;;
      CommandSend ;;;
      Sleep ;;;
      ok <- ResponseRead ;;
      if negb ok then ret false
      else
        buf <- gets mSerialBuffer ;;
        if strncmp_eq (lit "0") buf 1
        then Beep_loop fuel' numberOfBeeps
        else ret true
  end.

Definition Beep (numberOfBeeps : Z) : Run unit :=
  (if ((numberOfBeeps <? 1) || (numberOfBeeps >? 9))%Z
   then emit (LogError "Beep: invalid input")
   else ret tt) ;;;
  queued <- gets (fun d => length (incoming (mSerialPort d))) ;;
  finished <- Beep_loop (S queued) numberOfBeeps ;;
  if finished
  then
    buf <- gets mSerialBuffer ;;
    if negb (strncmp_eq (lit "1") buf 1)
    then emit (LogError "Beep: unknown response received")
    else ret tt
  else ret tt.

(* ------------------------------------------------------------------ *)
(** *** [LoadToolDefinitionFile] *)

(** The input stream: the bytes not yet read, and whether the stream is
    still good. *)
Record ifstream := mk_ifstream { unread : list byte; good : bool }.

(** [stream.read(input, 64)]: a stream that is not good reads nothing; a
    short read stores what is left and sets the fail bit. *)
Definition stream_read (s : ifstream) (input : list byte) (n : nat)
  : ifstream * list byte :=
  if good s then
    let got := firstn n (unread s) in
    (mk_ifstream (skipn n (unread s)) (length got =? n),
     got ++ skipn (length got) input)
  else (s, input).

(** The hexadecimal text of the first 64 bytes of [input]. *)
Definition hex_output (input : list byte) : list byte :=
  flat_map (fun b => sprintf_02X (byte_to_Z b)) (firstn 64 input).

(** [numChunks], from the size of the file. *)
Definition numChunks (fileSize : nat) : nat :=
  let definitionSize := fileSize * 2 in
  let paddingSize := 128 - (definitionSize mod 128) in
  (definitionSize + paddingSize) / 128.

(** The body of the [for] loop, for chunks [i], [i+1], ..., [i+n-1].  The
    array [address] holds the four digits of [i * 64]. *)
Fixpoint LoadToolDefinitionFile_loop (n i : nat) (portHandle : list byte)
  (s : ifstream) (input : list byte) : Run unit :=
  match n with
  | O => ret tt
  | S n' =>
      let (s', input') := stream_read s input 64 in
      let output := hex_output input' in
      let address := firstn 4 (sprintf_04X (u32 (Z.of_nat i * 64))) in
      CommandInitialize ;;;
      CommandAppend (lit "PVWR ") ;;;
      CommandAppend portHandle ;;;
      CommandAppend address ;;;
      CommandAppend output ;;;
      CommandSend ;;;
      ResponseRead_expect (lit "OKAY") ;;;
      LoadToolDefinitionFile_loop n' (S i) portHandle s' input'
  end.

(** [toolDefinitionFile] is what opening [filePath] gives: the content of
    the file, or nothing when the file cannot be opened. *)
Definition LoadToolDefinitionFile (portHandle : list byte)
  (toolDefinitionFile : option (list byte)) : Run unit :=
  match toolDefinitionFile with
  | None => emit (LogError "LoadToolDefinitionFile: could not open")
  | Some content =>
      let fileSize := length content in
      if 960 <? fileSize
      then emit (LogError "LoadToolDefinitionFile: exceeds the 960 bytes limit")
      else
        LoadToolDefinitionFile_loop (numChunks fileSize) 0 portHandle
          (mk_ifstream content true) (repeat x00 65)
  end.

(* ------------------------------------------------------------------ *)
(** *** The tool registry *)

(** Equality and order of [std::string]. *)
Fixpoint bytes_eqb (a b : list byte) : bool :=
  match a, b with
  | [], [] => true
  | x :: a', y :: b' => Byte.eqb x y && bytes_eqb a' b'
  | _, _ => false
  end.

Fixpoint bytes_ltb (a b : list byte) : bool :=
  match a, b with
  | _, [] => false
  | [], _ :: _ => true
  | x :: a', y :: b' =>
      if (byte_to_Z x <? byte_to_Z y)%Z then true
      else if (byte_to_Z y <? byte_to_Z x)%Z then false
      else bytes_ltb a' b'
  end.

(** [cmnNamedMap]: a [std::map] from names to tool pointers, kept in the
    order of its keys. *)
Fixpoint map_find (key : list byte) (m : list (list byte * ToolPtr))
  : option ToolPtr :=
  match m with
  | [] => None
  | (k, v) :: rest => if bytes_eqb k key then Some v else map_find key rest
  end.

Fixpoint map_insert (key : list byte) (v : ToolPtr)
  (m : list (list byte * ToolPtr)) : list (list byte * ToolPtr) :=
  match m with
  | [] => [(key, v)]
  | (k, w) :: rest =>
      if bytes_ltb key k then (key, v) :: m
      else (k, w) :: map_insert key v rest
  end.

(** [cmnNamedMap::AddItem]: refuses a name that is already a key. *)
Definition AddItem (key : list byte) (v : ToolPtr)
  (m : list (list byte * ToolPtr)) : bool * list (list byte * ToolPtr) :=
  match map_find key m with
  | Some _ => (false, m)
  | None => (true, map_insert key v m)
  end.

(** [cmnNamedMap::GetNames]. *)
Definition GetNames (m : list (list byte * ToolPtr)) : list (list byte) :=
  map fst m.

(** [mTools.AddItem]. *)
Definition mTools_AddItem (name : list byte) (tool : ToolPtr) : Run bool :=
  d <- get ;;
  let (added, m) := AddItem name tool (mTools d) in
  modify (set_Tools m) ;;;
  ret added.

(** [Tool::Tool()]: the offset is zero, the poses are the default ones
    (identity, not valid); the character arrays are taken empty and the
    frame number zero. *)
Definition new_Tool : Tool scalar :=
  mk_Tool [] [] [] [] [] [] [] []
          (vct3_all (of_Z 0))
          (mk_prm frm_identity false)
          (mk_prm frm_identity false)
          indeterminate
          0%Z.

Definition Tool_with_identity (name serial definition : list byte)
  (t : Tool scalar) : Tool scalar :=
  mk_Tool name serial definition
          (PortHandle t) (MainType t) (ManufacturerID t) (ToolRevision t)
          (PartNumber t) (TooltipOffset t) (TooltipPosition t)
          (MarkerPosition t) (ErrorRMS t) (FrameNumber t).

(** The loop of [CheckTool] over the entries of [mTools]. *)
Fixpoint CheckTool_loop (h : list (Tool scalar))
  (entries : list (list byte * ToolPtr)) (serialNumber : list byte)
  : option ToolPtr :=
  match entries with
  | [] => None
  | (_, tool) :: rest =>
      match nth_error h tool with
      | Some t =>
          if bytes_eqb (SerialNumber t) serialNumber
          then Some tool
          else CheckTool_loop h rest serialNumber
      | None => CheckTool_loop h rest serialNumber
      end
  end.

Definition CheckTool (serialNumber : list byte) (d : Drv) : option ToolPtr :=
  CheckTool_loop (heap d) (mTools d) serialNumber.

(** [AddTool].  The provided interface created for a new tool belongs to
    the component framework and is not part of the state. *)
Definition AddTool (name serialNumber toolDefinitionFile : list byte)
  : Run (option ToolPtr) :=
  d <- get ;;
  match CheckTool serialNumber d with
  | Some tool =>
      emit (LogWarning "AddTool: there's already a tool with serial number") ;;;
      ret (Some tool)
  | None =>
      let tool := length (heap d) in
      modify (set_heap
                (heap d ++ [Tool_with_identity name serialNumber
                              toolDefinitionFile new_Tool])) ;;;
      added <- mTools_AddItem name tool ;;
      if negb added
      then
        emit (LogError "AddTool: no tool created, duplicate name exists") ;;;
        modify (fun d' => set_heap (removelast (heap d')) d') ;;;
        ret None
      else
        modify (fun d' => set_ToolNames (GetNames (mTools d')) d') ;;;
        emit EvUpdatedTools ;;;
        ret (Some tool)
  end.

(* ------------------------------------------------------------------ *)
(** *** [ToggleTracking] *)

(** The command [ToggleTracking] sends to reach [track]. *)
Definition toggle_command (track : bool) : list byte :=
  if track then lit "TSTART 80" else lit "TSTOP ".

Definition ToggleTracking (track : bool) : Run unit :=
  d <- get ;;
  if Bool.eqb track (mIsTracking d) then ret tt
  else
    (if track then
       CommandSend_str (lit "TSTART 80") ;;;
       ok <- ResponseRead_expect (lit "OKAY") ;;
       if ok then
         modify (set_IsTracking true) ;;;
         emit (EvTracking true) ;;;
         emit (SendStatus (Name d ++ lit ": tracking is on"))
       else
         emit (SendError (Name d ++ lit ": failed to turn tracking on"))
     else
       CommandSend_str (lit "TSTOP ") ;;;
       ok <- ResponseRead_expect (lit "OKAY") ;;
       if ok then
         modify (set_IsTracking false) ;;;
         emit (EvTracking false) ;;;
         emit (SendStatus (Name d ++ lit ": tracking is off"))
       else
         emit (SendError (Name d ++ lit ": failed to turn tracking off"))) ;;;
    Sleep.

Definition ToggleStrayMarkers (stray : bool) : Run unit :=
  modify (set_TrackStrayMarkers stray).

(* ------------------------------------------------------------------ *)
(** *** Fixed-width fields of a reply *)

Definition is_digit (b : byte) : bool :=
  ((48 <=? byte_to_Z b) && (byte_to_Z b <=? 57))%Z.

Fixpoint take_while (p : byte -> bool) (l : list byte) : list byte :=
  match l with
  | [] => []
  | b :: rest => if p b then b :: take_while p rest else []
  end.

(** [sscanf(text, "%<width>X", &n)]: the hexadecimal digits at the head of
    [text], at most [width] of them; nothing is stored without a digit.
    (The replies of the device carry digits only: leading white space, a
    sign and a [0x] prefix, which the conversion would also take, are left
    out.  What is proved of a number read this way is proved for fields
    of hexadecimal digits.) *)
Definition scan_X (width : nat) (text : list byte) : option Z :=
  match take_while is_hex_digit (firstn width text) with
  | [] => None
  | ds => hex_number ds
  end.

Definition decimal_number (ds : list byte) : Z :=
  fold_left (fun acc d => (10 * acc + (byte_to_Z d - 48))%Z) ds 0%Z.

(** One [%<width>lf] conversion over the fields of the wire format, a
    sign and decimal digits: the value read and the characters used.  (A
    field [-000000] reads as negative zero; it is [of_Z 0] here.) *)
Definition scan_lf (width : nat) (text : list byte) : option (Z * nat) :=
  let unsigned (w : nat) (t : list byte) :=
    match take_while is_digit (firstn w t) with
    | [] => None
    | ds => Some (decimal_number ds, length ds)
    end in
  match text with
  | "+"%byte :: rest =>
      match unsigned (width - 1) rest with
      | Some (v, n) => Some (v, S n)
      | None => None
      end
  | "-"%byte :: rest =>
      match unsigned (width - 1) rest with
      | Some (v, n) => Some ((- v)%Z, S n)
      | None => None
      end
  | _ => unsigned width text
  end.

(** [sscanf] with one [%lf] conversion per width: the values converted,
    in order, up to the first conversion that fails. *)
Fixpoint sscanf_lf (widths : list nat) (text : list byte) : list Z :=
  match widths with
  | [] => []
  | w :: later =>
      match scan_lf w text with
      | Some (v, n) => v :: sscanf_lf later (skipn n text)
      | None => []
      end
  end.

(** The [k]-th converted value, or what the destination held. *)
Definition converted (vals : list Z) (k : nat) (old : scalar) : scalar :=
  match nth_error vals k with
  | Some v => of_Z v
  | None => old
  end.

(** [sscanf(text, "%2c", portHandle)]: the characters read, at most two,
    replace the head of [portHandle]. *)
Definition scan_2c (text : list byte) (portHandle : list byte) : list byte :=
  let got := firstn 2 (cstr text) in
  got ++ skipn (length got) portHandle.

(* ------------------------------------------------------------------ *)
(** *** The stray-marker matrix *)

Definition Zeros (m : list (list scalar)) : list (list scalar) :=
  map (map (fun _ => of_Z 0)) m.

Fixpoint list_store {A} (l : list A) (i : nat) (a : A) : option (list A) :=
  match l, i with
  | [], _ => None
  | _ :: rest, O => Some (a :: rest)
  | c :: rest, S i' => option_map (cons c) (list_store rest i' a)
  end.

(** [mStrayMarkers[i][j] = v]: an element access is not range checked. *)
Definition StrayMarkers_store (i j : nat) (v : scalar) : Run unit :=
  fun d =>
    match nth_error (mStrayMarkers d) i with
    | None => Crash (MatrixRange i)
    | Some row =>
        match list_store row j v with
        | None => Crash (MatrixRange i)
        | Some row' =>
            match list_store (mStrayMarkers d) i row' with
            | Some m => Ok tt (set_StrayMarkers m d)
            | None => Crash (MatrixRange i)
            end
        end
    end.

(** [std::bitset<4>(c).flip()], bit [k]. *)
Definition bitset4_flip (c : byte) (k : nat) : bool :=
  negb (Z.testbit (byte_to_Z c) (Z.of_nat k)).

(** [ceil(numMarkers / 4.0)] as an [unsigned int]. *)
Definition ceil_quarter (numMarkers : nat) : nat := (numMarkers + 3) / 4.

(** The out-of-volume reply: four flags per character, bit 3 first. *)
Definition outOfVolumeReply (d : Drv) (parsePointer size : nat) : list bool :=
  flat_map (fun i =>
              let c := peek d (parsePointer + i) in
              map (fun j => bitset4_flip c (3 - j)) [0; 1; 2; 3])
           (seq 0 size).

Definition of_bool (b : bool) : scalar := of_Z (if b then 1 else 0)%Z.

(** The loop over the markers, for markers [i], ..., [i+n-1]. *)
Fixpoint markers_loop (n i : nat) (parsePointer : nat) (reply : list bool)
  (numGarbageBits : nat) : Run nat :=
  match n with
  | O => ret parsePointer
  | S n' =>
      d <- get ;;
      let vals := sscanf_lf [7; 7; 7] (buffer_at d parsePointer) in
      let position :=
        mk_vct3 (converted vals 0 indeterminate)
                (converted vals 1 indeterminate)
                (converted vals 2 indeterminate) in
      let parsePointer := parsePointer + 3 * 7 in
      let position := vct3_Divide position (of_Z 100) in
      let visibility := nth (i + numGarbageBits) reply false in
      StrayMarkers_store i 0 (of_Z 1) ;;;
      StrayMarkers_store i 1 (of_bool visibility) ;;;
      StrayMarkers_store i 2 (vx position) ;;;
      StrayMarkers_store i 3 (vy position) ;;;
      StrayMarkers_store i 4 (vz position) ;;;
      markers_loop n' (S i) parsePointer reply numGarbageBits
  end.

(** The stray-marker block of a reply, read from [parsePointer] on; the
    same statements stand in [Track] and in [ReportStrayMarkers]. *)
Definition stray_markers_block (parsePointer : nat) : Run nat :=
  d <- get ;;
  let numMarkers :=
    match scan_X 2 (buffer_at d parsePointer) with
    | Some v => Z.to_nat v
    | None => 0
    end in
  let parsePointer := parsePointer + 2 in
  let outOfVolumeReplySize := ceil_quarter numMarkers in
  let reply := outOfVolumeReply d parsePointer outOfVolumeReplySize in
  let numGarbageBits := 4 * outOfVolumeReplySize - numMarkers in
  let parsePointer := parsePointer + outOfVolumeReplySize in
  modify (fun d' => set_StrayMarkers (Zeros (mStrayMarkers d')) d') ;;;
  markers_loop numMarkers 0 parsePointer reply numGarbageBits.

(* ------------------------------------------------------------------ *)
(** *** [Track] *)

Definition update_tool (tool : ToolPtr) (f : Tool scalar -> Tool scalar)
  : Run unit :=
  fun d =>
    match nth_error (heap d) tool with
    | None => Crash ToolPointer
    | Some t =>
        match list_store (heap d) tool (f t) with
        | Some h => Ok tt (set_heap h d)
        | None => Crash ToolPointer
        end
    end.

Definition read_tool (tool : ToolPtr) : Run (Tool scalar) :=
  fun d =>
    match nth_error (heap d) tool with
    | None => Crash ToolPointer
    | Some t => Ok t d
    end.

Definition Tool_SetValid (valid : bool) (t : Tool scalar) : Tool scalar :=
  mk_Tool (ToolName t) (SerialNumber t) (Definition_ t)
          (PortHandle t) (MainType t) (ManufacturerID t) (ToolRevision t)
          (PartNumber t) (TooltipOffset t)
          (mk_prm (Position (TooltipPosition t)) valid)
          (mk_prm (Position (MarkerPosition t)) valid)
          (ErrorRMS t) (FrameNumber t).

Definition Tool_set_ErrorRMS (e : scalar) (t : Tool scalar) : Tool scalar :=
  mk_Tool (ToolName t) (SerialNumber t) (Definition_ t)
          (PortHandle t) (MainType t) (ManufacturerID t) (ToolRevision t)
          (PartNumber t) (TooltipOffset t) (TooltipPosition t)
          (MarkerPosition t) e (FrameNumber t).

Definition Tool_set_MarkerPosition (p : prmPositionCartesianGet scalar)
  (t : Tool scalar) : Tool scalar :=
  mk_Tool (ToolName t) (SerialNumber t) (Definition_ t)
          (PortHandle t) (MainType t) (ManufacturerID t) (ToolRevision t)
          (PartNumber t) (TooltipOffset t) (TooltipPosition t)
          p (ErrorRMS t) (FrameNumber t).

Definition Tool_set_TooltipPosition (p : prmPositionCartesianGet scalar)
  (t : Tool scalar) : Tool scalar :=
  mk_Tool (ToolName t) (SerialNumber t) (Definition_ t)
          (PortHandle t) (MainType t) (ManufacturerID t) (ToolRevision t)
          (PartNumber t) (TooltipOffset t) p
          (MarkerPosition t) (ErrorRMS t) (FrameNumber t).

Definition Tool_set_FrameNumber (n : Z) (t : Tool scalar) : Tool scalar :=
  mk_Tool (ToolName t) (SerialNumber t) (Definition_ t)
          (PortHandle t) (MainType t) (ManufacturerID t) (ToolRevision t)
          (PartNumber t) (TooltipOffset t) (TooltipPosition t)
          (MarkerPosition t) (ErrorRMS t) n.

(** The locals of [Track] that live across the rows of a reply. *)
Record TrackLocals := mk_locals {
  parsePointer : nat;
  portHandle : list byte;
  toolOrientation : vctQuatRot3 scalar;
  toolPosition : vct3 scalar;
  tooltipPosition : vctFrm3 scalar
}.

(** The numeric branch of a row: the pose of [tool] is decoded. *)
Definition Track_numeric (tool : ToolPtr) (L : TrackLocals)
  : Run TrackLocals :=
  d <- get ;;
  t <- read_tool tool ;;
  let vals := sscanf_lf [6; 6; 6; 6; 7; 7; 7; 6]
                        (buffer_at d (parsePointer L)) in
  let toolOrientation :=
    mk_quat (converted vals 1 (qx (toolOrientation L)))
            (converted vals 2 (qy (toolOrientation L)))
            (converted vals 3 (qz (toolOrientation L)))
            (converted vals 0 (qw (toolOrientation L))) in
  let toolPosition :=
    mk_vct3 (converted vals 4 (vx (toolPosition L)))
            (converted vals 5 (vy (toolPosition L)))
            (converted vals 6 (vz (toolPosition L))) in
  update_tool tool (Tool_set_ErrorRMS (converted vals 7 (ErrorRMS t))) ;;;
  let parsePointer := parsePointer L + ((4 * 6) + (3 * 7) + 6 + 8) in
  let toolOrientation := quat_Divide toolOrientation (of_Z 10000) in
  let tooltipPosition :=
    mk_frm (FromRaw toolOrientation) (Translation (tooltipPosition L)) in
  let toolPosition := vct3_Divide toolPosition (of_Z 100) in
  let toolPosition := vct3_Multiply toolPosition cmn_mm in
  let tooltipPosition := mk_frm (Rotation tooltipPosition) toolPosition in
  update_tool tool
    (fun t => Tool_set_ErrorRMS (fdiv (ErrorRMS t) (of_Z 10000)) t) ;;;
  update_tool tool
    (fun t => Tool_set_MarkerPosition
                (mk_prm tooltipPosition (Valid (MarkerPosition t))) t) ;;;
  update_tool tool
    (fun t => Tool_set_MarkerPosition
                (mk_prm (Position (MarkerPosition t)) true) t) ;;;
  t <- read_tool tool ;;
  let tooltipPosition :=
    mk_frm (Rotation tooltipPosition)
           (vct3_Add (Translation tooltipPosition)
                     (RotApply (Rotation tooltipPosition) (TooltipOffset t))) in
  update_tool tool
    (fun t => Tool_set_TooltipPosition
                (mk_prm tooltipPosition (Valid (TooltipPosition t))) t) ;;;
  update_tool tool
    (fun t => Tool_set_TooltipPosition
                (mk_prm (Position (TooltipPosition t)) true) t) ;;;
  ret (mk_locals parsePointer (portHandle L) toolOrientation toolPosition
                 tooltipPosition).

Definition skip (n : nat) (L : TrackLocals) : TrackLocals :=
  mk_locals (parsePointer L + n) (portHandle L) (toolOrientation L)
            (toolPosition L) (tooltipPosition L).

(** One turn of the loop over the port handles; [None] is the [return]
    out of [Track]. *)
Definition Track_row (L : TrackLocals) : Run (option TrackLocals) :=
  d <- get ;;
  let L := mk_locals (parsePointer L)
                     (scan_2c (buffer_at d (parsePointer L)) (portHandle L))
                     (toolOrientation L) (toolPosition L) (tooltipPosition L) in
  let L := skip 2 L in
  let toolKey := cstr (portHandle L) in
  match map_find toolKey (mPortToTool d) with
  | None => emit (LogError "Track: no tool for port handle") ;;; ret None
  | Some tool =>
      L <- (if strncmp_eq (buffer_at d (parsePointer L)) (lit "MISSING") 7
            then update_tool tool (Tool_SetValid false) ;;;
                 ret (skip 8 (skip 7 L))
            else if strncmp_eq (buffer_at d (parsePointer L)) (lit "DISABLED") 8
            then update_tool tool (Tool_SetValid false) ;;;
                 ret (skip 8 (skip 8 L))
            else if strncmp_eq (buffer_at d (parsePointer L))
                               (lit "UNOCCUPIED") 10
            then update_tool tool (Tool_SetValid false) ;;;
                 ret (skip 8 (skip 10 L))
            else Track_numeric tool L) ;;
      match scan_X 8 (buffer_at d (parsePointer L)) with
      | Some n => update_tool tool (Tool_set_FrameNumber n)
      | None => ret tt
      end ;;;
      let L := skip 8 L in
      if negb (Byte.eqb (peek d (parsePointer L)) "010"%byte)
      then emit (LogError "Track: line feed expected") ;;; ret None
      else ret (Some (skip 1 L))
  end.

Fixpoint Track_rows (numPortHandles : nat) (L : TrackLocals)
  : Run (option TrackLocals) :=
  match numPortHandles with
  | O => ret (Some L)
  | S n =>
      r <- Track_row L ;;
      match r with
      | None => ret None
      | Some L' => Track_rows n L'
      end
  end.

(** The two-digit count at the head of a reply; the counter starts at
    zero and keeps it when nothing converts. *)
Definition scan_count (text : list byte) : nat :=
  match scan_X 2 text with
  | Some v => Z.to_nat v
  | None => 0
  end.

Definition Track : Run unit :=
  d <- get ;;
  (if negb (mTrackStrayMarkers d)
   then CommandSend_str (lit "TX 0001")
   else CommandSend_str (lit "TX 1001")) ;;;
  ResponseRead ;;;
  d <- get ;;
  let numPortHandles := scan_count (buffer_at d 0) in
  let L := mk_locals 2 [x00; x00; x00] quat_identity vct3_uninitialized
                     frm_identity in
  r <- Track_rows numPortHandles L ;;
  match r with
  | None => ret tt
  | Some L =>
      if mTrackStrayMarkers d
      then stray_markers_block (parsePointer L) ;;; ret tt
      else ret tt
  end.

(* ------------------------------------------------------------------ *)
(** *** [ReportStrayMarkers] *)


(* ------------------------------------------------------------------ *)
(** *** [Init] *)

(** The state [Init] leaves, for a component called [name] with a serial
    buffer of [MAX_BUFFER_SIZE] bytes. *)
Definition Init (name : list byte) (MAX_BUFFER_SIZE : nat) : Drv :=
  mk_Driver name (repeat x00 MAX_BUFFER_SIZE) 0 (mk_port [] [])
            false true
            (Zeros (repeat (repeat (of_Z 0) 5) 50))
            [] [] [] [] [].

(** The replies the device is going to give, put on the link. *)
Definition with_incoming (replies : list (list byte)) (d : Drv) : Drv :=
  set_port (mk_port (written (mSerialPort d)) replies) d.

End Engine.

(* ================================================================== *)
(** ** An instance to run the driver on

    Exact rational arithmetic stands for [double], with the usual matrix
    of a quaternion; the string size of the buffer is taken to be the
    cursor less the terminator. *)

Definition Q_FromRaw (q : vctQuatRot3 Q) : vctMatRot3 Q :=
  let x := qx q in
  let y := qy q in
  let z := qz q in
  let w := qw q in
  (mk_rot
    (mk_vct3 (1 - 2 * (y * y + z * z)) (2 * (x * y - w * z)) (2 * (x * z + w * y)))
    (mk_vct3 (2 * (x * y + w * z)) (1 - 2 * (x * x + z * z)) (2 * (y * z - w * x)))
    (mk_vct3 (2 * (x * z - w * y)) (2 * (y * z + w * x)) (1 - 2 * (x * x + y * y))))%Q.

Definition Q_dot (r v : vct3 Q) : Q :=
  (vx r * vx v + vy r * vy v + vz r * vz v)%Q.

Definition Q_RotApply (r : vctMatRot3 Q) (v : vct3 Q) : vct3 Q :=
  mk_vct3 (Q_dot (row0 _ r) v) (Q_dot (row1 _ r) v) (Q_dot (row2 _ r) v).

#[export] Instance Q_Numeric : Numeric Q := {|
  of_Z := inject_Z;
  fadd := fun a b => Qred (a + b)%Q;
  fmul := fun a b => Qred (a * b)%Q;
  fdiv := fun a b => Qred (a / b)%Q;
  cmn_mm := (1 # 1000)%Q;
  indeterminate := 0%Q;
  FromRaw := Q_FromRaw;
  RotApply := Q_RotApply
|}.

#[export] Instance cursor_Header : Header := {|
  GetSerialBufferStringSize := fun _ p => (p - 1)%nat
|}.

(** A reply as it arrives: the payload, its CRC and the carriage return. *)
Definition framed (payload : list byte) : list byte :=
  payload ++ sprintf_04X (ComputeCRC payload) ++ ["013"%byte].

(* ================================================================== *)
(** ** The stray-marker block in the words of the specification *)

(** [n] decimal digits of [v], most significant first. *)
Fixpoint decimal_digits (n : nat) (v : Z) : list byte :=
  match n with
  | O => []
  | S n' => decimal_digits n' (v / 10) ++ [Z_to_byte (48 + v mod 10)]
  end.

(** A fixed-point field of [width] characters: a sign and the digits of
    the magnitude, the decimal point implied. *)
Definition fixed_field (width : nat) (v : Z) : list byte :=
  (if v <? 0 then "-"%byte else "+"%byte)
    :: decimal_digits (width - 1) (Z.abs v).

(** The three 7-character coordinates of one stray marker. *)
Definition position_record (xyz : Z * Z * Z) : list byte :=
  let '(x, y, z) := xyz in
  fixed_field 7 x ++ fixed_field 7 y ++ fixed_field 7 z.

(** A coordinate that fits its field. *)
Definition fits_field (v : Z) : Prop := - 10 ^ 6 < v < 10 ^ 6.

Definition position_fits (xyz : Z * Z * Z) : Prop :=
  let '(x, y, z) := xyz in fits_field x /\ fits_field y /\ fits_field z.

(** The visibility of marker [i] out of [m], from the packed out-of-volume
    bytes: each byte is inverted, its bits 3..0 stand for the slots
    [4q+0 .. 4q+3], and the first [4 * ceil(m/4) - m] slots are skipped. *)
Definition spec_visibility (oov : list byte) (m i : nat) : bool :=
  let slot := (i + (4 * ceil_quarter m - m))%nat in
  negb (Z.testbit (byte_to_Z (nth (slot / 4) oov x00))
                  (Z.of_nat (3 - slot mod 4))).

(* ================================================================== *)
(** ** Predicates of the statements *)

Section Statements.
Context {scalar : Type} `{Numeric scalar} `{Header}.

Local Open Scope nat_scope.
Local Open Scope driver_scope.

(** The status message of a successful [ToggleTracking]. *)
Definition toggle_status (d : Driver scalar) (track : bool) : Event :=
  SendStatus (Name d ++ lit (if track then ": tracking is on"
                             else ": tracking is off")).

(** A matrix of [rows] rows of five columns. *)
Definition five_columns (rows : nat) (m : list (list scalar)) : Prop :=
  length m = rows /\ Forall (fun row => length row = 5) m.

(** The row the loop writes for marker [k], over the buffer [buf] whose
    position records start at offset [base]. *)
Definition marker_row (buf : list byte) (base : nat) (reply : list bool)
  (numGarbageBits k : nat) : list scalar :=
  let vals := sscanf_lf [7; 7; 7] (skipn (base + 21 * k) buf) in
  [of_Z 1;
   of_bool (nth (k + numGarbageBits) reply false);
   fdiv (converted vals 0 indeterminate) (of_Z 100);
   fdiv (converted vals 1 indeterminate) (of_Z 100);
   fdiv (converted vals 2 indeterminate) (of_Z 100)].

(** The reply flags and the offsets of the block at [p], for [m] markers. *)
Definition block_reply (d : Driver scalar) (p m : nat) : list bool :=
  outOfVolumeReply d (p + 2) (ceil_quarter m).

Definition block_base (p m : nat) : nat := p + 2 + ceil_quarter m.

Definition block_garbage (m : nat) : nat := 4 * ceil_quarter m - m.

(** The tooltip pose is the marker pose moved by the rotated offset. *)
Definition tip_follows_marker (t : Tool scalar) : Prop :=
  Valid (MarkerPosition t) = true /\
  Valid (TooltipPosition t) = true /\
  Rotation (Position (TooltipPosition t))
  = Rotation (Position (MarkerPosition t)) /\
  Translation (Position (TooltipPosition t))
  = vct3_Add (Translation (Position (MarkerPosition t)))
             (RotApply (Rotation (Position (MarkerPosition t)))
                       (TooltipOffset t)).

(** A tool with this serial number is in the registry. *)
Definition registered (d : Driver scalar) (serialNumber : list byte)
  (tool : ToolPtr) : Prop :=
  exists name t,
    In (name, tool) (mTools d) /\
    nth_error (heap d) tool = Some t /\
    SerialNumber t = serialNumber.

(** The tool [AddTool] creates. *)
Definition created_tool (name serialNumber definition : list byte)
  : Tool scalar :=
  Tool_with_identity name serialNumber definition new_Tool.

End Statements.

(** *** Properties settled by running through all the cases *)

(** The table lookup of the source against the parity of the nibbles, and
    the shifts of [temp], which stay far below the width of [unsigned int]. *)
Definition step_agrees (t : Z) : bool :=
  Bool.eqb (Z.lxor (nth (Z.to_nat (Z.land t 15)) oddParity 0)
                   (nth (Z.to_nat (Z.shiftr t 4)) oddParity 0) =? 0)
           (negb (xorb (nibble_parity t) (nibble_parity (Z.shiftr t 4))))
  && (u32 (Z.shiftl t 6) =? Z.shiftl t 6)
  && (u32 (Z.shiftl (Z.shiftl t 6) 1) =? Z.shiftl (Z.shiftl t 6) 1).

(** The sixteen values of a nibble. *)
Definition nibble_values : list Z :=
  [0; 1; 2; 3; 4; 5; 6; 7; 8; 9; 10; 11; 12; 13; 14; 15].

(** What [%04X] prints for the 16-bit value of four nibbles: their four
    upper-case digits, which read back as the value. *)
Definition four_nibbles_agree (a b c d : Z) : bool :=
  let v := ((a * 16 + b) * 16 + c) * 16 + d in
  let s := map hex_upper [a; b; c; d] in
  bytes_eqb (sprintf_04X v) s
  && forallb is_upper_hex_digit s
  && match hex_number s with Some w => w =? v | None => false end.

(** A count printed by [%02X] is read back by [%02X]. *)
Definition count_reads_back (v : Z) : bool :=
  match sprintf_02X v with
  | [a; b] =>
      match scan_X 2 [a; b] with
      | Some w => w =? v
      | None => false
      end
  | _ => false
  end.

(** *** States and replies to run the driver on *)

(** What a run wrote to the link, as text. *)
Definition commands_of {A} (o : Outcome (Driver Q) A) : option (list string) :=
  option_map (fun d => map string_of_list_byte (written (mSerialPort d)))
             (final o).

(** The error and warning lines a run logged. *)
Definition logged_of {A} (o : Outcome (Driver Q) A) : option (list Event) :=
  option_map (fun d =>
                filter (fun e => match e with
                                 | LogError _ | LogWarning _ => true
                                 | _ => false
                                 end) (Events d))
             (final o).

(** A driver with a buffer of 2 KiB, and the device's next replies. *)
Definition driver_with (replies : list (list byte)) : Driver Q :=
  with_incoming replies (Init (lit "NDI") 2048).

Definition CR : string := String (ascii_of_nat 13) EmptyString.

Definition LF : byte := "010"%byte.

(** A reply whose CRC is written with lower-case digits, as the read of
    the first reply leaves it in the buffer. *)
Definition lower_case_reply : Driver Q :=
  set_pointer 9
    (set_buffer (lit "OKAYa896" ++ ["013"%byte] ++ repeat x00 7)
       (Init (lit "NDI") 16)).

(** The reply [OKAYA896] and a carriage return, as received. *)
Definition okay_reply : Driver Q :=
  set_pointer 9
    (set_buffer (lit "OKAYA896" ++ ["013"%byte] ++ repeat x00 7)
       (Init (lit "NDI") 16)).

(** A driver that is not tracking, with a buffer of 64 bytes. *)
Definition idle_driver : Driver Q := Init (lit "NDI") 64.

(** A probe on port handle [01], its tip 5 mm along the z axis, and the
    payload of a [TX 0001] reply with its numeric row. *)
Definition probe : Tool Q :=
  mk_Tool (lit "02-12345678") (lit "12345678") [] (lit "01") (lit "02")
          [] [] [] (mk_vct3 0 0 5)%Q
          (mk_prm frm_identity false) (mk_prm frm_identity false)
          0%Q 0.

Definition probe_reply : list byte :=
  lit "01" ++ lit "01" ++ lit "+10000+00000+00000+00000"
    ++ lit "+010000+000000+000000" ++ lit "+00100" ++ lit "00000000"
    ++ lit "0000002A" ++ [LF] ++ lit "0000".

Definition probe_driver : Driver Q :=
  set_buffer (probe_reply ++ repeat x00 16)
    (set_PortToTool [(lit "01", 0%nat)]
       (set_Tools [(lit "02-12345678", 0%nat)]
          (set_heap [probe] (Init (lit "NDI") 96)))).

Definition first_row : TrackLocals (scalar := Q) :=
  mk_locals 2 [x00; x00; x00] quat_identity vct3_uninitialized frm_identity.

(** Three stray markers, the third one inside the volume. *)
Definition three_positions : list (Z * Z * Z) :=
  [(12345, -50, 0); (1, 2, 3); (-1, -2, -3)].

Definition three_markers : list byte :=
  lit "03" ++ [x0e] ++ flat_map position_record three_positions.

(** A reply that reports 51 stray markers. *)
Definition fifty_one_markers : list byte :=
  lit "33" ++ repeat "0"%byte 13
    ++ flat_map position_record (repeat (0, 0, 0) 51).


(** A registry with the probe in it. *)
Definition registry_driver : Driver Q :=
  set_ToolNames [lit "02-12345678"]
    (set_Tools [(lit "02-12345678", 0%nat)]
       (set_heap [probe] (Init (lit "NDI") 96))).


(* ------------------------------------------------------------------ *)
(** *** The rows of a [TX] reply *)

(** A row of a [TX] reply, one per port handle: the handle, the data of
    the tool, the port status, the frame number; a line feed ends it. *)
Record ToolRow := mk_row {
  row_handle : list byte;
  row_data : list byte;
  row_status : list byte;
  row_frame : list byte
}.

Definition row_text (r : ToolRow) : list byte :=
  row_handle r ++ row_data r ++ row_status r ++ row_frame r ++ [LF].

(** The data of a tool: one of the three words, or 4 x 6 + 3 x 7 + 6
    characters of signed numbers. *)
Definition is_row_data (data : list byte) : bool :=
  bytes_eqb data (lit "MISSING")
  || bytes_eqb data (lit "DISABLED")
  || bytes_eqb data (lit "UNOCCUPIED")
  || ((length data =? 4 * 6 + 3 * 7 + 6)%nat
      && match data with
         | c :: _ => Byte.eqb c "+" || Byte.eqb c "-"
         | [] => false
         end).

(** A row with fields of the widths of the wire format, for a port handle
    that [ports] gives a tool among the first [tools] of the heap. *)
Definition row_ok (ports : list (list byte * ToolPtr)) (tools : nat)
  (r : ToolRow) : bool :=
  (length (row_handle r) =? 2)%nat
  && is_row_data (row_data r)
  && (length (row_status r) =? 8)%nat
  && (length (row_frame r) =? 8)%nat
  && match map_find (row_handle r) ports with
     | Some tool => (tool <? tools)%nat
     | None => false
     end.

(** A count field: two hexadecimal digits, and the number they write. *)
Definition two_hex_digits (field : list byte) : bool :=
  (length field =? 2)%nat && forallb is_hex_digit field.

Definition hex_count (field : list byte) : nat :=
  match hex_number field with
  | Some v => Z.to_nat v
  | None => 0%nat
  end.

(** A [TX] reply: the count of port handles and their rows, then [block],
    what follows the rows. *)
Definition TX_reply (rows : list ToolRow) (block : list byte) : list byte :=
  sprintf_02X (Z.of_nat (length rows)) ++ flat_map row_text rows ++ block.

(** A stray-marker block: the count of markers, the packed out-of-volume
    flags and the position records, followed by [tail]. *)
Definition stray_block (oov : list byte) (positions : list (Z * Z * Z))
  (tail : list byte) : list byte :=
  sprintf_02X (Z.of_nat (length positions)) ++ oov
    ++ flat_map position_record positions ++ tail.

(** The probe in the registry, behind port handle [01], on a link with
    [replies] to come. *)
Definition tracking_driver (replies : list (list byte)) : Driver Q :=
  with_incoming replies
    (set_PortToTool [(lit "01", 0%nat)]
       (set_ToolNames [lit "02-12345678"]
          (set_Tools [(lit "02-12345678", 0%nat)]
             (set_heap [probe] (Init (lit "NDI") 2048))))).

(** The row of the probe, measured. *)
Definition probe_row : ToolRow :=
  mk_row (lit "01")
         (lit "+10000+00000+00000+00000" ++ lit "+010000+000000+000000"
            ++ lit "+00100")
         (lit "00000000") (lit "0000002A").

(** A driver that is tracking, on a link with [replies] to
    come. *)
Definition busy_driver (replies : list (list byte)) : Driver Q :=
  set_IsTracking true (with_incoming replies idle_driver).

(* ================================================================== *)
(** ** More of the driver *)

(** The settings of [osaSerialPort] that the driver names, each type with
    one more value for the settings it does not name. *)
Inductive BaudRateType :=
| BaudRate9600 | BaudRate19200 | BaudRate38400 | BaudRate57600
| BaudRate115200 | BaudRateOther.

Inductive CharacterSizeType :=
| CharacterSize8 | CharacterSize7 | CharacterSizeOther.

Inductive ParityCheckingType :=
| ParityCheckingNone | ParityCheckingOdd | ParityCheckingEven
| ParityCheckingOther.

Inductive StopBitsType := StopBitsOne | StopBitsTwo | StopBitsOther.

Inductive FlowControlType :=
| FlowControlNone | FlowControlHardware | FlowControlOther.

Record PortSettings := mk_settings {
  BaudRate : BaudRateType;
  CharacterSize : CharacterSizeType;
  ParityChecking : ParityCheckingType;
  StopBits : StopBitsType;
  FlowControl : FlowControlType
}.

(** The rest of the state of the component: the part of the serial port
    that the commands above never touch (whether it is open, the settings
    stored in it, the settings [Configure] has applied, the breaks
    written) and the read timeout, in milliseconds. *)
Record Session (scalar : Type) := mk_Session {
  driver : Driver scalar;
  IsOpened : bool;
  settings : PortSettings;
  configured : PortSettings;
  breaks : nat;
  mReadTimeout : Z
}.
Arguments mk_Session {scalar}.
Arguments driver {scalar}.
Arguments IsOpened {scalar}.
Arguments settings {scalar}.
Arguments configured {scalar}.
Arguments breaks {scalar}.
Arguments mReadTimeout {scalar}.

Section MoreOfTheDriver.
Context {scalar : Type} `{Numeric scalar} `{Header}.

Local Open Scope driver_scope.
Local Open Scope nat_scope.

Local Abbreviation Drv := (Driver scalar).
Local Abbreviation Run := (M (Driver scalar)).
Local Abbreviation Ses := (Session scalar).
Local Abbreviation RunS := (M (Session scalar)).

(* ------------------------------------------------------------------ *)
(** *** [GetToolName] *)

(** [toolIterator++], [n] times from [mTools.begin()]. *)
Fixpoint iterator_advance (n : nat) (entries : list (list byte * ToolPtr))
  : list (list byte * ToolPtr) :=
  match n with
  | O => entries
  | S n' => iterator_advance n' (tl entries)
  end.

Definition GetToolName (index : nat) : Run (list byte) :=
  d <- get ;;
  if length (mTools d) <=? index
  then emit (LogError "GetToolName: requested index is out of range") ;;;
       ret []
  else ret (match iterator_advance index (mTools d) with
            | (name, _) :: _ => name
            | [] => []
            end).

(* ------------------------------------------------------------------ *)
(** *** The session *)

Definition set_driver (d : Drv) (s : Ses) : Ses :=
  mk_Session d (IsOpened s) (settings s) (configured s) (breaks s)
             (mReadTimeout s).

Definition set_IsOpened (b : bool) (s : Ses) : Ses :=
  mk_Session (driver s) b (settings s) (configured s) (breaks s)
             (mReadTimeout s).

Definition set_settings (p : PortSettings) (s : Ses) : Ses :=
  mk_Session (driver s) (IsOpened s) p (configured s) (breaks s)
             (mReadTimeout s).

Definition set_configured (p : PortSettings) (s : Ses) : Ses :=
  mk_Session (driver s) (IsOpened s) (settings s) p (breaks s)
             (mReadTimeout s).

Definition set_breaks (n : nat) (s : Ses) : Ses :=
  mk_Session (driver s) (IsOpened s) (settings s) (configured s) n
             (mReadTimeout s).

Definition set_ReadTimeout (t : Z) (s : Ses) : Ses :=
  mk_Session (driver s) (IsOpened s) (settings s) (configured s) (breaks s) t.

(** A computation of the driver, run inside the session. *)
Definition on_driver {A} (m : Run A) : RunS A :=
  fun s => match m (driver s) with
           | Ok a d => Ok a (set_driver d s)
           | Crash f => Crash f
           end.

(** [mSerialPort.Set...] and [mSerialPort.Configure()]. *)
Definition SetPortSettings (p : PortSettings) : RunS unit :=
  modify (set_settings p).

Definition Configure : RunS unit :=
  modify (fun s => set_configured (settings s) s).

(** [mSerialPort.Close()], [mSerialPort.WriteBreak]. *)
Definition Close : RunS unit := modify (set_IsOpened false).

Definition WriteBreak : RunS unit :=
  modify (fun s => set_breaks (S (breaks s)) s).

(** [cmn_s], in milliseconds. *)
Definition cmn_s : Z := 1000.

(* ------------------------------------------------------------------ *)
(** *** [SetSerialPortSettings] *)

(** The digit of the [COMM] command for each setting the driver names. *)
Definition baudRate_digit (b : BaudRateType) : option byte :=
  match b with
  | BaudRate9600 => Some "0"%byte
  | BaudRate19200 => Some "2"%byte
  | BaudRate38400 => Some "3"%byte
  | BaudRate57600 => Some "4"%byte
  | BaudRate115200 => Some "5"%byte
  | BaudRateOther => None
  end.

Definition characterSize_digit (c : CharacterSizeType) : option byte :=
  match c with
  | CharacterSize8 => Some "0"%byte
  | CharacterSize7 => Some "1"%byte
  | CharacterSizeOther => None
  end.

Definition parityChecking_digit (p : ParityCheckingType) : option byte :=
  match p with
  | ParityCheckingNone => Some "0"%byte
  | ParityCheckingOdd => Some "1"%byte
  | ParityCheckingEven => Some "2"%byte
  | ParityCheckingOther => None
  end.

Definition stopBits_digit (s : StopBitsType) : option byte :=
  match s with
  | StopBitsOne => Some "0"%byte
  | StopBitsTwo => Some "1"%byte
  | StopBitsOther => None
  end.

Definition flowControl_digit (f : FlowControlType) : option byte :=
  match f with
  | FlowControlNone => Some "0"%byte
  | FlowControlHardware => Some "1"%byte
  | FlowControlOther => None
  end.

(** The command that [SetSerialPortSettings] composes, when every setting
    is one that the driver names. *)
Definition COMM_command (p : PortSettings) : option (list byte) :=
  match baudRate_digit (BaudRate p), characterSize_digit (CharacterSize p),
        parityChecking_digit (ParityChecking p), stopBits_digit (StopBits p),
        flowControl_digit (FlowControl p) with
  | Some b, Some c, Some y, Some t, Some f =>
      Some (lit "COMM " ++ [b; c; y; t; f])
  | _, _, _, _, _ => None
  end.

(** One [switch] of [SetSerialPortSettings]: the digit is appended, or the
    function returns [false] from the [default] case; [rest] is what
    follows the [switch]. *)
Definition switch_digit (digit : option byte) (invalid : string)
  (rest : RunS bool) : RunS bool :=
  match digit with
  | Some c => on_driver (CommandAppend_char c) ;;; rest
  | None => on_driver (emit (LogError invalid)) ;;; ret false
  end.

Definition SetSerialPortSettings (p : PortSettings) : RunS bool :=
  on_driver CommandInitialize ;;;
  on_driver (CommandAppend (lit "COMM ")) ;;;
  switch_digit (baudRate_digit (BaudRate p))
    "SetSerialPortSettings: invalid baud rate"
  (switch_digit (characterSize_digit (CharacterSize p))
    "SetSerialPortSettings: invalid character size"
  (switch_digit (parityChecking_digit (ParityChecking p))
    "SetSerialPortSettings: invalid parity checking"
  (switch_digit (stopBits_digit (StopBits p))
    "SetSerialPortSettings: invalid stop bits"
  (switch_digit (flowControl_digit (FlowControl p))
    "SetSerialPortSettings: invalid flow control"
  (name <- on_driver (gets Name) ;;
   sent <- on_driver CommandSend ;;
   if negb sent
   then on_driver
          (emit (SendError
                   (name ++ lit ": SetSerialPortSettings: failed to send command")))
        ;;; ret false
   else
     ok <- on_driver (ResponseRead_expect (lit "OKAY")) ;;
     if ok
     then
       on_driver Sleep ;;;
       SetPortSettings p ;;;
       Configure ;;;
       on_driver Sleep ;;;
       on_driver
         (emit (SendStatus (name ++ lit ": SetSerialPortSettings succeeded")))
       ;;; ret true
     else
       on_driver
         (emit (SendError
                  (name ++ lit ": SetSerialPortSettings: didn't receive "
                        ++ ["034"%byte] ++ lit "OKAY" ++ ["034"%byte])))
       ;;; ret false))))).

(* ------------------------------------------------------------------ *)
(** *** [ResetSerialPort] *)

Definition reset_settings : PortSettings :=
  mk_settings BaudRate9600 CharacterSize8 ParityCheckingNone StopBitsOne
              FlowControlNone.

Definition ResetSerialPort : RunS bool :=
  SetPortSettings reset_settings ;;;
  Configure ;;;
  WriteBreak ;;;
  on_driver Sleep ;;;
  previousReadTimeout <- gets mReadTimeout ;;
  modify (set_ReadTimeout (5 * cmn_s)) ;;;
  ok <- on_driver (ResponseRead_expect (lit "RESET")) ;;
  if negb ok
  then
    on_driver (emit (LogError "ResetSerialPort: failed to reset")) ;;;
    modify (set_ReadTimeout previousReadTimeout) ;;;
    ret false
  else
    modify (set_ReadTimeout previousReadTimeout) ;;;
    ret true.

(* ------------------------------------------------------------------ *)
(** *** [Disconnect] *)

Definition Disconnect : RunS unit :=
  on_driver (ToggleTracking false) ;;;
  on_driver (modify (set_IsTracking false)) ;;;
  Close ;;;
  on_driver (emit (EvConnected [])) ;;;
  name <- on_driver (gets Name) ;;
  on_driver (emit (SendStatus (name ++ lit ": serial port disconnected"))).

End MoreOfTheDriver.

(* ================================================================== *)
(** ** Statements about the rest of the driver *)

(** The keys of a [std::map] come in strictly increasing order. *)
Fixpoint increasing (keys : list (list byte)) : bool :=
  match keys with
  | [] => true
  | k :: rest => forallb (bytes_ltb k) rest && increasing rest
  end.





Section MoreStatements.
Context {scalar : Type}.

(** The registry of tools is well formed: the names of [mTools] increase,
    every entry points to a tool, [mToolNames] lists the names of
    [mTools], and no two entries have tools with the same serial
    number. *)
Definition registry_ok (d : Driver scalar) : Prop :=
  increasing (GetNames (mTools d)) = true /\
  (forall name tool, In (name, tool) (mTools d) ->
                     (tool < length (heap d))%nat) /\
  mToolNames d = GetNames (mTools d) /\
  (forall n1 p1 t1 n2 p2 t2,
      In (n1, p1) (mTools d) -> In (n2, p2) (mTools d) ->
      nth_error (heap d) p1 = Some t1 -> nth_error (heap d) p2 = Some t2 ->
      SerialNumber t1 = SerialNumber t2 -> n1 = n2).

(** Two records of a tool that differ at most in what tracking measures:
    the two poses with their validity, the error and the frame number. *)
Definition same_identity (t t' : Tool scalar) : Prop :=
  ToolName t' = ToolName t /\
  SerialNumber t' = SerialNumber t /\
  Definition_ t' = Definition_ t /\
  PortHandle t' = PortHandle t /\
  MainType t' = MainType t /\
  ManufacturerID t' = ManufacturerID t /\
  ToolRevision t' = ToolRevision t /\
  PartNumber t' = PartNumber t /\
  TooltipOffset t' = TooltipOffset t.

(** From [d] to [d'], [sent] commands have been written to the link and
    [received] replies taken off it (or all of them, if fewer were left);
    the name, the two flags, the registry, the [Tracking] events, the size
    of the serial buffer and the identity of every tool are the same. *)
Definition link_step (sent received : nat) (d d' : Driver scalar) : Prop :=
  (exists commands,
      written (mSerialPort d') = written (mSerialPort d) ++ commands /\
      length commands = sent) /\
  incoming (mSerialPort d') = skipn received (incoming (mSerialPort d)) /\
  Name d' = Name d /\
  mIsTracking d' = mIsTracking d /\
  mTrackStrayMarkers d' = mTrackStrayMarkers d /\
  mTools d' = mTools d /\
  mPortToTool d' = mPortToTool d /\
  mToolNames d' = mToolNames d /\
  tracking_events (Events d') = tracking_events (Events d) /\
  length (mSerialBuffer d') = length (mSerialBuffer d) /\
  Forall2 same_identity (heap d) (heap d').

(** A computation that, whenever it returns, has made a [link_step]. *)
Definition exchanges {A} (sent received : nat) (m : M (Driver scalar) A)
  : Prop :=
  forall d a d', m d = Ok a d' -> link_step sent received d d'.

(** What a step does not do to the port: nothing is written or received,
    and the port keeps its state. *)
Definition port_kept (s s' : Session scalar) : Prop :=
  mSerialPort (driver s') = mSerialPort (driver s) /\
  length (mSerialBuffer (driver s')) = length (mSerialBuffer (driver s)) /\
  IsOpened s' = IsOpened s /\
  settings s' = settings s /\
  configured s' = configured s /\
  breaks s' = breaks s /\
  mReadTimeout s' = mReadTimeout s.

(** A computation that returns [false] and keeps the port, given room
    for [k] more characters. *)
Definition refuses (k : nat) (m : M (Session scalar) bool) : Prop :=
  forall s,
    (mSerialBufferPointer (driver s) + k
     <= length (mSerialBuffer (driver s)))%nat ->
    exists s', m s = Ok false s' /\ port_kept s s'.

End MoreStatements.

(* ------------------------------------------------------------------ *)
(** *** More sample states *)

(** The probe registered behind port handle [01], and in the buffer a
    reply whose row reports it [MISSING]. *)
Definition missing_driver : Driver Q :=
  set_buffer (lit "01" ++ lit "01" ++ lit "MISSING" ++ lit "00000000"
                ++ lit "0000002A" ++ [LF] ++ repeat x00 16)
    (set_PortToTool [(lit "01", 0%nat)]
       (set_Tools [(lit "02-12345678", 0%nat)]
          (set_heap [probe] (Init (lit "NDI") 96)))).

(** The settings [Connect] asks for, and settings with a baud rate the
    driver has no digit for. *)
Definition connect_settings : PortSettings :=
  mk_settings BaudRate115200 CharacterSize8 ParityCheckingNone StopBitsOne
              FlowControlNone.

Definition unnamed_baud_rate : PortSettings :=
  mk_settings BaudRateOther CharacterSize8 ParityCheckingNone StopBitsOne
              FlowControlNone.

(** An open port with the settings [p] applied, around the driver [d];
    the read timeout is the one [Init] sets. *)
Definition session_at (p : PortSettings) (d : Driver Q) : Session Q :=
  mk_Session d true p p 0 (2 * cmn_s).


(* ================================================================== *)
(** * Properties *)

(** ** Bytes and C strings *)


Lemma is_nul_true (b : byte) : is_nul b = true <-> b = x00.
Proof.
  unfold is_nul. split; intro Hb.
  - now apply Byte.byte_dec_bl.
  - now apply Byte.byte_dec_lb.
Qed.

Lemma is_nul_false (b : byte) : is_nul b = false <-> b <> x00.
Proof.
  rewrite <- is_nul_true. destruct (is_nul b); split; congruence.
Qed.

Lemma byte_eqb_refl (b : byte) : Byte.eqb b b = true.
Proof. now apply Byte.byte_dec_lb. Qed.

Lemma nul_free_cons (b : byte) (l : list byte) :
  ~ In x00 (b :: l) -> is_nul b = false /\ ~ In x00 l.
Proof.
  intro Hn. split.
  - apply is_nul_false. intro Hb. apply Hn. left. now symmetry.
  - intro Hl. apply Hn. now right.
Qed.

Lemma cstr_terminated (p rest : list byte) :
  ~ In x00 p -> cstr (p ++ x00 :: rest) = p.
Proof.
  induction p as [|b p IH]; intro Hn; simpl.
  - reflexivity.
  - apply nul_free_cons in Hn. destruct Hn as [Hb Hp].
    rewrite Hb. now rewrite IH.
Qed.

Lemma cstr_nul_free (p : list byte) : ~ In x00 p -> cstr p = p.
Proof.
  induction p as [|b p IH]; intro Hn; simpl.
  - reflexivity.
  - apply nul_free_cons in Hn. destruct Hn as [Hb Hp].
    rewrite Hb. now rewrite IH.
Qed.

(** ** CRC-16 codec *)

(** A property of all the values of a byte is settled by running through
    them. *)
Lemma forall_byte_values (P : Z -> bool) :
  forallb P (map Z.of_nat (seq 0 256)) = true ->
  forall t, 0 <= t < 256 -> P t = true.
Proof.
  intros Hall t Ht.
  rewrite forallb_forall in Hall. apply Hall.
  apply in_map_iff. exists (Z.to_nat t). split.
  - lia.
  - apply in_seq. lia.
Qed.

Lemma step_agrees_all (t : Z) : 0 <= t < 256 -> step_agrees t = true.
Proof.
  apply forall_byte_values. vm_compute. reflexivity.
Qed.

Lemma land_255_range (z : Z) : 0 <= Z.land z 255 < 256.
Proof.
  change 255 with (Z.ones 8). rewrite Z.land_ones by lia.
  apply Z.mod_pos_bound. lia.
Qed.

Lemma ComputeCRC_step_spec (crc : Z) (b : byte) :
  ComputeCRC_step crc b = spec_crc_update crc (byte_to_Z b).
Proof.
  unfold ComputeCRC_step, spec_crc_update.
  set (t := Z.land (Z.lxor (byte_to_Z b) (Z.land crc 255)) 255).
  pose proof (step_agrees_all t (land_255_range _)) as Ht.
  unfold step_agrees in Ht.
  apply andb_prop in Ht. destruct Ht as [Ht H7].
  apply andb_prop in Ht. destruct Ht as [Hp H6].
  apply Z.eqb_eq in H6. apply Z.eqb_eq in H7.
  apply Bool.eqb_prop in Hp.
  rewrite H6, H7, Hp.
  destruct (xorb (nibble_parity t) (nibble_parity (Z.shiftr t 4)));
    reflexivity.
Qed.

Lemma ComputeCRC_loop_spec (data : list byte) (crc : Z) :
  ~ In x00 data ->
  ComputeCRC_loop crc data = fold_left spec_crc_update (map byte_to_Z data) crc.
Proof.
  revert crc. induction data as [|b data IH]; intros crc Hn; simpl.
  - reflexivity.
  - apply nul_free_cons in Hn. destruct Hn as [Hb Hd].
    rewrite Hb, ComputeCRC_step_spec. now apply IH.
Qed.

(** The loop stops at the first zero byte. *)
Lemma ComputeCRC_loop_terminated (data rest : list byte) (crc : Z) :
  ~ In x00 data ->
  ComputeCRC_loop crc (data ++ x00 :: rest) = ComputeCRC_loop crc data.
Proof.
  revert crc. induction data as [|b data IH]; intros crc Hn; simpl.
  - reflexivity.
  - apply nul_free_cons in Hn. destruct Hn as [Hb Hd].
    rewrite Hb. now apply IH.
Qed.

Lemma ComputeCRC_terminated (data rest : list byte) :
  ~ In x00 data -> ComputeCRC (data ++ x00 :: rest) = ComputeCRC data.
Proof. apply ComputeCRC_loop_terminated. Qed.

(** C1. [ComputeCRC] over the payload [OKAY] is [0xA896], printed by
    [%04X] as the four characters [A896]; and over every byte string
    without a zero byte [ComputeCRC] is the update rule of the
    specification, run over the bytes in order from zero, the bytes behind
    the first zero byte being left out. *)
Theorem ComputeCRC_okay_and_update_rule (data rest : list byte) :
  ~ In x00 data ->
  ComputeCRC (lit "OKAY") = 43158 /\
  43158 = 10 * 16 ^ 3 + 8 * 16 ^ 2 + 9 * 16 + 6 /\
  sprintf_04X (ComputeCRC (lit "OKAY")) = lit "A896" /\
  ComputeCRC data = spec_crc data /\
  ComputeCRC (data ++ x00 :: rest) = spec_crc data.
Proof.
  intro Hn. repeat split.
  - unfold ComputeCRC. now apply ComputeCRC_loop_spec.
  - rewrite ComputeCRC_terminated by assumption.
    unfold ComputeCRC. now apply ComputeCRC_loop_spec.
Qed.

Lemma ComputeCRC_okay_and_update_rule_witness :
  ComputeCRC (lit "OKAY") = 43158 /\
  43158 = 10 * 16 ^ 3 + 8 * 16 ^ 2 + 9 * 16 + 6 /\
  sprintf_04X (ComputeCRC (lit "OKAY")) = lit "A896" /\
  ComputeCRC (lit "RESET") = spec_crc (lit "RESET") /\
  ComputeCRC (lit "RESET" ++ x00 :: lit "BE6F") = spec_crc (lit "RESET").
Proof.
  apply (ComputeCRC_okay_and_update_rule (lit "RESET") (lit "BE6F")).
  vm_compute. intros [H|[H|[H|[H|[H|[]]]]]]; discriminate H.
Defined.

(** *** The range of the CRC *)

Lemma lxor_below_pow2 (n a b : Z) :
  0 <= n -> 0 <= a < 2 ^ n -> 0 <= b < 2 ^ n -> 0 <= Z.lxor a b < 2 ^ n.
Proof.
  intros Hn Ha Hb. split.
  - apply Z.lxor_nonneg. lia.
  - destruct (Z.eq_dec a 0) as [->|Ha0]; [rewrite Z.lxor_0_l; lia|].
    destruct (Z.eq_dec b 0) as [->|Hb0]; [rewrite Z.lxor_0_r; lia|].
    destruct (Z.eq_dec (Z.lxor a b) 0) as [Hz|Hz]; [lia|].
    assert (0 <= Z.lxor a b) as Hx by (apply Z.lxor_nonneg; lia).
    apply Z.log2_lt_pow2; [lia|].
    pose proof (Z.log2_lxor a b ltac:(lia) ltac:(lia)) as Hl.
    assert (Z.log2 a < n) as Hla by (apply Z.log2_lt_pow2; lia).
    assert (Z.log2 b < n) as Hlb by (apply Z.log2_lt_pow2; lia).
    lia.
Qed.

Lemma spec_crc_update_range (crc b : Z) :
  0 <= crc < 65536 -> 0 <= spec_crc_update crc b < 65536.
Proof.
  intro Hc. unfold spec_crc_update.
  set (t := Z.land (Z.lxor b (Z.land crc 255)) 255).
  assert (0 <= t < 256) as Ht by apply land_255_range.
  assert (0 <= Z.shiftr crc 8 < 2 ^ 16) as Hs.
  { rewrite Z.shiftr_div_pow2 by lia. split.
    - apply Z.div_pos; lia.
    - apply Z.div_lt_upper_bound; lia. }
  assert (0 <= Z.shiftl t 6 < 2 ^ 16) as H6.
  { rewrite Z.shiftl_mul_pow2 by lia. change (2 ^ 6) with 64. lia. }
  assert (0 <= Z.shiftl (Z.shiftl t 6) 1 < 2 ^ 16) as H7.
  { rewrite !Z.shiftl_mul_pow2 by lia.
    change (2 ^ 6) with 64. change (2 ^ 1) with 2. lia. }
  change 65536 with (2 ^ 16).
  apply lxor_below_pow2; [lia| |exact H7].
  apply lxor_below_pow2; [lia| |exact H6].
  destruct (xorb (nibble_parity t) (nibble_parity (Z.shiftr t 4))).
  - apply lxor_below_pow2; [lia|exact Hs|lia].
  - exact Hs.
Qed.

Lemma ComputeCRC_loop_range (data : list byte) (crc : Z) :
  0 <= crc < 65536 -> 0 <= ComputeCRC_loop crc data < 65536.
Proof.
  revert crc. induction data as [|b data IH]; intros crc Hc; simpl.
  - exact Hc.
  - destruct (is_nul b); [exact Hc|].
    apply IH. rewrite ComputeCRC_step_spec. now apply spec_crc_update_range.
Qed.

Lemma ComputeCRC_range (data : list byte) : 0 <= ComputeCRC data < 65536.
Proof. apply ComputeCRC_loop_range. lia. Qed.

(** *** Four upper-case hexadecimal digits *)

Lemma bytes_eqb_eq (a b : list byte) : bytes_eqb a b = true <-> a = b.
Proof.
  revert b. induction a as [|x a IH]; intros [|y b]; simpl;
    try (split; [discriminate|discriminate]); try tauto.
  rewrite andb_true_iff, IH. split.
  - intros [Hx ->]. apply Byte.byte_dec_bl in Hx. now subst.
  - intros [= -> ->]. split; [apply byte_eqb_refl|reflexivity].
Qed.

Lemma nibble_values_in (n : Z) : 0 <= n < 16 -> In n nibble_values.
Proof. intro Hn. unfold nibble_values. simpl. lia. Qed.

Lemma four_nibbles_agree_all :
  forallb (fun a => forallb (fun b => forallb (fun c => forallb (fun d =>
    four_nibbles_agree a b c d)
    nibble_values) nibble_values) nibble_values) nibble_values = true.
Proof. vm_compute. reflexivity. Qed.

Lemma four_nibbles (a b c d : Z) :
  0 <= a < 16 -> 0 <= b < 16 -> 0 <= c < 16 -> 0 <= d < 16 ->
  let v := ((a * 16 + b) * 16 + c) * 16 + d in
  let s := map hex_upper [a; b; c; d] in
  sprintf_04X v = s /\ forallb is_upper_hex_digit s = true /\
  hex_number s = Some v.
Proof.
  intros Ha Hb Hc Hd v s.
  pose proof four_nibbles_agree_all as Hall.
  rewrite forallb_forall in Hall.
  specialize (Hall a (nibble_values_in a Ha)).
  rewrite forallb_forall in Hall.
  specialize (Hall b (nibble_values_in b Hb)).
  rewrite forallb_forall in Hall.
  specialize (Hall c (nibble_values_in c Hc)).
  rewrite forallb_forall in Hall.
  specialize (Hall d (nibble_values_in d Hd)).
  unfold four_nibbles_agree in Hall. fold v s in Hall.
  apply andb_prop in Hall. destruct Hall as [Hall Hnum].
  apply andb_prop in Hall. destruct Hall as [Hprint Hup].
  apply bytes_eqb_eq in Hprint.
  repeat split; try assumption.
  destruct (hex_number s) as [w|]; [|discriminate].
  apply Z.eqb_eq in Hnum. now subst.
Qed.

Lemma sprintf_04X_reads_back (v : Z) :
  0 <= v < 65536 ->
  length (sprintf_04X v) = 4%nat /\
  forallb is_upper_hex_digit (sprintf_04X v) = true /\
  hex_number (sprintf_04X v) = Some v.
Proof.
  intro Hv.
  pose proof (Z.div_mod v 16 ltac:(lia)) as E0.
  pose proof (Z.mod_pos_bound v 16 ltac:(lia)) as R0.
  pose proof (Z.div_mod (v / 16) 16 ltac:(lia)) as E1.
  pose proof (Z.mod_pos_bound (v / 16) 16 ltac:(lia)) as R1.
  pose proof (Z.div_mod (v / 16 / 16) 16 ltac:(lia)) as E2.
  pose proof (Z.mod_pos_bound (v / 16 / 16) 16 ltac:(lia)) as R2.
  destruct (four_nibbles (v / 16 / 16 / 16) ((v / 16 / 16) mod 16)
              ((v / 16) mod 16) (v mod 16)) as (Hp & Hu & Hn);
    try lia.
  replace ((((v / 16 / 16 / 16) * 16 + (v / 16 / 16) mod 16) * 16
            + (v / 16) mod 16) * 16 + v mod 16) with v in * by lia.
  rewrite Hp. repeat split; assumption.
Qed.

Lemma upper_hex_digit_nibble (b : byte) :
  is_upper_hex_digit b = true ->
  exists n, 0 <= n < 16 /\ b = hex_upper n.
Proof.
  intro Hb.
  exists (match hex_value b with Some n => n | None => 0 end).
  destruct b; try discriminate Hb; vm_compute; intuition congruence.
Qed.

(** Four upper-case digits are what [%04X] prints for their value. *)
Lemma upper_hex_prints_back (c : list byte) :
  length c = 4%nat -> forallb is_upper_hex_digit c = true ->
  exists v, 0 <= v < 65536 /\ hex_number c = Some v /\ sprintf_04X v = c.
Proof.
  intros Hlen Hup.
  destruct c as [|a [|b [|c [|d [|e t]]]]]; try discriminate Hlen.
  simpl in Hup.
  repeat (apply andb_prop in Hup; destruct Hup as [?H Hup]).
  destruct (upper_hex_digit_nibble a H) as (na & Ra & ->).
  destruct (upper_hex_digit_nibble b H0) as (nb & Rb & ->).
  destruct (upper_hex_digit_nibble c H1) as (nc & Rc & ->).
  destruct (upper_hex_digit_nibble d H2) as (nd & Rd & ->).
  destruct (four_nibbles na nb nc nd Ra Rb Rc Rd) as (Hp & Hu & Hn).
  exists (((na * 16 + nb) * 16 + nc) * 16 + nd).
  repeat split; try assumption; lia.
Qed.

Lemma upper_hex_not_nul (c : list byte) :
  forallb is_upper_hex_digit c = true -> ~ In x00 c.
Proof.
  intros Hup Hin. rewrite forallb_forall in Hup.
  specialize (Hup _ Hin). discriminate Hup.
Qed.

(** The printed CRC is compared with the received one as text. *)
Lemma strncmp_eq_four (a b : list byte) :
  length a = 4%nat -> length b = 4%nat -> ~ In x00 a ->
  strncmp_eq (a ++ [x00]) (b ++ [x00]) 4 = true <-> a = b.
Proof.
  intros Ha Hb Hn.
  destruct a as [|a0 [|a1 [|a2 [|a3 [|a4 a]]]]]; try discriminate Ha.
  destruct b as [|b0 [|b1 [|b2 [|b3 [|b4 b]]]]]; try discriminate Hb.
  assert (is_nul a0 = false /\ is_nul a1 = false /\
          is_nul a2 = false /\ is_nul a3 = false) as (N0 & N1 & N2 & N3).
  { repeat split; apply is_nul_false; intro; subst; apply Hn; simpl; tauto. }
  simpl. rewrite N0, N1, N2, N3.
  split.
  - intro Hc.
    destruct (Byte.eqb a0 b0) eqn:E0; [|discriminate].
    destruct (Byte.eqb a1 b1) eqn:E1; [|discriminate].
    destruct (Byte.eqb a2 b2) eqn:E2; [|discriminate].
    destruct (Byte.eqb a3 b3) eqn:E3; [|discriminate].
    apply Byte.byte_dec_bl in E0, E1, E2, E3. now subst.
  - intros [= -> -> -> ->]. now rewrite !byte_eqb_refl.
Qed.

Lemma strncpy_nul_free (c rest : list byte) :
  ~ In x00 c -> strncpy (c ++ rest) (length c) = c.
Proof.
  induction c as [|b c IH]; intro Hn; simpl.
  - reflexivity.
  - apply nul_free_cons in Hn. destruct Hn as [Hb Hc].
    rewrite Hb. now rewrite IH.
Qed.

(** ** The serial engine *)

(** The fields of a state built by the setters. *)
Ltac fields :=
  cbn [set_buffer set_pointer set_port set_IsTracking set_TrackStrayMarkers
       set_StrayMarkers set_heap set_Tools set_PortToTool set_ToolNames
       set_Events
       Name mSerialBuffer mSerialBufferPointer mSerialPort mIsTracking
       mTrackStrayMarkers mStrayMarkers heap mTools mPortToTool mToolNames
       Events written incoming andb negb] in *.

Section EngineFacts.
Context {scalar : Type} `{Numeric scalar} `{Header}.

Local Open Scope nat_scope.

Lemma store_at (a rest : list byte) (c b : byte) :
  store (a ++ c :: rest) (length a) b = Some (a ++ b :: rest).
Proof.
  induction a as [|x a IH]; simpl.
  - reflexivity.
  - now rewrite IH.
Qed.

Lemma poke_at (d : Driver scalar) (a rest : list byte) (c b : byte) :
  mSerialBuffer d = a ++ c :: rest ->
  poke (length a) b d = Ok tt (set_buffer (a ++ b :: rest) d).
Proof.
  intro Hbuf. unfold poke. now rewrite Hbuf, store_at.
Qed.

(** Bytes written one after the other from an offset inside the buffer
    replace as many bytes of it. *)
Lemma poke_all_at (bs a rest : list byte) (d : Driver scalar) :
  mSerialBuffer d = a ++ rest -> length bs <= length rest ->
  poke_all (length a) bs d
  = Ok tt (set_buffer (a ++ bs ++ skipn (length bs) rest) d).
Proof.
  revert a rest d. induction bs as [|b bs IH]; intros a rest d Hbuf Hlen.
  - simpl. unfold ret. rewrite <- Hbuf. now destruct d.
  - destruct rest as [|c rest]; [simpl in Hlen; lia|].
    simpl poke_all. unfold bind.
    rewrite (poke_at d a rest c b Hbuf).
    replace (S (length a)) with (length (a ++ [b]))
      by (rewrite length_app; simpl; lia).
    rewrite (IH (a ++ [b]) rest).
    + simpl. rewrite <- !app_assoc. simpl. now destruct d.
    + simpl. now rewrite <- app_assoc.
    + simpl in Hlen. lia.
Qed.

Lemma poke_all_start (bs : list byte) (d : Driver scalar) :
  length bs <= length (mSerialBuffer d) ->
  poke_all 0 bs d
  = Ok tt (set_buffer (bs ++ skipn (length bs) (mSerialBuffer d)) d).
Proof.
  intro Hlen. now apply (poke_all_at bs [] (mSerialBuffer d) d).
Qed.

(** [ResponseCheckCRC] on a buffer that holds a payload, four characters
    and the carriage return, the cursor behind them. *)
Lemma ResponseCheckCRC_run (d : Driver scalar) (payload c tail : list byte) :
  mSerialBuffer d = payload ++ c ++ "013"%byte :: tail ->
  mSerialBufferPointer d = length payload + 5 ->
  length c = 4 -> ~ In x00 c -> ~ In x00 payload ->
  let d1 := set_pointer (length payload + 1)
              (set_buffer (payload ++ x00 :: tl c ++ "013"%byte :: tail) d) in
  ResponseCheckCRC d
  = if bytes_eqb c (sprintf_04X (ComputeCRC payload))
    then Ok true d1
    else Ok false
           (set_Events
              (Events d ++ [LogError "ResponseCheckCRC: received, but computed"])
              d1).
Proof.
  intros Hbuf Hptr Hlen Hc Hp d1.
  destruct c as [|c0 c']; [discriminate Hlen|].
  unfold ResponseCheckCRC, bind, gets, crash, modify, emit, ret.
  rewrite Hptr.
  replace (length payload + 5 <? CRC_SIZE + 1) with false
    by (symmetry; apply Nat.ltb_ge; unfold CRC_SIZE; lia).
  replace (length payload + 5 - (CRC_SIZE + 1)) with (length payload)
    by (unfold CRC_SIZE; lia).
  rewrite (poke_at d payload (c' ++ "013"%byte :: tail) c0 x00)
    by (rewrite Hbuf; reflexivity).
  cbn [mSerialBuffer set_buffer set_pointer].
  rewrite Hbuf.
  rewrite skipn_app, Nat.sub_diag, skipn_all by lia.
  cbn [skipn app]. change CRC_SIZE with 4.
  assert (strncpy (c0 :: c' ++ "013"%byte :: tail) 4 = c0 :: c') as Hcpy.
  { change (c0 :: c' ++ "013"%byte :: tail)
      with ((c0 :: c') ++ "013"%byte :: tail).
    rewrite <- Hlen. now apply strncpy_nul_free. }
  rewrite Hcpy.
  rewrite ComputeCRC_terminated by assumption.
  destruct (sprintf_04X_reads_back (ComputeCRC payload) (ComputeCRC_range _))
    as (Hl4 & Hup & Hnum).
  replace (firstn 4 (sprintf_04X (ComputeCRC payload)))
    with (sprintf_04X (ComputeCRC payload))
    by (symmetry; apply firstn_all2; rewrite Hl4; lia).
  pose proof (strncmp_eq_four (c0 :: c') (sprintf_04X (ComputeCRC payload))
                Hlen Hl4 Hc) as Hcmp.
  destruct (bytes_eqb (c0 :: c') (sprintf_04X (ComputeCRC payload))) eqn:E.
  - apply bytes_eqb_eq in E. apply Hcmp in E.
    rewrite E. simpl. subst d1.
    rewrite Nat.add_comm. reflexivity.
  - assert (strncmp_eq ((c0 :: c') ++ [x00])
              (sprintf_04X (ComputeCRC payload) ++ [x00]) 4 = false) as E'.
    { destruct (strncmp_eq _ _ 4) eqn:E2; [|reflexivity].
      apply proj1 in Hcmp. specialize (Hcmp eq_refl).
      apply bytes_eqb_eq in Hcmp. congruence. }
    rewrite E'. simpl. subst d1.
    rewrite Nat.add_comm. reflexivity.
Qed.


Lemma strncpy_whole (c : list byte) :
  ~ In x00 c -> strncpy c (length c) = c.
Proof.
  intro Hn. rewrite <- (app_nil_r c) at 1. now apply strncpy_nul_free.
Qed.

Lemma strlen_nul_free (c : list byte) : ~ In x00 c -> strlen c = length c.
Proof. intro Hn. unfold strlen. now rewrite cstr_nul_free. Qed.

(** [CommandSend(command)] for a command that fits in the buffer: the
    command and a carriage return go out on the link. *)
Lemma CommandSend_str_run (command : list byte) (d : Driver scalar) :
  ~ In x00 command ->
  length command + 2 <= length (mSerialBuffer d) ->
  CommandSend_str command d
  = Ok true
      (set_port (mk_port (written (mSerialPort d) ++ [command ++ ["013"%byte]])
                         (incoming (mSerialPort d)))
         (set_pointer (length command + 2)
            (set_buffer (command ++ "013"%byte :: x00
                           :: skipn (length command + 2) (mSerialBuffer d))
               d))).
Proof.
  intros Hn Hlen.
  destruct d as [nm buf ptr port trk stray sm hp tools p2t names evs].
  cbn [mSerialBuffer mSerialPort] in *.
  unfold CommandSend_str, CommandInitialize, CommandAppend, CommandSend,
    CommandAppend_char, Write, advance, bind, gets, modify, ret.
  cbn [set_pointer mSerialBufferPointer mSerialBuffer Name mSerialPort
       mIsTracking mTrackStrayMarkers mStrayMarkers heap mTools mPortToTool
       mToolNames Events].
  rewrite strlen_nul_free, strncpy_whole by assumption.
  rewrite poke_all_start by (simpl; lia).
  cbn [set_buffer set_pointer mSerialBufferPointer mSerialBuffer Name
       mSerialPort mIsTracking mTrackStrayMarkers mStrayMarkers heap mTools
       mPortToTool mToolNames Events Nat.add].
  destruct (skipn (length command) buf) as [|c0 [|c1 rest]] eqn:Hskip.
  { apply (f_equal (@length byte)) in Hskip.
    rewrite length_skipn in Hskip. simpl in Hskip. lia. }
  { apply (f_equal (@length byte)) in Hskip.
    rewrite length_skipn in Hskip. simpl in Hskip. lia. }
  assert (skipn (length command + 2) buf = rest) as Hrest.
  { rewrite Nat.add_comm, <- skipn_skipn, Hskip. reflexivity. }
  rewrite Hrest.
  erewrite (poke_at _ command (c1 :: rest) c0 "013"%byte) by reflexivity.
  cbn [set_buffer set_pointer mSerialBufferPointer mSerialBuffer Name
       mSerialPort mIsTracking mTrackStrayMarkers mStrayMarkers heap mTools
       mPortToTool mToolNames Events].
  replace (length command + 1) with (length (command ++ ["013"%byte]))
    by (rewrite length_app; reflexivity).
  erewrite (poke_at _ (command ++ ["013"%byte]) rest c1 x00)
    by (cbn [mSerialBuffer]; rewrite <- app_assoc; reflexivity).
  cbn [set_buffer set_pointer set_port mSerialBufferPointer mSerialBuffer
       Name mSerialPort mIsTracking mTrackStrayMarkers mStrayMarkers heap
       mTools mPortToTool mToolNames Events].
  assert (strlen ((command ++ ["013"%byte]) ++ x00 :: rest)
          = length (command ++ ["013"%byte])) as Hstr.
  { unfold strlen. rewrite cstr_terminated; [reflexivity|].
    intro Hin. apply in_app_or in Hin. destruct Hin as [Hin|[Hin|[]]];
      [now apply Hn|discriminate Hin]. }
  rewrite Hstr.
  rewrite firstn_app, firstn_all, Nat.sub_diag. cbn [firstn].
  rewrite app_nil_r, Nat.eqb_refl. cbn [negb].
  rewrite length_app. cbn [length].
  rewrite <- app_assoc. cbn [app].
  replace (length command + 1 + 1) with (length command + 2) by lia.
  reflexivity.
Qed.


Lemma framed_shape (payload : list byte) :
  framed payload
  = payload ++ sprintf_04X (ComputeCRC payload) ++ ["013"%byte].
Proof. reflexivity. Qed.

(** [ResponseRead] when the next reply is a payload, four characters and a
    carriage return that fit in the buffer: the reply is stored at the
    start of the buffer and its CRC is checked. *)
Lemma ResponseRead_run (d : Driver scalar) (payload c later : list byte)
  (queue : list (list byte)) :
  incoming (mSerialPort d) = (payload ++ c ++ ["013"%byte]) :: queue ->
  length payload + 5 <= length (mSerialBuffer d) ->
  length c = 4 ->
  ResponseRead d
  = ResponseCheckCRC
      (set_pointer (length payload + 5)
         (set_buffer (payload ++ c ++ "013"%byte
                        :: skipn (length payload + 5) (mSerialBuffer d))
            (set_port (mk_port (written (mSerialPort d)) queue) d))).
Proof.
  intros Hin Hcap Hc.
  destruct d as [nm buf ptr port trk stray sm hp tools p2t names evs].
  cbn [mSerialBuffer mSerialPort] in *.
  assert (length (payload ++ c ++ ["013"%byte]) = length payload + 5) as Hlen
    by (rewrite !length_app, Hc; simpl; lia).
  unfold ResponseRead, Read, advance, bind, get, gets, modify, ret.
  cbn [set_pointer set_port mSerialBufferPointer mSerialBuffer Name
       mSerialPort mIsTracking mTrackStrayMarkers mStrayMarkers heap mTools
       mPortToTool mToolNames Events].
  rewrite Hin.
  unfold GetSerialBufferAvailableSize, GetSerialBufferSize.
  cbn [set_pointer set_port mSerialBufferPointer mSerialBuffer Name
       mSerialPort mIsTracking mTrackStrayMarkers mStrayMarkers heap mTools
       mPortToTool mToolNames Events].
  rewrite Nat.sub_0_r.
  rewrite firstn_all2 by lia.
  rewrite poke_all_start by (simpl; lia).
  rewrite Hlen.
  cbn [set_buffer set_pointer set_port mSerialBufferPointer mSerialBuffer
       Name mSerialPort mIsTracking mTrackStrayMarkers mStrayMarkers heap
       mTools mPortToTool mToolNames Events].
  replace (0 <? length payload + 5) with true
    by (symmetry; apply Nat.ltb_lt; lia).
  fields. cbn [Nat.add].
  unfold peek. fields.
  replace (length payload + 5 - 1) with (length (payload ++ c)) 
    by (rewrite length_app; lia).
  rewrite <- !app_assoc.
  rewrite (app_assoc payload c), app_nth2, Nat.sub_diag by lia.
  cbn [nth app]. rewrite byte_eqb_refl.
  replace (0 <? length payload + 5) with true
    by (symmetry; apply Nat.ltb_lt; lia).
  cbn [andb negb].
  unfold set_pointer, set_buffer, set_port. fields.
  rewrite <- app_assoc.
  destruct (ResponseCheckCRC _) as [[|] s|f]; reflexivity.
Qed.

Lemma ResponseRead_timeout (d : Driver scalar) :
  incoming (mSerialPort d) = [] ->
  ResponseRead d
  = Ok false
      (set_Events (Events d ++ [LogError "ResponseRead: read command timed out"])
         (set_pointer 0 d)).
Proof.
  intro Hin.
  destruct d as [nm buf ptr port trk stray sm hp tools p2t names evs].
  destruct port as [out queue]. cbn in Hin. subst queue.
  reflexivity.
Qed.

(** A reply that carries the CRC of its payload is accepted; the payload
    is left in the buffer as a C string. *)
Lemma ResponseRead_framed (d : Driver scalar) (payload : list byte)
  (queue : list (list byte)) :
  incoming (mSerialPort d) = framed payload :: queue ->
  length payload + 5 <= length (mSerialBuffer d) ->
  ~ In x00 payload ->
  ResponseRead d
  = Ok true
      (set_pointer (length payload + 1)
         (set_buffer (payload ++ x00 :: tl (sprintf_04X (ComputeCRC payload))
                        ++ "013"%byte
                        :: skipn (length payload + 5) (mSerialBuffer d))
            (set_port (mk_port (written (mSerialPort d)) queue) d))).
Proof.
  intros Hin Hcap Hn.
  destruct (sprintf_04X_reads_back (ComputeCRC payload) (ComputeCRC_range _))
    as (Hl4 & Hup & Hnum).
  rewrite framed_shape in Hin.
  rewrite (ResponseRead_run d payload _ [] queue Hin Hcap Hl4).
  erewrite ResponseCheckCRC_run; try reflexivity; try assumption.
  - replace (bytes_eqb _ _) with true
      by (symmetry; now apply bytes_eqb_eq).
    now destruct d.
  - now apply upper_hex_not_nul.
Qed.

Lemma strncmp_eq_terminated (p rest : list byte) (n : nat) :
  strncmp_eq p (p ++ x00 :: rest) n = true.
Proof.
  revert n. induction p as [|b p IH]; intros [|n]; simpl; try reflexivity.
  rewrite byte_eqb_refl. destruct (is_nul b); [reflexivity|apply IH].
Qed.

(** The expected message is found when the reply carries exactly it,
    whatever length the comparison is given. *)
Lemma ResponseRead_expect_framed (d : Driver scalar) (expected : list byte)
  (queue : list (list byte)) :
  incoming (mSerialPort d) = framed expected :: queue ->
  length expected + 5 <= length (mSerialBuffer d) ->
  ~ In x00 expected ->
  ResponseRead_expect expected d
  = Ok true
      (set_pointer (length expected + 1)
         (set_buffer (expected ++ x00 :: tl (sprintf_04X (ComputeCRC expected))
                        ++ "013"%byte
                        :: skipn (length expected + 5) (mSerialBuffer d))
            (set_port (mk_port (written (mSerialPort d)) queue) d))).
Proof.
  intros Hin Hcap Hn.
  unfold ResponseRead_expect, bind.
  rewrite (ResponseRead_framed d expected queue Hin Hcap Hn).
  cbn [negb]. unfold get.
  cbn [set_buffer set_pointer set_port mSerialBufferPointer mSerialBuffer].
  rewrite strncmp_eq_terminated. reflexivity.
Qed.

End EngineFacts.

(* ------------------------------------------------------------------ *)
(** *** The CRC check of a reply *)

(** C2, as stated, fails: the four hexadecimal digits [a896] declare the
    CRC of the payload [OKAY], and the check does not succeed. *)
Lemma ResponseCheckCRC_lower_case_digits :
  forallb is_hex_digit (lit "a896") = true /\
  hex_number (lit "a896") = Some (ComputeCRC (lit "OKAY")) /\
  returned (ResponseCheckCRC lower_case_reply) = Some false.
Proof. vm_compute. repeat split. Qed.

Section CheckCRC.
Context {scalar : Type} `{Numeric scalar} `{Header}.

Local Open Scope nat_scope.

(** C2, amended.  For every received buffer that holds a payload without
    a zero byte, four upper-case hexadecimal digits and a carriage return,
    the cursor behind them, [ResponseCheckCRC] succeeds if and only if the
    CRC computed over the payload is the value the four digits declare.
    In both cases the first of the four digits is replaced by a zero
    byte, so that the buffer, read as a C string, holds exactly the
    payload, and the cursor stands behind that zero byte. *)
Theorem ResponseCheckCRC_upper_case_digits
  (d : Driver scalar) (payload c tail : list byte) :
  mSerialBuffer d = payload ++ c ++ "013"%byte :: tail ->
  mSerialBufferPointer d = length payload + 5 ->
  length c = 4 ->
  forallb is_upper_hex_digit c = true ->
  ~ In x00 payload ->
  exists ok d',
    ResponseCheckCRC d = Ok ok d' /\
    (ok = true <-> hex_number c = Some (ComputeCRC payload)) /\
    cstr (mSerialBuffer d') = payload /\
    mSerialBuffer d' = payload ++ x00 :: tl c ++ "013"%byte :: tail /\
    mSerialBufferPointer d' = length payload + 1.
Proof.
  intros Hbuf Hptr Hlen Hup Hp.
  pose proof (upper_hex_not_nul c Hup) as Hc.
  rewrite (ResponseCheckCRC_run d payload c tail Hbuf Hptr Hlen Hc Hp).
  destruct (upper_hex_prints_back c Hlen Hup) as (v & Hv & Hnum & Hprint).
  destruct (sprintf_04X_reads_back (ComputeCRC payload) (ComputeCRC_range _))
    as (Hl4 & Hup' & Hnum').
  destruct (bytes_eqb c (sprintf_04X (ComputeCRC payload))) eqn:E.
  - apply bytes_eqb_eq in E. eexists; eexists. split; [reflexivity|].
    fields. repeat split.
    + intros _. now rewrite E.
    + now apply cstr_terminated.
  - eexists; eexists. split; [reflexivity|].
    fields. repeat split; try discriminate.
    + intro Hcrc. rewrite Hnum in Hcrc. injection Hcrc as ->.
      rewrite Hprint in E.
      assert (bytes_eqb c c = true) as Hcc by now apply bytes_eqb_eq.
      congruence.
    + now apply cstr_terminated.
Qed.

End CheckCRC.

Lemma ResponseCheckCRC_upper_case_digits_witness :
  exists ok d',
    ResponseCheckCRC okay_reply = Ok ok d' /\
    (ok = true <-> hex_number (lit "A896") = Some (ComputeCRC (lit "OKAY"))) /\
    cstr (mSerialBuffer d') = lit "OKAY" /\
    mSerialBuffer d'
    = lit "OKAY" ++ x00 :: tl (lit "A896") ++ "013"%byte :: repeat x00 7 /\
    mSerialBufferPointer d' = (length (lit "OKAY") + 1)%nat.
Proof.
  apply (ResponseCheckCRC_upper_case_digits okay_reply (lit "OKAY")
           (lit "A896") (repeat x00 7)).
  - reflexivity.
  - reflexivity.
  - reflexivity.
  - reflexivity.
  - simpl. intuition discriminate.
Defined.

(* ------------------------------------------------------------------ *)
(** *** What the serial engine leaves alone *)

Section Quiet.
Context {scalar : Type} `{Numeric scalar} `{Header}.

Local Open Scope nat_scope.
Local Open Scope driver_scope.

(** The tracking flag, the [Tracking] events and the size of the serial
    buffer are the same in both states. *)
Definition quiet (d d' : Driver scalar) : Prop :=
  mIsTracking d' = mIsTracking d /\
  tracking_events (Events d') = tracking_events (Events d) /\
  length (mSerialBuffer d') = length (mSerialBuffer d).

(** A computation that, when it returns, has been [quiet] and has taken
    [k] replies off the link (or all of them, if fewer were left). *)
Definition keeps {A} (k : nat) (m : M (Driver scalar) A) : Prop :=
  forall d a d',
    m d = Ok a d' ->
    quiet d d' /\
    incoming (mSerialPort d') = skipn k (incoming (mSerialPort d)).

Lemma quiet_refl (d : Driver scalar) : quiet d d.
Proof. repeat split. Qed.

Lemma quiet_trans (d1 d2 d3 : Driver scalar) :
  quiet d1 d2 -> quiet d2 d3 -> quiet d1 d3.
Proof.
  intros (A1 & B1 & C1) (A2 & B2 & C2). repeat split; congruence.
Qed.

Lemma keeps_ret {A} (a : A) : keeps 0 (ret a).
Proof.
  intros d a' d' [= <- <-]. split; [apply quiet_refl|reflexivity].
Qed.

Lemma keeps_crash {A} (k : nat) (f : Fault) :
  keeps (A := A) k (crash f).
Proof. intros d a d' Hrun. discriminate Hrun. Qed.

Lemma keeps_get : keeps 0 get.
Proof.
  intros d a d' [= <- <-]. split; [apply quiet_refl|reflexivity].
Qed.

Lemma keeps_gets {A} (f : Driver scalar -> A) : keeps 0 (gets f).
Proof.
  intros d a d' [= <- <-]. split; [apply quiet_refl|reflexivity].
Qed.

Lemma keeps_bind {A B} (a b c : nat) (m : M (Driver scalar) A)
  (k : A -> M (Driver scalar) B) :
  keeps a m -> (forall x, keeps b (k x)) -> c = a + b ->
  keeps c (bind m k).
Proof.
  intros Hm Hk -> d r d' Hrun. unfold bind in Hrun.
  destruct (m d) as [x d1|f] eqn:E; [|discriminate].
  destruct (Hm _ _ _ E) as [Q1 I1].
  destruct (Hk x _ _ _ Hrun) as [Q2 I2].
  split; [now apply (quiet_trans d d1 d')|].
  rewrite I2, I1, skipn_skipn. f_equal. lia.
Qed.

Lemma keeps_modify (f : Driver scalar -> Driver scalar) :
  (forall d, quiet d (f d) /\
             incoming (mSerialPort (f d)) = incoming (mSerialPort d)) ->
  keeps 0 (modify f).
Proof.
  intros Hf d a d' Hrun. unfold modify in Hrun.
  inversion Hrun; subst. apply Hf.
Qed.

Lemma keeps_set_pointer (p : Driver scalar -> nat) :
  keeps 0 (modify (fun d => set_pointer (p d) d)).
Proof. apply keeps_modify. intro d. repeat split. Qed.

Definition is_tracking_event (e : Event) : bool :=
  match e with EvTracking _ => true | _ => false end.

Lemma tracking_events_app (a b : list Event) :
  tracking_events (a ++ b) = tracking_events a ++ tracking_events b.
Proof. unfold tracking_events. apply flat_map_app. Qed.

Lemma keeps_emit (e : Event) :
  is_tracking_event e = false -> keeps 0 (emit e).
Proof.
  intro He. apply keeps_modify. intro d. repeat split. fields.
  rewrite tracking_events_app. destruct e; try discriminate He;
    simpl; now rewrite app_nil_r.
Qed.

Lemma store_length (mem mem' : list byte) (i : nat) (b : byte) :
  store mem i b = Some mem' -> length mem' = length mem.
Proof.
  revert i mem'. induction mem as [|c mem IH]; intros [|i] mem' Hs;
    simpl in Hs; try discriminate.
  - now injection Hs as <-.
  - destruct (store mem i b) as [m|] eqn:E; [|discriminate].
    injection Hs as <-. simpl. f_equal. now apply (IH i).
Qed.

Lemma keeps_poke (i : nat) (b : byte) : keeps 0 (poke i b).
Proof.
  intros d a d' Hrun. unfold poke in Hrun.
  destruct (store (mSerialBuffer d) i b) as [buf|] eqn:E; [|discriminate].
  injection Hrun as <- <-. apply store_length in E.
  repeat split. exact E.
Qed.

Lemma keeps_poke_all (bs : list byte) (i : nat) : keeps 0 (poke_all i bs).
Proof.
  revert i. induction bs as [|b bs IH]; intro i; simpl.
  - apply keeps_ret.
  - eapply keeps_bind; [apply keeps_poke|intros; apply IH|reflexivity].
Qed.

Lemma keeps_advance (n : nat) : keeps 0 (advance n).
Proof. apply keeps_modify. intro d. repeat split. Qed.

Lemma keeps_CommandInitialize : keeps 0 CommandInitialize.
Proof. apply keeps_modify. intro d. repeat split. Qed.

Lemma keeps_CommandAppend_char (c : byte) : keeps 0 (CommandAppend_char c).
Proof.
  unfold CommandAppend_char.
  eapply keeps_bind; [apply keeps_gets|intro p|reflexivity].
  eapply keeps_bind; [apply keeps_poke|intros _; apply keeps_advance|].
  reflexivity.
Qed.

Lemma keeps_CommandAppend (c : list byte) : keeps 0 (CommandAppend c).
Proof.
  unfold CommandAppend.
  eapply keeps_bind; [apply keeps_gets|intro p|reflexivity].
  eapply keeps_bind; [apply keeps_poke_all|intros _; apply keeps_advance|].
  reflexivity.
Qed.

Lemma keeps_Write (bytes : list byte) : keeps 0 (Write bytes).
Proof.
  unfold Write.
  eapply keeps_bind;
    [apply keeps_modify; intro d; repeat split
    |intros _; apply keeps_ret|reflexivity].
Qed.

Lemma keeps_CommandSend : keeps 0 CommandSend.
Proof.
  unfold CommandSend.
  eapply keeps_bind; [apply keeps_CommandAppend_char|intros _|reflexivity].
  eapply keeps_bind; [apply keeps_CommandAppend_char|intros _|reflexivity].
  eapply keeps_bind; [apply keeps_gets|intro buf|reflexivity].
  eapply keeps_bind; [apply keeps_Write|intro n|reflexivity].
  destruct (negb _).
  - eapply keeps_bind; [now apply keeps_emit|intros _; apply keeps_ret|].
    reflexivity.
  - apply keeps_ret.
Qed.

Lemma keeps_CommandSend_str (c : list byte) : keeps 0 (CommandSend_str c).
Proof.
  unfold CommandSend_str.
  eapply keeps_bind; [apply keeps_CommandInitialize|intros _|reflexivity].
  eapply keeps_bind; [apply keeps_CommandAppend|intros _|reflexivity].
  apply keeps_CommandSend.
Qed.

Lemma keeps_ResponseCheckCRC : keeps 0 ResponseCheckCRC.
Proof.
  unfold ResponseCheckCRC.
  eapply keeps_bind; [apply keeps_gets|intro p|reflexivity].
  destruct (p <? CRC_SIZE + 1); [apply keeps_crash|].
  eapply keeps_bind; [apply keeps_gets|intro buf|reflexivity].
  eapply keeps_bind; [apply keeps_poke|intros _|reflexivity].
  eapply keeps_bind;
    [apply keeps_modify; intro d; repeat split|intros _|reflexivity].
  eapply keeps_bind; [apply keeps_gets|intro buf'|reflexivity].
  destruct (negb _).
  - eapply keeps_bind; [now apply keeps_emit|intros _; apply keeps_ret|].
    reflexivity.
  - apply keeps_ret.
Qed.

Lemma keeps_Read : keeps 1 Read.
Proof.
  intros d a d' Hrun. unfold Read, bind, get in Hrun.
  destruct (incoming (mSerialPort d)) as [|reply later] eqn:Hin.
  - injection Hrun as <- <-. rewrite Hin. split; [apply quiet_refl|reflexivity].
  - unfold modify in Hrun.
    match type of Hrun with
    | match poke_all ?i ?bs ?s with _ => _ end = _ =>
        destruct (poke_all i bs s) as [u s'|f] eqn:E; [|discriminate];
        destruct (keeps_poke_all bs i _ _ _ E) as [Q I]
    end.
    injection Hrun as <- <-.
    split.
    + destruct Q as (Q1 & Q2 & Q3). repeat split; assumption.
    + rewrite I. reflexivity.
Qed.

Lemma keeps_ResponseRead : keeps 1 ResponseRead.
Proof.
  unfold ResponseRead.
  eapply keeps_bind;
    [apply keeps_modify; intro d; repeat split|intros _|reflexivity].
  eapply keeps_bind; [apply keeps_Read|intro n|reflexivity].
  eapply keeps_bind;
    [destruct (0 <? n); [apply keeps_advance|apply keeps_ret]
    |intros _|reflexivity].
  eapply keeps_bind; [apply keeps_get|intro d|reflexivity].
  destruct (negb _).
  - eapply keeps_bind; [now apply keeps_emit|intros _; apply keeps_ret|].
    reflexivity.
  - eapply keeps_bind; [apply keeps_ResponseCheckCRC|intro ok|reflexivity].
    destruct (negb ok); apply keeps_ret.
Qed.

Lemma keeps_ResponseRead_expect (e : list byte) :
  keeps 1 (ResponseRead_expect e).
Proof.
  unfold ResponseRead_expect.
  eapply keeps_bind; [apply keeps_ResponseRead|intro ok|reflexivity].
  destruct (negb ok).
  - eapply keeps_bind; [now apply keeps_emit|intros _; apply keeps_ret|].
    reflexivity.
  - eapply keeps_bind; [apply keeps_get|intro d|reflexivity].
    destruct (negb _).
    + eapply keeps_bind; [now apply keeps_emit|intros _; apply keeps_ret|].
      reflexivity.
    + apply keeps_ret.
Qed.

End Quiet.

(* ------------------------------------------------------------------ *)
(** *** [ToggleTracking] *)

Section Toggle.
Context {scalar : Type} `{Numeric scalar} `{Header}.

Local Open Scope nat_scope.
Local Open Scope driver_scope.

Lemma toggle_command_nul_free (track : bool) :
  ~ In x00 (toggle_command track).
Proof. destruct track; simpl; intuition discriminate. Qed.

Lemma ToggleTracking_same (d : Driver scalar) (track : bool) :
  mIsTracking d = track -> ToggleTracking track d = Ok tt d.
Proof.
  intros <-. unfold ToggleTracking, bind, get.
  now rewrite Bool.eqb_reflx.
Qed.

(** [ToggleTracking] when the flag differs: the command goes out, then
    the answer is awaited. *)
Lemma ToggleTracking_differs (d : Driver scalar) (track : bool) :
  mIsTracking d <> track ->
  ToggleTracking track d
  = (CommandSend_str (toggle_command track) ;;;
     ok <- ResponseRead_expect (lit "OKAY") ;;
     (if ok then
        modify (set_IsTracking track) ;;;
        emit (EvTracking track) ;;;
        emit (toggle_status d track)
      else
        emit (SendError (Name d ++ lit (if track
                                        then ": failed to turn tracking on"
                                        else ": failed to turn tracking off"))))
     ;;; Sleep) d.
Proof.
  intro Hne. unfold ToggleTracking at 1. unfold bind at 1, get at 1.
  replace (Bool.eqb track (mIsTracking d)) with false.
  2:{ symmetry. apply Bool.eqb_false_iff. congruence. }
  unfold bind, toggle_status, toggle_command.
  destruct track.
  - destruct (CommandSend_str _ d) as [b d1|f]; [|reflexivity].
    destruct (ResponseRead_expect _ d1) as [[|] d2|f]; reflexivity.
  - destruct (CommandSend_str _ d) as [b d1|f]; [|reflexivity].
    destruct (ResponseRead_expect _ d1) as [[|] d2|f]; reflexivity.
Qed.


Lemma ToggleTracking_refused (d d1 d2 : Driver scalar) (track sent : bool) :
  mIsTracking d <> track ->
  CommandSend_str (toggle_command track) d = Ok sent d1 ->
  ResponseRead_expect (lit "OKAY") d1 = Ok false d2 ->
  exists d',
    ToggleTracking track d = Ok tt d' /\
    mIsTracking d' = mIsTracking d /\
    tracking_events (Events d') = tracking_events (Events d).
Proof.
  intros Hne Hsend Hread.
  rewrite (ToggleTracking_differs d track Hne).
  unfold bind. rewrite Hsend, Hread.
  eexists. split; [reflexivity|].
  destruct (keeps_CommandSend_str _ _ _ _ Hsend) as [(A1 & B1 & _) _].
  destruct (keeps_ResponseRead_expect _ _ _ _ Hread) as [(A2 & B2 & _) _].
  unfold Sleep, ret, emit, modify. fields.
  rewrite tracking_events_app. simpl. rewrite app_nil_r.
  split; congruence.
Qed.

Lemma ToggleTracking_accepted (d d1 d2 : Driver scalar) (track sent : bool) :
  mIsTracking d <> track ->
  CommandSend_str (toggle_command track) d = Ok sent d1 ->
  ResponseRead_expect (lit "OKAY") d1 = Ok true d2 ->
  exists d',
    ToggleTracking track d = Ok tt d' /\
    mIsTracking d' = track /\
    last_tracking_event (Events d') = Some track.
Proof.
  intros Hne Hsend Hread.
  rewrite (ToggleTracking_differs d track Hne).
  unfold bind. rewrite Hsend, Hread.
  eexists. split; [reflexivity|].
  unfold Sleep, ret, emit, modify. fields.
  split; [reflexivity|].
  unfold last_tracking_event.
  rewrite <- app_assoc, !tracking_events_app.
  change (tracking_events [EvTracking track]) with [track].
  replace (tracking_events [toggle_status d track]) with (@nil bool)
    by now destruct track.
  rewrite app_nil_r, map_app. cbn [map]. now rewrite last_last.
Qed.

(** [ToggleTracking] on a link that stays silent. *)
Lemma ToggleTracking_silent (d : Driver scalar) (track : bool) :
  mIsTracking d <> track ->
  11 <= length (mSerialBuffer d) ->
  incoming (mSerialPort d) = [] ->
  exists d',
    ToggleTracking track d = Ok tt d' /\
    mIsTracking d' = mIsTracking d /\
    tracking_events (Events d') = tracking_events (Events d).
Proof.
  intros Hne Hcap Hin.
  pose proof (CommandSend_str_run (toggle_command track) d
                (toggle_command_nul_free track)) as Hsend.
  match type of Hsend with
  | _ -> _ = Ok true ?s => set (d1 := s) in *
  end.
  assert (CommandSend_str (toggle_command track) d = Ok true d1) as Hsend'
    by (apply Hsend; destruct track; simpl; lia).
  eapply (ToggleTracking_refused d d1 _ track true Hne Hsend').
  unfold ResponseRead_expect, bind.
  rewrite ResponseRead_timeout by (subst d1; fields; exact Hin).
  reflexivity.
Qed.

(** [ToggleTracking] on a reply whose four characters are not the CRC of
    its payload. *)
Lemma ToggleTracking_bad_CRC (d : Driver scalar) (track : bool)
  (payload c : list byte) (queue : list (list byte)) :
  mIsTracking d <> track ->
  11 <= length (mSerialBuffer d) ->
  length payload + 5 <= length (mSerialBuffer d) ->
  incoming (mSerialPort d) = (payload ++ c ++ ["013"%byte]) :: queue ->
  length c = 4 ->
  ~ In x00 c ->
  ~ In x00 payload ->
  c <> sprintf_04X (ComputeCRC payload) ->
  exists d',
    ToggleTracking track d = Ok tt d' /\
    mIsTracking d' = mIsTracking d /\
    tracking_events (Events d') = tracking_events (Events d).
Proof.
  intros Hne Hcap Hfit Hin Hc Hnc Hnp Hbad.
  pose proof (CommandSend_str_run (toggle_command track) d
                (toggle_command_nul_free track)) as Hsend.
  match type of Hsend with
  | _ -> _ = Ok true ?s => set (d1 := s) in *
  end.
  assert (CommandSend_str (toggle_command track) d = Ok true d1) as Hsend'
    by (apply Hsend; destruct track; simpl; lia).
  destruct (keeps_CommandSend_str _ _ _ _ Hsend') as [(_ & _ & L1) I1].
  eapply (ToggleTracking_refused d d1 _ track true Hne Hsend').
  unfold ResponseRead_expect, bind.
  rewrite (ResponseRead_run d1 payload c [] queue)
    by (first [rewrite I1; exact Hin | rewrite L1; exact Hfit | exact Hc]).
  erewrite ResponseCheckCRC_run;
    [| fields; reflexivity | fields; reflexivity | assumption | assumption
     | assumption ].
  cbv zeta.
  replace (bytes_eqb c (sprintf_04X (ComputeCRC payload))) with false.
  2:{ symmetry. destruct (bytes_eqb _ _) eqn:E; [|reflexivity].
      apply bytes_eqb_eq in E. contradiction. }
  reflexivity.
Qed.

End Toggle.

(** *** What passes for the expected message *)

(** [strncmp(a, b, n) == 0] over the [n] characters of a text [p] in [b]:
    [a] starts with [p]. *)
Lemma strncmp_eq_prefix (a p rest : list byte) :
  ~ In x00 p ->
  strncmp_eq a (p ++ rest) (length p) = true <-> exists s, a = p ++ s.
Proof.
  revert a. induction p as [|c p IH]; intros a Hn.
  - split; [intros _; now exists a|reflexivity].
  - assert (c <> x00) as Hc by (intro E; apply Hn; now left).
    assert (~ In x00 p) as Hp by (intro E; apply Hn; now right).
    cbn [length strncmp_eq app hd tl].
    destruct a as [|x a]; cbn [hd tl].
    + destruct (Byte.eqb x00 c) eqn:E.
      * apply Byte.byte_dec_bl in E. congruence.
      * split; [discriminate|]. intros (s & Hs). discriminate Hs.
    + destruct (Byte.eqb x c) eqn:E.
      * apply Byte.byte_dec_bl in E. subst x.
        replace (is_nul c) with false
          by (symmetry; now apply is_nul_false).
        rewrite (IH a Hp). split.
        -- intros (s & ->). now exists s.
        -- intros (s & Hs). injection Hs as ->. now exists s.
      * split; [discriminate|]. intros (s & Hs). injection Hs as -> _.
        rewrite byte_eqb_refl in E. discriminate.
Qed.

Section TogglePrefix.
Context {scalar : Type}.

Local Open Scope nat_scope.
Local Open Scope driver_scope.

(** [ResponseRead(expectedMessage)] on a reply with the CRC of its
    payload, the string size of the buffer being the cursor less the
    terminator: the reply passes exactly when the expected message starts
    with the payload. *)
Lemma ResponseRead_expect_cursor (d : Driver scalar)
  (expected payload : list byte) (queue : list (list byte)) :
  incoming (mSerialPort d) = framed payload :: queue ->
  length payload + 5 <= length (mSerialBuffer d) ->
  ~ In x00 payload ->
  exists ok d',
    ResponseRead_expect (H0 := cursor_Header) expected d = Ok ok d' /\
    (ok = true <-> exists s, expected = payload ++ s).
Proof.
  intros Hin Hcap Hn.
  unfold ResponseRead_expect, bind.
  rewrite (ResponseRead_framed d payload queue Hin Hcap Hn).
  cbn [negb]. unfold get. fields.
  cbn [GetSerialBufferStringSize cursor_Header].
  replace (length payload + 1 - 1) with (length payload) by lia.
  pose proof (strncmp_eq_prefix expected payload
                (x00 :: tl (sprintf_04X (ComputeCRC payload)) ++
                 "013"%byte
                 :: skipn (length payload + 5) (mSerialBuffer d)) Hn) as Hp.
  destruct (strncmp_eq expected _ (length payload)).
  - eexists _, _. split; [reflexivity|]. split; [intros _|reflexivity].
    now apply Hp.
  - eexists _, _. split; [reflexivity|]. split; [discriminate|].
    intro Hs. apply Hp in Hs. discriminate Hs.
Qed.

(** [ToggleTracking] on a reply with the CRC of its payload: the flag is
    set and the event emitted exactly when [OKAY] starts with the payload,
    which is so for [OKAY] and also for [OKA], [OK], [O] and the empty
    payload. *)
Lemma ToggleTracking_by_reply (d : Driver scalar) (track : bool)
  (payload : list byte) (queue : list (list byte)) :
  mIsTracking d <> track ->
  11 <= length (mSerialBuffer d) ->
  length payload + 5 <= length (mSerialBuffer d) ->
  incoming (mSerialPort d) = framed payload :: queue ->
  ~ In x00 payload ->
  exists d',
    ToggleTracking (H0 := cursor_Header) track d = Ok tt d' /\
    ((exists s, lit "OKAY" = payload ++ s) ->
     mIsTracking d' = track /\
     last_tracking_event (Events d') = Some track) /\
    (~ (exists s, lit "OKAY" = payload ++ s) ->
     mIsTracking d' = mIsTracking d /\
     tracking_events (Events d') = tracking_events (Events d)).
Proof.
  intros Hne Hcap Hfit Hin Hn.
  pose proof (CommandSend_str_run (toggle_command track) d
                (toggle_command_nul_free track)) as Hsend.
  match type of Hsend with
  | _ -> _ = Ok true ?s => set (d1 := s) in *
  end.
  assert (CommandSend_str (toggle_command track) d = Ok true d1) as Hsend'
    by (apply Hsend; destruct track; simpl; lia).
  destruct (keeps_CommandSend_str _ _ _ _ Hsend') as [(_ & _ & L1) I1].
  destruct (ResponseRead_expect_cursor d1 (lit "OKAY") payload queue)
    as (ok & d2 & Hread & Hok);
    [rewrite I1; exact Hin|rewrite L1; exact Hfit|exact Hn|].
  destruct ok.
  - destruct (ToggleTracking_accepted (H0 := cursor_Header)
                d d1 d2 track true Hne Hsend' Hread)
      as (d' & Hrun & Hflag & Hev).
    exists d'. split; [exact Hrun|]. split; [now intros _|].
    intro Hnot. exfalso. apply Hnot. now apply Hok.
  - destruct (ToggleTracking_refused (H0 := cursor_Header)
                d d1 d2 track true Hne Hsend' Hread)
      as (d' & Hrun & Hflag & Hev).
    exists d'. split; [exact Hrun|]. split; [|now intros _].
    intro Hs. apply Hok in Hs. discriminate Hs.
Qed.

End TogglePrefix.

(** C5. [ToggleTracking] sets the tracking flag and emits the [Tracking]
    event on replies that are not [OKAY].  [ResponseRead("OKAY")] compares
    as many characters as the reply has (the string size of the buffer,
    here the cursor less the terminator), so a reply with a good CRC that
    is the start of [OKAY] passes: after [OK], and after the empty
    payload, [ToggleTracking(true)] has set the flag and emitted
    [Tracking(true)], and [ToggleTracking(false)] has cleared the flag and
    emitted [Tracking(false)].  The rest is as expected: [OKAY] sets the
    flag; [ERROR01], [OKAYX], a wrong CRC and a silent link leave the flag
    and emit no [Tracking] event; a call with the flag already at its
    target sends nothing and changes nothing. *)
Theorem ToggleTracking_accepts_start_of_OKAY :
  (* the start of OKAY is taken for OKAY *)
  option_map (fun d => (mIsTracking d, last_tracking_event (Events d)))
    (final (ToggleTracking true
              (with_incoming [framed (lit "OK")] idle_driver)))
  = Some (true, Some true) /\
  option_map (fun d => (mIsTracking d, last_tracking_event (Events d)))
    (final (ToggleTracking true (with_incoming [framed []] idle_driver)))
  = Some (true, Some true) /\
  option_map (fun d => (mIsTracking d, last_tracking_event (Events d)))
    (final (ToggleTracking false (busy_driver [framed (lit "OK")])))
  = Some (false, Some false) /\
  map string_of_list_byte [framed (lit "OK"); framed []]
  = ["OK0774" ++ CR; "0000" ++ CR]%string /\
  (* OKAY is *)
  option_map (fun d => (mIsTracking d, last_tracking_event (Events d)))
    (final (ToggleTracking true
              (with_incoming [framed (lit "OKAY")] idle_driver)))
  = Some (true, Some true) /\
  (* other replies, a wrong CRC and silence are not *)
  option_map (fun d => (mIsTracking d, tracking_events (Events d)))
    (final (ToggleTracking true
              (with_incoming [framed (lit "ERROR01")] idle_driver)))
  = Some (false, []) /\
  option_map (fun d => (mIsTracking d, tracking_events (Events d)))
    (final (ToggleTracking true
              (with_incoming [framed (lit "OKAYX")] idle_driver)))
  = Some (false, []) /\
  option_map (fun d => (mIsTracking d, tracking_events (Events d)))
    (final (ToggleTracking true
              (with_incoming [lit "OKAY0000" ++ ["013"%byte]] idle_driver)))
  = Some (false, []) /\
  option_map (fun d => (mIsTracking d, tracking_events (Events d)))
    (final (ToggleTracking true idle_driver))
  = Some (false, []) /\
  (* the flag at its target *)
  ToggleTracking false idle_driver = Ok tt idle_driver.
Proof. vm_compute. repeat split. Qed.


(* ------------------------------------------------------------------ *)
(** *** [ReportStrayMarkers] *)

Section Report.
Context {scalar : Type} `{Numeric scalar} `{Header}.

Local Open Scope nat_scope.
Local Open Scope driver_scope.







End Report.

(* ------------------------------------------------------------------ *)
(** *** The stray-marker block *)

Section Strays.
Context {scalar : Type} `{Numeric scalar} `{Header}.

Local Open Scope nat_scope.
Local Open Scope driver_scope.

Lemma list_store_at {A} (a rest : list A) (c x : A) :
  list_store (a ++ c :: rest) (length a) x = Some (a ++ x :: rest).
Proof.
  induction a as [|y a IH]; simpl.
  - reflexivity.
  - now rewrite IH.
Qed.

Lemma StrayMarkers_store_at (d : Driver scalar) (above below : list (list scalar))
  (row row' : list scalar) (j : nat) (v : scalar) :
  mStrayMarkers d = above ++ row :: below ->
  list_store row j v = Some row' ->
  StrayMarkers_store (length above) j v d
  = Ok tt (set_StrayMarkers (above ++ row' :: below) d).
Proof.
  intros Hm Hrow. unfold StrayMarkers_store.
  rewrite Hm, nth_error_app2, Nat.sub_diag by lia. simpl nth_error.
  cbv iota beta. now rewrite Hrow, list_store_at.
Qed.

(** The five stores of one turn of the loop fill row [i]. *)
Lemma five_stores {A} (d : Driver scalar) (above below : list (list scalar))
  (row : list scalar) (v0 v1 v2 v3 v4 : scalar)
  (K : M (Driver scalar) A) :
  mStrayMarkers d = above ++ row :: below ->
  length row = 5 ->
  (StrayMarkers_store (length above) 0 v0 ;;;
   StrayMarkers_store (length above) 1 v1 ;;;
   StrayMarkers_store (length above) 2 v2 ;;;
   StrayMarkers_store (length above) 3 v3 ;;;
   StrayMarkers_store (length above) 4 v4 ;;;
   K) d
  = K (set_StrayMarkers (above ++ [v0; v1; v2; v3; v4] :: below) d).
Proof.
  intros Hm Hlen.
  destruct row as [|c0 [|c1 [|c2 [|c3 [|c4 [|c5 row]]]]]];
    try discriminate Hlen.
  unfold bind.
  erewrite StrayMarkers_store_at by (try eassumption; reflexivity).
  erewrite StrayMarkers_store_at by (fields; reflexivity).
  erewrite StrayMarkers_store_at by (fields; reflexivity).
  erewrite StrayMarkers_store_at by (fields; reflexivity).
  erewrite StrayMarkers_store_at by (fields; reflexivity).
  reflexivity.
Qed.

Lemma split_at {A} (l : list A) (i : nat) :
  i < length l ->
  exists above row below,
    l = above ++ row :: below /\ length above = i.
Proof.
  intro Hi.
  destruct (skipn i l) as [|row below] eqn:E.
  - apply (f_equal (@length A)) in E. rewrite length_skipn in E.
    simpl in E. lia.
  - exists (firstn i l), row, below. split.
    + now rewrite <- E, firstn_skipn.
    + rewrite length_firstn. lia.
Qed.

(** The loop over the markers, while the rows it writes exist. *)
Lemma markers_loop_run (n : nat) :
  forall (i base : nat) (reply : list bool) (g : nat) (d : Driver scalar)
         (above below : list (list scalar)),
    mStrayMarkers d = above ++ below ->
    length above = i ->
    n <= length below ->
    Forall (fun row => length row = 5) below ->
    markers_loop n i (base + 21 * i) reply g d
    = Ok (base + 21 * (i + n))
         (set_StrayMarkers
            (above ++ map (marker_row (mSerialBuffer d) base reply g) (seq i n)
               ++ skipn n below) d).
Proof.
  induction n as [|n IH]; intros i base reply g d above below Hm Hi Hn Hrows.
  - cbn [markers_loop seq map skipn app]. unfold ret.
    rewrite Nat.add_0_r. f_equal.
    rewrite <- Hm. now destruct d.
  - destruct below as [|row below]; [simpl in Hn; lia|].
    inversion Hrows as [|r rs Hrow Hrest]; subst r rs.
    cbn [markers_loop]. unfold bind at 1, get at 1.
    rewrite <- Hi.
    rewrite (five_stores d above below row) by assumption.
    replace (base + 21 * length above + 3 * 7)
      with (base + 21 * S (length above)) by lia.
    rewrite (IH (S (length above)) base reply g _
               (above ++ [marker_row (mSerialBuffer d) base reply g
                            (length above)]) below).
    + fields. f_equal; [lia|].
      destruct d as [nm buf ptr port trk stray sm hp tools p2t names evs].
      unfold set_StrayMarkers. fields. f_equal.
      cbn [seq map skipn]. rewrite <- app_assoc. reflexivity.
    + fields. rewrite <- app_assoc. reflexivity.
    + rewrite length_app. simpl. lia.
    + simpl in Hn. lia.
    + assumption.
Qed.

(** The loop past the last row of the matrix. *)
Lemma markers_loop_overrun (n : nat) :
  forall (i base : nat) (reply : list bool) (g : nat) (d : Driver scalar)
         (above below : list (list scalar)),
    mStrayMarkers d = above ++ below ->
    length above = i ->
    length below < n ->
    Forall (fun row => length row = 5) below ->
    markers_loop n i (base + 21 * i) reply g d
    = Crash (MatrixRange (length (mStrayMarkers d))).
Proof.
  induction n as [|n IH]; intros i base reply g d above below Hm Hi Hn Hrows.
  - lia.
  - destruct below as [|row below].
    + cbn [markers_loop]. unfold bind at 1, get at 1.
      unfold bind at 1. unfold StrayMarkers_store at 1.
      rewrite Hm, app_nil_r, <- Hi.
      replace (nth_error above (length above)) with (@None (list scalar))
        by (symmetry; apply nth_error_None; lia).
      reflexivity.
    + inversion Hrows as [|r rs Hrow Hrest]; subst r rs.
      cbn [markers_loop]. unfold bind at 1, get at 1.
      rewrite <- Hi.
      rewrite (five_stores d above below row) by assumption.
      replace (base + 21 * length above + 3 * 7)
        with (base + 21 * S (length above)) by lia.
      rewrite (IH (S (length above)) base reply g _
                 (above ++ [marker_row (mSerialBuffer d) base reply g
                              (length above)]) below).
      * fields. rewrite Hm, !length_app. reflexivity.
      * fields. rewrite <- app_assoc. reflexivity.
      * rewrite length_app. simpl. lia.
      * simpl in Hn. lia.
      * assumption.
Qed.


Lemma Zeros_five_columns (rows : nat) (m : list (list scalar)) :
  five_columns rows m -> five_columns rows (Zeros m).
Proof.
  intros [Hlen Hrows]. split.
  - unfold Zeros. now rewrite length_map.
  - unfold Zeros. apply Forall_map.
    eapply Forall_impl; [|exact Hrows].
    intros row Hrow. now rewrite length_map.
Qed.

Lemma Zeros_row (rows : nat) (m : list (list scalar)) (i : nat) :
  five_columns rows m -> i < rows ->
  nth_error (Zeros m) i = Some (repeat (of_Z 0) 5).
Proof.
  intros [Hlen Hrows] Hi. unfold Zeros.
  destruct (nth_error m i) as [row|] eqn:E.
  - rewrite (map_nth_error _ _ _ E). f_equal.
    rewrite Forall_forall in Hrows.
    specialize (Hrows row (nth_error_In _ _ E)).
    destruct row as [|c0 [|c1 [|c2 [|c3 [|c4 [|c5 row]]]]]];
      try discriminate Hrows.
    reflexivity.
  - apply nth_error_None in E. lia.
Qed.

(** The block over a matrix that has a row for every marker reported. *)
Lemma stray_markers_block_run (d : Driver scalar) (p rows : nat) :
  five_columns rows (mStrayMarkers d) ->
  let m := scan_count (buffer_at d p) in
  m <= rows ->
  stray_markers_block p d
  = Ok (block_base p m + 21 * m)
       (set_StrayMarkers
          (map (marker_row (mSerialBuffer d) (block_base p m)
                  (block_reply d p m) (block_garbage m)) (seq 0 m)
             ++ skipn m (Zeros (mStrayMarkers d))) d).
Proof.
  intros Hshape m Hm.
  destruct (Zeros_five_columns _ _ Hshape) as [Hlen Hrows].
  unfold stray_markers_block, bind, get, modify.
  change (match scan_X 2 (buffer_at d p) with
          | Some v => Z.to_nat v
          | None => 0
          end) with m.
  replace (p + 2 + ceil_quarter m) with (block_base p m + 21 * 0)
    by (unfold block_base; lia).
  rewrite (markers_loop_run m 0 (block_base p m) _ _ _ []
             (Zeros (mStrayMarkers d)));
    try assumption; try reflexivity; try (fields; lia).
Qed.

(** The block when more markers are reported than the matrix has rows. *)
Lemma stray_markers_block_overrun (d : Driver scalar) (p rows : nat) :
  five_columns rows (mStrayMarkers d) ->
  rows < scan_count (buffer_at d p) ->
  stray_markers_block p d = Crash (MatrixRange rows).
Proof.
  intros Hshape Hm.
  destruct (Zeros_five_columns _ _ Hshape) as [Hlen Hrows].
  unfold stray_markers_block, bind, get, modify.
  change (match scan_X 2 (buffer_at d p) with
          | Some v => Z.to_nat v
          | None => 0
          end) with (scan_count (buffer_at d p)).
  set (m := scan_count (buffer_at d p)) in *.
  replace (p + 2 + ceil_quarter m) with (block_base p m + 21 * 0)
    by (unfold block_base; lia).
  rewrite (markers_loop_overrun m 0 (block_base p m) _ _ _ []
             (Zeros (mStrayMarkers d)));
    try assumption; try reflexivity; try (fields; lia).
  fields. now rewrite Hlen.
Qed.

Lemma hex_value_range (b : byte) (v : Z) :
  hex_value b = Some v -> (0 <= v < 16)%Z.
Proof.
  intro Hv.
  destruct b; vm_compute in Hv; try discriminate Hv;
    injection Hv as <-; lia.
Qed.

(** A count of two hexadecimal digits is at most 255. *)
Lemma scan_count_range (text : list byte) : scan_count text <= 255.
Proof.
  unfold scan_count, scan_X.
  destruct text as [|a [|b text]]; cbn [firstn take_while]; try lia.
  - unfold is_hex_digit. destruct (hex_value a) as [va|] eqn:Ea; [|lia].
    unfold hex_number. cbn [hex_number_from]. rewrite Ea.
    apply hex_value_range in Ea. lia.
  - unfold is_hex_digit. destruct (hex_value a) as [va|] eqn:Ea; [|lia].
    apply hex_value_range in Ea as Ra.
    destruct (hex_value b) as [vb|] eqn:Eb.
    + unfold hex_number. cbn [hex_number_from]. rewrite Ea, Eb.
      apply hex_value_range in Eb. lia.
    + unfold hex_number. cbn [hex_number_from]. rewrite Ea. lia.
Qed.

Lemma Init_five_columns (name : list byte) (size : nat) :
  five_columns 50 (mStrayMarkers (Init (scalar := scalar) name size)).
Proof.
  split.
  - reflexivity.
  - unfold Init. cbn [mStrayMarkers]. unfold Zeros. apply Forall_map.
    apply Forall_forall. intros row Hrow.
    apply repeat_spec in Hrow. subst row. reflexivity.
Qed.

End Strays.

(* ------------------------------------------------------------------ *)
(** *** The fields of the wire format *)

Lemma byte_to_Z_to_byte (z : Z) : 0 <= z < 256 -> byte_to_Z (Z_to_byte z) = z.
Proof.
  intro Hz. unfold byte_to_Z, Z_to_byte.
  rewrite Z.mod_small by lia.
  destruct (Byte.of_N (Z.to_N z)) as [b|] eqn:E.
  - apply Byte.to_of_N in E. rewrite E. lia.
  - pose proof (Byte.to_of_N_option_map (Z.to_N z)) as Hm.
    rewrite E in Hm. simpl in Hm.
    destruct (N.leb_spec (Z.to_N z) 255); [discriminate|lia].
Qed.

Lemma decimal_digits_length (n : nat) (v : Z) :
  length (decimal_digits n v) = n.
Proof.
  revert v. induction n as [|n IH]; intro v; simpl.
  - reflexivity.
  - rewrite length_app, IH. simpl. lia.
Qed.

Lemma is_digit_Z_to_byte (k : Z) :
  0 <= k < 10 -> is_digit (Z_to_byte (48 + k)) = true.
Proof.
  intro Hk. unfold is_digit. rewrite byte_to_Z_to_byte by lia.
  apply andb_true_intro. split; apply Z.leb_le; lia.
Qed.

Lemma decimal_digits_are_digits (n : nat) (v : Z) :
  Forall (fun b => is_digit b = true) (decimal_digits n v).
Proof.
  revert v. induction n as [|n IH]; intro v; simpl.
  - constructor.
  - apply Forall_app. split; [apply IH|].
    constructor; [|constructor].
    apply is_digit_Z_to_byte. apply Z.mod_pos_bound. lia.
Qed.

Lemma decimal_number_app (ds : list byte) (d : byte) :
  decimal_number (ds ++ [d]) = 10 * decimal_number ds + (byte_to_Z d - 48).
Proof.
  unfold decimal_number. now rewrite fold_left_app.
Qed.

Lemma decimal_number_digits (n : nat) (v : Z) :
  0 <= v < 10 ^ Z.of_nat n -> decimal_number (decimal_digits n v) = v.
Proof.
  revert v. induction n as [|n IH]; intros v Hv.
  - simpl in *. unfold decimal_number. simpl. lia.
  - cbn [decimal_digits]. rewrite decimal_number_app.
    rewrite byte_to_Z_to_byte
      by (pose proof (Z.mod_pos_bound v 10 ltac:(lia)); lia).
    rewrite IH.
    + pose proof (Z.div_mod v 10 ltac:(lia)). lia.
    + rewrite Nat2Z.inj_succ, Z.pow_succ_r in Hv by lia.
      split.
      * apply Z.div_pos; lia.
      * apply Z.div_lt_upper_bound; lia.
Qed.

Lemma take_while_all (p : byte -> bool) (l rest : list byte) :
  Forall (fun b => p b = true) l ->
  take_while p (firstn (length l) (l ++ rest)) = l.
Proof.
  induction 1 as [|b l Hb Hl IH]; simpl.
  - reflexivity.
  - now rewrite Hb, IH.
Qed.

(** A field of the wire format is read back as its value, and all seven
    characters of it are used. *)
Lemma scan_lf_fixed_field (v : Z) (rest : list byte) :
  fits_field v -> scan_lf 7 (fixed_field 7 v ++ rest) = Some (v, 7%nat).
Proof.
  intro Hv. unfold fits_field in Hv. unfold fixed_field, scan_lf.
  change (7 - 1)%nat with 6%nat.
  pose proof (decimal_digits_length 6 (Z.abs v)) as Hlen.
  pose proof (take_while_all is_digit (decimal_digits 6 (Z.abs v)) rest
                (decimal_digits_are_digits 6 (Z.abs v))) as Htake.
  rewrite Hlen in Htake.
  assert (decimal_number (decimal_digits 6 (Z.abs v)) = Z.abs v) as Hnum
    by (apply decimal_number_digits; change (10 ^ Z.of_nat 6) with (10 ^ 6);
        lia).
  destruct (v <? 0) eqn:Hsign; cbn [app]; cbv iota beta; rewrite Htake;
    destruct (decimal_digits 6 (Z.abs v)) as [|d0 ds] eqn:Eds;
    try discriminate Hlen; rewrite Hnum, Hlen.
  - apply Z.ltb_lt in Hsign. do 2 f_equal. lia.
  - apply Z.ltb_ge in Hsign. do 2 f_equal. lia.
Qed.

Lemma fixed_field_length (v : Z) : length (fixed_field 7 v) = 7%nat.
Proof.
  unfold fixed_field. cbn [length]. now rewrite decimal_digits_length.
Qed.

Lemma position_record_length (xyz : Z * Z * Z) :
  length (position_record xyz) = 21%nat.
Proof.
  destruct xyz as [[x y] z]. unfold position_record.
  now rewrite !length_app, !fixed_field_length.
Qed.

Lemma skipn_exact {A} (l rest : list A) (n : nat) :
  length l = n -> skipn n (l ++ rest) = rest.
Proof.
  intros <-. rewrite skipn_app, Nat.sub_diag, skipn_all. reflexivity.
Qed.

(** The three conversions over a position record. *)
Lemma sscanf_lf_position_record (x y z : Z) (rest : list byte) :
  position_fits (x, y, z) ->
  sscanf_lf [7; 7; 7]%nat (position_record (x, y, z) ++ rest) = [x; y; z].
Proof.
  intros (Hx & Hy & Hz). unfold position_record.
  rewrite <- !app_assoc. cbn [sscanf_lf].
  rewrite scan_lf_fixed_field by assumption.
  rewrite (skipn_exact _ _ 7 (fixed_field_length x)).
  rewrite scan_lf_fixed_field by assumption.
  rewrite (skipn_exact _ _ 7 (fixed_field_length y)).
  rewrite scan_lf_fixed_field by assumption.
  reflexivity.
Qed.

(** The text behind the first [k] records. *)
Lemma skipn_records (positions : list (Z * Z * Z)) (tail : list byte) (k : nat) :
  (k <= length positions)%nat ->
  skipn (21 * k) (flat_map position_record positions ++ tail)
  = flat_map position_record (skipn k positions) ++ tail.
Proof.
  revert k. induction positions as [|r positions IH]; intros [|k] Hk;
    try reflexivity.
  - simpl in Hk. lia.
  - cbn [flat_map skipn]. rewrite <- app_assoc.
    replace (21 * S k)%nat with (21 * k + 21)%nat by lia.
    rewrite <- skipn_skipn.
    rewrite (skipn_exact _ _ 21 (position_record_length r)).
    apply IH. simpl in Hk. lia.
Qed.

Lemma scan_count_printed (m : nat) (rest : list byte) :
  (m < 256)%nat -> scan_count (sprintf_02X (Z.of_nat m) ++ rest) = m.
Proof.
  intro Hm.
  assert (count_reads_back (Z.of_nat m) = true) as Hc.
  { apply forall_byte_values; [vm_compute; reflexivity|lia]. }
  unfold count_reads_back in Hc.
  destruct (sprintf_02X (Z.of_nat m)) as [|a [|b [|c l]]];
    try discriminate Hc.
  unfold scan_count. cbn [app]. unfold scan_X in *. cbn [firstn] in *.
  destruct (take_while is_hex_digit [a; b]) as [|h t]; [discriminate Hc|].
  destruct (hex_number (h :: t)) as [w|]; [|discriminate Hc].
  apply Z.eqb_eq in Hc. subst w. lia.
Qed.

(* ------------------------------------------------------------------ *)
(** *** The rows of the stray-marker matrix *)

Lemma nth_blocks {A B} (f : A -> list B) (c : nat) (l : list A)
  (q r : nat) (dflt : B) (a0 : A) :
  (forall x, length (f x) = c) -> (r < c)%nat -> (q < length l)%nat ->
  nth (q * c + r) (flat_map f l) dflt = nth r (f (nth q l a0)) dflt.
Proof.
  intros Hf Hr. revert q.
  induction l as [|x l IH]; intros q Hq; [simpl in Hq; lia|].
  cbn [flat_map]. destruct q as [|q].
  - cbn [Nat.mul Nat.add nth]. apply app_nth1. now rewrite Hf.
  - rewrite app_nth2 by (rewrite Hf; simpl; lia).
    rewrite Hf. cbn [nth].
    replace (S q * c + r - c)%nat with (q * c + r)%nat by (simpl; lia).
    apply IH. simpl in Hq. lia.
Qed.

Lemma skipn_nth_error {A} (l : list A) (i : nat) (x : A) :
  nth_error l i = Some x -> skipn i l = x :: skipn (S i) l.
Proof.
  revert i. induction l as [|y l IH]; intros [|i] Hi; try discriminate Hi.
  - now injection Hi as ->.
  - cbn [skipn]. now apply IH.
Qed.

Lemma ceil_quarter_bounds (m : nat) :
  (m <= 4 * ceil_quarter m < m + 4)%nat.
Proof.
  unfold ceil_quarter.
  pose proof (Nat.div_mod_eq (m + 3) 4) as E.
  pose proof (Nat.mod_upper_bound (m + 3) 4 ltac:(lia)) as R.
  lia.
Qed.

Section StrayRows.
Context {scalar : Type} `{Numeric scalar} `{Header}.

Local Open Scope nat_scope.

Lemma outOfVolumeReply_nth (d : Driver scalar) (pp size slot : nat) :
  slot < 4 * size ->
  nth slot (outOfVolumeReply d pp size) false
  = bitset4_flip (peek d (pp + slot / 4)) (3 - slot mod 4).
Proof.
  intro Hslot. unfold outOfVolumeReply.
  pose proof (Nat.div_mod_eq slot 4) as E.
  pose proof (Nat.mod_upper_bound slot 4 ltac:(lia)) as R.
  assert (slot / 4 < size) as Hq by lia.
  replace slot with (slot / 4 * 4 + slot mod 4) at 1 by lia.
  rewrite (nth_blocks _ 4 (seq 0 size) (slot / 4) (slot mod 4) false 0);
    [|reflexivity|exact R|now rewrite length_seq].
  rewrite seq_nth by exact Hq. cbn [Nat.add].
  destruct (slot mod 4) as [|[|[|[|r]]]]; try reflexivity. lia.
Qed.

(** The stray-marker block on a count of [m <= 50] markers, the packed
    out-of-volume bytes and [m] position records: the rows it leaves in
    the matrix. *)
Lemma stray_markers_block_rows
  (d : Driver scalar) (p : nat) (oov : list byte)
  (positions : list (Z * Z * Z)) (tail : list byte) :
  length positions <= 50 ->
  five_columns 50 (mStrayMarkers d) ->
  length oov = ceil_quarter (length positions) ->
  Forall position_fits positions ->
  buffer_at d p
  = sprintf_02X (Z.of_nat (length positions)) ++ oov
      ++ flat_map position_record positions ++ tail ->
  exists p' d',
    stray_markers_block p d = Ok p' d' /\
    length (mStrayMarkers d') = 50 /\
    (forall i x y z,
        nth_error positions i = Some (x, y, z) ->
        nth_error (mStrayMarkers d') i
        = Some [of_Z 1;
                of_bool (spec_visibility oov (length positions) i);
                fdiv (of_Z x) (of_Z 100);
                fdiv (of_Z y) (of_Z 100);
                fdiv (of_Z z) (of_Z 100)]) /\
    (forall i, length positions <= i < 50 ->
               nth_error (mStrayMarkers d') i = Some (repeat (of_Z 0) 5)) /\
    map (spec_visibility [x0e] 3) [0; 1; 2] = [false; false; true].
Proof.
  intros Hm Hshape Hoov Hfit Hbuf.
  set (m := length positions) in *.
  assert (scan_count (buffer_at d p) = m) as Hcount
    by (rewrite Hbuf; apply scan_count_printed; lia).
  pose proof (stray_markers_block_run d p 50 Hshape) as Hrun.
  cbv zeta in Hrun. rewrite Hcount in Hrun. specialize (Hrun Hm).
  destruct (Zeros_five_columns _ _ Hshape) as [Hzlen Hzrows].
  assert (length (sprintf_02X (Z.of_nat m)) = 2) as Hc2.
  { assert (count_reads_back (Z.of_nat m) = true) as Hc
      by (apply forall_byte_values; [vm_compute; reflexivity|lia]).
    unfold count_reads_back in Hc.
    destruct (sprintf_02X (Z.of_nat m)) as [|a [|b [|c l]]];
      try discriminate Hc; reflexivity. }
  eexists; eexists. split; [exact Hrun|]. fields.
  split; [|split; [|split]].
  - rewrite length_app, length_map, length_seq, length_skipn. lia.
  - intros i x y z Hi.
    assert (i < m) as Him by (apply nth_error_Some; congruence).
    rewrite nth_error_app1 by (rewrite length_map, length_seq; exact Him).
    erewrite map_nth_error
      by (rewrite nth_error_nth' with (d := 0);
          [rewrite seq_nth by exact Him; reflexivity
          |rewrite length_seq; exact Him]).
    f_equal. unfold marker_row. cbn [Nat.add].
    (* the position record of marker [i] *)
    assert (skipn (block_base p m + 21 * i) (mSerialBuffer d)
            = position_record (x, y, z)
                ++ flat_map position_record (skipn (S i) positions) ++ tail)
      as Htext.
    { unfold block_base.
      replace (p + 2 + ceil_quarter m + 21 * i)
        with (21 * i + (ceil_quarter m + (2 + p))) by lia.
      rewrite <- !skipn_skipn.
      fold (buffer_at d p). rewrite Hbuf.
      rewrite (skipn_exact _ _ 2 Hc2).
      rewrite (skipn_exact _ _ (ceil_quarter m) Hoov).
      rewrite skipn_records by (fold m; lia).
      assert (skipn i positions = (x, y, z) :: skipn (S i) positions) as Hs
        by now apply skipn_nth_error.
      rewrite Hs. cbn [flat_map]. now rewrite <- app_assoc. }
    rewrite Htext.
    rewrite sscanf_lf_position_record
      by (rewrite Forall_forall in Hfit; apply Hfit;
          now apply (nth_error_In positions i)).
    unfold converted. cbn [nth_error].
    (* the visibility bit of marker [i] *)
    do 2 f_equal. f_equal.
    pose proof (ceil_quarter_bounds m) as Hq.
    unfold block_reply, block_garbage.
    rewrite outOfVolumeReply_nth by lia.
    unfold spec_visibility, bitset4_flip. fold m.
    set (slot := i + (4 * ceil_quarter m - m)).
    pose proof (Nat.div_mod_eq slot 4) as E.
    pose proof (Nat.mod_upper_bound slot 4 ltac:(lia)) as R.
    do 3 f_equal.
    unfold peek. replace (p + 2 + slot / 4) with (p + (2 + slot / 4)) by lia.
    rewrite <- nth_skipn. fold (buffer_at d p). rewrite Hbuf.
    rewrite app_nth2 by lia. rewrite Hc2.
    replace (2 + slot / 4 - 2) with (slot / 4) by lia.
    apply app_nth1. subst slot. lia.
  - intros i Hi.
    rewrite nth_error_app2 by (rewrite length_map, length_seq; lia).
    rewrite length_map, length_seq, nth_error_skipn.
    replace (m + (i - m)) with i by lia.
    apply (Zeros_row 50); [assumption|lia].
  - reflexivity.
Qed.

End StrayRows.

(* ------------------------------------------------------------------ *)
(** *** The poses of a tool *)

Section Poses.
Context {scalar : Type} `{Numeric scalar} `{Header}.

Local Open Scope nat_scope.
Local Open Scope driver_scope.

Lemma update_tool_at (d : Driver scalar) (above below : list (Tool scalar))
  (t : Tool scalar) (f : Tool scalar -> Tool scalar) :
  heap d = above ++ t :: below ->
  update_tool (length above) f d
  = Ok tt (set_heap (above ++ f t :: below) d).
Proof.
  intro Hh. unfold update_tool.
  rewrite Hh, nth_error_app2, Nat.sub_diag by lia. cbn [nth_error].
  now rewrite list_store_at.
Qed.

Lemma read_tool_at (d : Driver scalar) (above below : list (Tool scalar))
  (t : Tool scalar) :
  heap d = above ++ t :: below ->
  read_tool (length above) d = Ok t d.
Proof.
  intro Hh. unfold read_tool.
  now rewrite Hh, nth_error_app2, Nat.sub_diag by lia.
Qed.

Lemma nth_error_middle {A} (above below : list A) (x : A) :
  nth_error (above ++ x :: below) (length above) = Some x.
Proof. now rewrite nth_error_app2, Nat.sub_diag by lia. Qed.

(** The numeric branch on a tool of the heap. *)
Lemma Track_numeric_pose (d : Driver scalar) (L : TrackLocals)
  (above below : list (Tool scalar)) (t : Tool scalar) :
  heap d = above ++ t :: below ->
  exists L' t',
    Track_numeric (length above) L d
    = Ok L' (set_heap (above ++ t' :: below) d) /\
    parsePointer L' = parsePointer L + 59 /\
    tip_follows_marker t' /\
    TooltipOffset t' = TooltipOffset t.
Proof.
  intro Hh. unfold Track_numeric, bind, get.
  rewrite (read_tool_at d above below t Hh).
  erewrite update_tool_at by eassumption.
  erewrite update_tool_at by (fields; reflexivity).
  erewrite update_tool_at by (fields; reflexivity).
  erewrite update_tool_at by (fields; reflexivity).
  erewrite read_tool_at by (fields; reflexivity).
  erewrite update_tool_at by (fields; reflexivity).
  erewrite update_tool_at by (fields; reflexivity).
  unfold ret. eexists; eexists.
  split; [f_equal; now destruct d|].
  repeat split.
Qed.

(** C6. For every tool whose row of the [TX] reply is parsed as numeric
    data, both poses are set valid, the tooltip pose has the rotation of
    the marker pose, and its translation is the translation of the marker
    pose plus the rotation of the marker pose applied to the tooltip
    offset of the tool. *)
Theorem Track_row_numeric_pose (d : Driver scalar) (L : TrackLocals)
  (tool : ToolPtr) (t : Tool scalar) :
  let handle := scan_2c (buffer_at d (parsePointer L)) (portHandle L) in
  let row := buffer_at d (parsePointer L + 2) in
  map_find (cstr handle) (mPortToTool d) = Some tool ->
  nth_error (heap d) tool = Some t ->
  strncmp_eq row (lit "MISSING") 7 = false ->
  strncmp_eq row (lit "DISABLED") 8 = false ->
  strncmp_eq row (lit "UNOCCUPIED") 10 = false ->
  exists r d' t',
    Track_row L d = Ok r d' /\
    nth_error (heap d') tool = Some t' /\
    Valid (MarkerPosition t') = true /\
    Valid (TooltipPosition t') = true /\
    Rotation (Position (TooltipPosition t'))
    = Rotation (Position (MarkerPosition t')) /\
    Translation (Position (TooltipPosition t'))
    = vct3_Add (Translation (Position (MarkerPosition t')))
               (RotApply (Rotation (Position (MarkerPosition t')))
                         (TooltipOffset t)).
Proof.
  intros handle row Hfind Ht Hm Hd Hu.
  assert (tool < length (heap d)) as Hlt by (apply nth_error_Some; congruence).
  destruct (split_at (heap d) tool Hlt) as (above & t0 & below & Hh & Hlen).
  assert (t0 = t) as ->.
  { rewrite Hh, <- Hlen, nth_error_middle in Ht. congruence. }
  subst tool.
  unfold Track_row. unfold bind at 1, get at 1.
  cbn [skip parsePointer portHandle].
  fold handle. fold row.
  rewrite Hfind. unfold bind at 1.
  rewrite Hm, Hd, Hu.
  destruct (Track_numeric_pose d
              (skip 2 (mk_locals (parsePointer L) handle (toolOrientation L)
                         (toolPosition L) (tooltipPosition L)))
              above below t Hh)
    as (L' & t' & Hrun & Hpp & (V1 & V2 & R & T) & Hoff).
  rewrite Hrun.
  unfold bind at 1.
  destruct (scan_X 8 (buffer_at d (parsePointer L'))) as [n|].
  - erewrite update_tool_at by (fields; reflexivity).
    destruct (negb _).
    + unfold bind, emit, modify, ret.
      eexists; eexists; eexists. split; [reflexivity|]. fields.
      rewrite nth_error_middle. cbn.
      repeat split; try assumption. now rewrite <- Hoff.
    + unfold ret.
      eexists; eexists; eexists. split; [reflexivity|]. fields.
      rewrite nth_error_middle. cbn.
      repeat split; try assumption. now rewrite <- Hoff.
  - unfold ret at 1.
    destruct (negb _).
    + unfold bind, emit, modify, ret.
      eexists; eexists; eexists. split; [reflexivity|]. fields.
      rewrite nth_error_middle.
      repeat split; try assumption. now rewrite <- Hoff.
    + unfold ret.
      eexists; eexists; eexists. split; [reflexivity|]. fields.
      rewrite nth_error_middle.
      repeat split; try assumption. now rewrite <- Hoff.
Qed.

End Poses.

(* ------------------------------------------------------------------ *)
(** *** The tool registry *)

Section Registry.
Context {scalar : Type} `{Numeric scalar} `{Header}.

Local Open Scope nat_scope.
Local Open Scope driver_scope.

Lemma CheckTool_loop_found (h : list (Tool scalar))
  (entries : list (list byte * ToolPtr)) (s : list byte) (tool : ToolPtr) :
  CheckTool_loop h entries s = Some tool ->
  exists name t,
    In (name, tool) entries /\ nth_error h tool = Some t /\
    SerialNumber t = s.
Proof.
  induction entries as [|[name p] entries IH]; simpl; [discriminate|].
  destruct (nth_error h p) as [t|] eqn:Et.
  - destruct (bytes_eqb (SerialNumber t) s) eqn:Es.
    + intros [= <-]. apply bytes_eqb_eq in Es.
      exists name, t. repeat split; auto.
    + intro Hf. destruct (IH Hf) as (n & t' & Hin & Ht' & Hs).
      exists n, t'. repeat split; auto.
  - intro Hf. destruct (IH Hf) as (n & t' & Hin & Ht' & Hs).
    exists n, t'. repeat split; auto.
Qed.

Lemma CheckTool_loop_missing (h : list (Tool scalar))
  (entries : list (list byte * ToolPtr)) (s : list byte) :
  CheckTool_loop h entries s = None ->
  forall name tool t,
    In (name, tool) entries -> nth_error h tool = Some t ->
    SerialNumber t <> s.
Proof.
  induction entries as [|[name p] entries IH]; simpl; [tauto|].
  intros Hf n tool t [Hin|Hin] Ht.
  - injection Hin as -> ->. rewrite Ht in Hf.
    destruct (bytes_eqb (SerialNumber t) s) eqn:Es; [discriminate|].
    intro Heq. apply bytes_eqb_eq in Heq. congruence.
  - destruct (nth_error h p) as [t0|].
    + destruct (bytes_eqb (SerialNumber t0) s); [discriminate|].
      now apply (IH Hf n tool t).
    + now apply (IH Hf n tool t).
Qed.

(** [CheckTool] finds a tool exactly when one is registered under the
    serial number. *)
Lemma CheckTool_registered (d : Driver scalar) (s : list byte) :
  (forall tool, CheckTool s d = Some tool -> registered d s tool) /\
  (CheckTool s d = None -> forall tool, ~ registered d s tool).
Proof.
  split.
  - intros tool Hc. now apply CheckTool_loop_found.
  - intros Hc tool (name & t & Hin & Ht & Hs).
    now apply (CheckTool_loop_missing _ _ _ Hc name tool t).
Qed.

Lemma bytes_eqb_refl (a : list byte) : bytes_eqb a a = true.
Proof. now apply bytes_eqb_eq. Qed.

Lemma map_find_insert (name : list byte) (v : ToolPtr)
  (m : list (list byte * ToolPtr)) :
  map_find name m = None -> map_find name (map_insert name v m) = Some v.
Proof.
  induction m as [|[k w] m IH]; simpl.
  - now rewrite bytes_eqb_refl.
  - destruct (bytes_eqb k name) eqn:Ek; [discriminate|].
    intro Hf. destruct (bytes_ltb name k); simpl.
    + now rewrite bytes_eqb_refl.
    + rewrite Ek. now apply IH.
Qed.

(** C8. [AddTool name serial definition]: when a tool with the same
    serial number is in the registry, a tool of the registry with that
    serial number is returned and nothing of the registry changes (only a
    warning is logged); otherwise a new tool with this name, serial number
    and definition is created and stored under [name], unless [name] is
    already the name of a tool: then no tool is returned and nothing of
    the registry changes (only an error is logged). *)
Theorem AddTool_registry (d : Driver scalar)
  (name serialNumber definition : list byte) :
  match CheckTool serialNumber d with
  | Some tool =>
      registered d serialNumber tool /\
      AddTool name serialNumber definition d
      = Ok (Some tool)
           (set_Events
              (Events d ++
               [LogWarning "AddTool: there's already a tool with serial number"])
              d)
  | None =>
      (forall tool, ~ registered d serialNumber tool) /\
      match map_find name (mTools d) with
      | Some _ =>
          AddTool name serialNumber definition d
          = Ok None
               (set_Events
                  (Events d ++
                   [LogError "AddTool: no tool created, duplicate name exists"])
                  d)
      | None =>
          let tool := length (heap d) in
          let tools := map_insert name tool (mTools d) in
          AddTool name serialNumber definition d
          = Ok (Some tool)
               (set_Events (Events d ++ [EvUpdatedTools])
                  (set_ToolNames (GetNames tools)
                     (set_Tools tools
                        (set_heap
                           (heap d ++
                            [created_tool name serialNumber definition])
                           d)))) /\
          map_find name tools = Some tool /\
          nth_error (heap d ++ [created_tool name serialNumber definition]) tool
          = Some (created_tool name serialNumber definition) /\
          ToolName (created_tool name serialNumber definition) = name /\
          SerialNumber (created_tool name serialNumber definition)
          = serialNumber /\
          Definition_ (created_tool name serialNumber definition) = definition
      end
  end.
Proof.
  destruct (CheckTool_registered d serialNumber) as [Hsome Hnone].
  destruct (CheckTool serialNumber d) as [tool|] eqn:Hc.
  - split; [now apply Hsome|].
    unfold AddTool, bind, get. rewrite Hc. reflexivity.
  - split; [now apply Hnone|].
    assert (CheckTool serialNumber d = None) as Hc' by exact Hc.
    destruct (map_find name (mTools d)) as [p|] eqn:Hf.
    + destruct d as [nm buf ptr port trk stray sm hp tools p2t names evs].
      unfold AddTool, mTools_AddItem, AddItem, emit, bind, get, modify, ret.
      rewrite Hc'. fields. rewrite Hf. cbv beta iota zeta. fields.
      rewrite removelast_last. reflexivity.
    + cbv zeta. split; [|split; [|split]].
      * destruct d as [nm buf ptr port trk stray sm hp tools p2t names evs].
        unfold AddTool, mTools_AddItem, AddItem, emit, bind, get, modify, ret.
        rewrite Hc'. fields. rewrite Hf. cbv beta iota zeta. fields.
        reflexivity.
      * now apply map_find_insert.
      * apply nth_error_middle.
      * repeat split.
Qed.

End Registry.

(* ------------------------------------------------------------------ *)
(** *** The loop of [Beep] ends *)

Section BeepLoop.
Context {scalar : Type} `{Numeric scalar} `{Header}.

Local Open Scope nat_scope.
Local Open Scope driver_scope.

(** A computation that never runs out of fuel. *)
Definition fueled {A} (m : M (Driver scalar) A) : Prop :=
  forall d, m d <> Crash OutOfFuel.

Lemma fueled_ret {A} (a : A) : fueled (ret a).
Proof. intros d Hc. discriminate Hc. Qed.

Lemma fueled_gets {A} (f : Driver scalar -> A) : fueled (gets f).
Proof. intros d Hc. discriminate Hc. Qed.

Lemma fueled_modify (f : Driver scalar -> Driver scalar) : fueled (modify f).
Proof. intros d Hc. discriminate Hc. Qed.

Lemma fueled_bind {A B} (m : M (Driver scalar) A)
  (k : A -> M (Driver scalar) B) :
  fueled m -> (forall x, fueled (k x)) -> fueled (bind m k).
Proof.
  intros Hm Hk d Hc. unfold bind in Hc.
  destruct (m d) as [x d1|f] eqn:E.
  - now apply (Hk x d1).
  - apply (Hm d). congruence.
Qed.

Lemma fueled_poke (i : nat) (b : byte) : fueled (poke i b).
Proof.
  intros d Hc. unfold poke in Hc.
  destruct (store (mSerialBuffer d) i b); discriminate Hc.
Qed.

Lemma fueled_poke_all (bs : list byte) (i : nat) : fueled (poke_all i bs).
Proof.
  revert i. induction bs as [|b bs IH]; intro i; simpl.
  - apply fueled_ret.
  - apply fueled_bind; [apply fueled_poke|intros _; apply IH].
Qed.

Lemma fueled_emit (e : Event) : fueled (emit e).
Proof. apply fueled_modify. Qed.

Lemma fueled_CommandAppend_char (c : byte) : fueled (CommandAppend_char c).
Proof.
  unfold CommandAppend_char.
  apply fueled_bind; [apply fueled_gets|intro p].
  apply fueled_bind; [apply fueled_poke|intros _; apply fueled_modify].
Qed.

Lemma fueled_CommandSend : fueled CommandSend.
Proof.
  unfold CommandSend.
  apply fueled_bind; [apply fueled_CommandAppend_char|intros _].
  apply fueled_bind; [apply fueled_CommandAppend_char|intros _].
  apply fueled_bind; [apply fueled_gets|intro buf].
  apply fueled_bind.
  - unfold Write.
    apply fueled_bind; [apply fueled_modify|intros _; apply fueled_ret].
  - intro n. destruct (negb _).
    + apply fueled_bind; [apply fueled_emit|intros _; apply fueled_ret].
    + apply fueled_ret.
Qed.

Lemma fueled_ResponseCheckCRC : fueled ResponseCheckCRC.
Proof.
  unfold ResponseCheckCRC.
  apply fueled_bind; [apply fueled_gets|intro p].
  destruct (p <? CRC_SIZE + 1); [intros d Hc; discriminate Hc|].
  apply fueled_bind; [apply fueled_gets|intro buf].
  apply fueled_bind; [apply fueled_poke|intros _].
  apply fueled_bind; [apply fueled_modify|intros _].
  apply fueled_bind; [apply fueled_gets|intro buf'].
  destruct (negb _).
  - apply fueled_bind; [apply fueled_emit|intros _; apply fueled_ret].
  - apply fueled_ret.
Qed.

Lemma fueled_ResponseRead : fueled ResponseRead.
Proof.
  unfold ResponseRead.
  apply fueled_bind; [apply fueled_modify|intros _].
  apply fueled_bind.
  - unfold Read. apply fueled_bind; [intros d Hc; discriminate Hc|intro d].
    destruct (incoming (mSerialPort d)); [apply fueled_ret|].
    apply fueled_bind; [apply fueled_modify|intros _].
    apply fueled_bind; [apply fueled_poke_all|intros _; apply fueled_ret].
  - intro n.
    apply fueled_bind;
      [destruct (0 <? n); [apply fueled_modify|apply fueled_ret]|intros _].
    apply fueled_bind; [intros d Hc; discriminate Hc|intro d].
    destruct (negb _).
    + apply fueled_bind; [apply fueled_emit|intros _; apply fueled_ret].
    + apply fueled_bind; [apply fueled_ResponseCheckCRC|intro ok].
      destruct (negb ok); apply fueled_ret.
Qed.

(** What [Beep] does before it waits for the reply. *)
Definition Beep_send (numberOfBeeps : Z) : M (Driver scalar) unit :=
  CommandInitialize ;;;
  CommandAppend (lit "BEEP ") ;;;
  CommandAppend_int numberOfBeeps ;;;
  CommandSend ;;;
  Sleep.

Lemma keeps_CommandAppend_int (n : Z) :
  keeps (scalar := scalar) 0 (CommandAppend_int n).
Proof.
  unfold CommandAppend_int.
  eapply keeps_bind; [apply keeps_gets|intro p|reflexivity].
  eapply keeps_bind; [apply keeps_gets|intro avail|reflexivity].
  apply (keeps_bind 0 0 0);
    [destruct avail; [apply keeps_ret|apply keeps_poke_all]
    |intros _; apply keeps_advance|reflexivity].
Qed.

Lemma keeps_Beep_send (n : Z) : keeps 0 (Beep_send n).
Proof.
  unfold Beep_send.
  eapply keeps_bind; [apply keeps_CommandInitialize|intros _|reflexivity].
  eapply keeps_bind; [apply keeps_CommandAppend|intros _|reflexivity].
  eapply keeps_bind; [apply keeps_CommandAppend_int|intros _|reflexivity].
  eapply keeps_bind; [apply keeps_CommandSend|intros _|reflexivity].
  apply keeps_ret.
Qed.

Lemma fueled_Beep_send (n : Z) : fueled (Beep_send n).
Proof.
  unfold Beep_send.
  apply fueled_bind; [apply fueled_modify|intros _].
  apply fueled_bind.
  { unfold CommandAppend.
    apply fueled_bind; [apply fueled_gets|intro p].
    apply fueled_bind; [apply fueled_poke_all|intros _; apply fueled_modify]. }
  intros _. apply fueled_bind.
  { unfold CommandAppend_int.
    apply fueled_bind; [apply fueled_gets|intro p].
    apply fueled_bind; [apply fueled_gets|intro avail].
    apply fueled_bind;
      [destruct avail; [apply fueled_ret|apply fueled_poke_all]
      |intros _; apply fueled_modify]. }
  intros _. apply fueled_bind; [apply fueled_CommandSend|intros _].
  apply fueled_ret.
Qed.

Lemma Beep_loop_steps (fuel : nat) (n : Z) (d : Driver scalar) :
  Beep_loop (S fuel) n d
  = (Beep_send n ;;;
     ok <- ResponseRead ;;
     if negb ok then ret false
     else
       buf <- gets mSerialBuffer ;;
       if strncmp_eq (lit "0") buf 1 then Beep_loop fuel n else ret true) d.
Proof.
  cbn [Beep_loop]. unfold Beep_send, Sleep, bind, ret.
  destruct (CommandInitialize d) as [u d1|f]; [|reflexivity].
  destruct (CommandAppend (lit "BEEP ") d1) as [u1 d2|f]; [|reflexivity].
  destruct (CommandAppend_int n d2) as [u2 d3|f]; [|reflexivity].
  destruct (CommandSend d3) as [b d4|f]; reflexivity.
Qed.

(** A reply is taken off the link whenever [ResponseRead] succeeds. *)
Lemma ResponseRead_true_takes (d d' : Driver scalar) :
  ResponseRead d = Ok true d' ->
  length (incoming (mSerialPort d'))
  < length (incoming (mSerialPort d)).
Proof.
  intro Hr. destruct (keeps_ResponseRead _ _ _ Hr) as [_ Hin].
  destruct (incoming (mSerialPort d)) as [|r q] eqn:E.
  - rewrite (ResponseRead_timeout d E) in Hr. discriminate Hr.
  - rewrite Hin. simpl. lia.
Qed.

(** With more fuel than replies queued, the loop of [Beep] ends by
    itself. *)
Lemma Beep_loop_fueled (fuel : nat) :
  forall (n : Z) (d : Driver scalar),
    length (incoming (mSerialPort d)) < fuel ->
    Beep_loop fuel n d <> Crash OutOfFuel.
Proof.
  induction fuel as [|fuel IH]; intros n d Hlen; [lia|].
  rewrite Beep_loop_steps. unfold bind at 1.
  destruct (Beep_send n d) as [u d1|f] eqn:Es.
  - destruct (keeps_Beep_send _ _ _ _ Es) as [_ I1]. simpl in I1.
    unfold bind at 1.
    destruct (ResponseRead d1) as [[|] d2|f] eqn:Er.
    + cbn [negb]. unfold bind, gets.
      destruct (strncmp_eq (lit "0") (mSerialBuffer d2) 1);
        [|discriminate].
      apply IH. apply ResponseRead_true_takes in Er. rewrite I1 in Er. lia.
    + discriminate.
    + intro Hc. apply (fueled_ResponseRead d1). congruence.
  - intro Hc. apply (fueled_Beep_send n d). congruence.
Qed.

Lemma Beep_fueled (n : Z) (d : Driver scalar) : Beep n d <> Crash OutOfFuel.
Proof.
  assert (forall d1 : Driver scalar,
             (queued <- gets (fun d => length (incoming (mSerialPort d))) ;;
              finished <- Beep_loop (S queued) n ;;
              if finished
              then
                buf <- gets mSerialBuffer ;;
                if negb (strncmp_eq (lit "1") buf 1)
                then emit (LogError "Beep: unknown response received")
                else ret tt
              else ret tt) d1 <> Crash OutOfFuel) as Htail.
  { intro d1. unfold bind at 1, gets at 1. unfold bind at 1.
    destruct (Beep_loop _ n d1) as [fin d2|f] eqn:El.
    - destruct fin.
      + unfold bind, gets. destruct (negb _); discriminate.
      + discriminate.
    - intro Hc. apply (Beep_loop_fueled _ n d1 (Nat.lt_succ_diag_r _)).
      congruence. }
  unfold Beep. destruct ((n <? 1) || (n >? 9))%Z; unfold bind at 1.
  - unfold emit, modify. apply Htail.
  - unfold ret at 1. apply Htail.
Qed.

End BeepLoop.

(* ------------------------------------------------------------------ *)
(** *** Runs of the driver *)

(** [numChunks] is one more than the number of whole chunks. *)
Lemma numChunks_whole (fileSize : nat) :
  numChunks fileSize = (fileSize * 2 / 128 + 1)%nat.
Proof.
  unfold numChunks.
  pose proof (Nat.div_mod_eq (fileSize * 2) 128) as E.
  pose proof (Nat.mod_upper_bound (fileSize * 2) 128 ltac:(lia)) as R.
  set (q := (fileSize * 2 / 128)%nat) in *.
  set (r := (fileSize * 2 mod 128)%nat) in *.
  replace (fileSize * 2 + (128 - r))%nat with (1 * 128 + fileSize * 2 - r)%nat
    by lia.
  replace (1 * 128 + fileSize * 2 - r)%nat with ((q + 1) * 128)%nat by lia.
  now rewrite Nat.div_mul by lia.
Qed.

(** It is the rounded-up quotient unless the file is a whole number of
    64-byte chunks; then it is one more. *)
Lemma numChunks_ceiling (fileSize : nat) :
  numChunks fileSize
  = (if (fileSize mod 64 =? 0)%nat
     then (2 * fileSize + 127) / 128 + 1
     else (2 * fileSize + 127) / 128)%nat.
Proof.
  rewrite numChunks_whole.
  pose proof (Nat.div_mod_eq (fileSize * 2) 128) as E.
  pose proof (Nat.mod_upper_bound (fileSize * 2) 128 ltac:(lia)) as R.
  pose proof (Nat.div_mod_eq fileSize 64) as E'.
  pose proof (Nat.mod_upper_bound fileSize 64 ltac:(lia)) as R'.
  pose proof (Nat.div_mod_eq (2 * fileSize + 127) 128) as E2.
  pose proof (Nat.mod_upper_bound (2 * fileSize + 127) 128 ltac:(lia)) as R2.
  destruct (Nat.eqb_spec (fileSize mod 64) 0) as [Hz|Hz]; nia.
Qed.

(** C3: the code against the claim, on a file of exactly 960 bytes.  The
    claim has the upload take [ceil(1920/128) = 15] chunks; the loop runs
    [numChunks = 16] times and sends a sixteenth [PVWR], addressed [03C0],
    behind the end of the file.  (The addresses are [i * 64] in four
    upper-case digits, and a file of 961 bytes is rejected with nothing
    sent, as claimed.) *)
Theorem LoadToolDefinitionFile_960_bytes :
  ((2 * 960 + 127) / 128 = 15)%nat /\
  numChunks 960 = 16%nat /\
  option_map (map (fun c => substring 0 11 c))
    (commands_of
       (LoadToolDefinitionFile (lit "01") (Some (repeat "A"%byte 960))
          (driver_with (repeat (framed (lit "OKAY")) 16))))
  = Some ["PVWR 010000"; "PVWR 010040"; "PVWR 010080"; "PVWR 0100C0";
          "PVWR 010100"; "PVWR 010140"; "PVWR 010180"; "PVWR 0101C0";
          "PVWR 010200"; "PVWR 010240"; "PVWR 010280"; "PVWR 0102C0";
          "PVWR 010300"; "PVWR 010340"; "PVWR 010380"; "PVWR 0103C0"]%string /\
  commands_of
    (LoadToolDefinitionFile (lit "01") (Some (repeat "A"%byte 961))
       (driver_with []))
  = Some [].
Proof. vm_compute. repeat split. Qed.

(** C4: the code against the claim.  [Beep 0] and [Beep 10] log the
    invalid input and then send the command all the same; [Beep 1] and
    [Beep 9] send [BEEP 1] and [BEEP 9], send them again after a reply
    that starts with [0], and log nothing when the reply starts with
    [1]. *)
Theorem Beep_out_of_range_is_sent :
  commands_of (Beep 0 (driver_with [framed (lit "1")]))
  = Some ["BEEP 0" ++ CR]%string /\
  logged_of (Beep 0 (driver_with [framed (lit "1")]))
  = Some [LogError "Beep: invalid input"] /\
  commands_of (Beep 10 (driver_with [framed (lit "1")]))
  = Some ["BEEP 10" ++ CR]%string /\
  logged_of (Beep 10 (driver_with [framed (lit "1")]))
  = Some [LogError "Beep: invalid input"] /\
  commands_of (Beep 1 (driver_with [framed (lit "1")]))
  = Some ["BEEP 1" ++ CR]%string /\
  logged_of (Beep 1 (driver_with [framed (lit "1")])) = Some [] /\
  commands_of (Beep 9 (driver_with [framed (lit "0"); framed (lit "1")]))
  = Some ["BEEP 9" ++ CR; "BEEP 9" ++ CR]%string /\
  logged_of (Beep 9 (driver_with [framed (lit "0"); framed (lit "1")]))
  = Some [].
Proof. vm_compute. repeat split. Qed.

(* ------------------------------------------------------------------ *)
(** *** [Track] on a whole reply *)

(** The fields of a state built by the setters, in the goal. *)
Ltac goal_fields :=
  cbn [set_buffer set_pointer set_port set_IsTracking set_TrackStrayMarkers
       set_StrayMarkers set_heap set_Tools set_PortToTool set_ToolNames
       set_Events
       Name mSerialBuffer mSerialBufferPointer mSerialPort mIsTracking
       mTrackStrayMarkers mStrayMarkers heap mTools mPortToTool mToolNames
       Events written incoming].

Lemma bind_Ok {S A B} (m : M S A) (k : A -> M S B) (s s1 : S) (a : A) :
  m s = Ok a s1 -> bind m k s = k a s1.
Proof. intro E. unfold bind. now rewrite E. Qed.

Lemma skipn_app_exact {A} (a b : list A) (n : nat) :
  length a = n -> skipn n (a ++ b) = b.
Proof.
  intros <-. rewrite skipn_app, skipn_all, Nat.sub_diag. reflexivity.
Qed.

Lemma scan_X_field (width : nat) (field rest : list byte) :
  length field = width -> scan_X width (field ++ rest) = scan_X width field.
Proof.
  intro Hl. unfold scan_X.
  rewrite firstn_app, Hl, Nat.sub_diag, firstn_O, app_nil_r.
  rewrite <- Hl, !firstn_all. reflexivity.
Qed.

Lemma scan_count_field (count rest : list byte) :
  length count = 2%nat -> scan_count (count ++ rest) = scan_count count.
Proof. intro Hl. unfold scan_count. now rewrite scan_X_field. Qed.

Lemma take_while_all_true (p : byte -> bool) (l : list byte) :
  forallb p l = true -> take_while p l = l.
Proof.
  induction l as [|b l IH]; [reflexivity|].
  cbn [forallb take_while]. intro Hall.
  apply andb_true_iff in Hall. destruct Hall as [-> Hl]. now rewrite IH.
Qed.

(** On two hexadecimal digits the count read is the number they write. *)
Lemma scan_count_hex_count (field : list byte) :
  two_hex_digits field = true -> scan_count field = hex_count field.
Proof.
  unfold two_hex_digits. intro Hf. apply andb_true_iff in Hf.
  destruct Hf as [Hl Hd]. apply Nat.eqb_eq in Hl.
  unfold scan_count, hex_count, scan_X.
  rewrite <- Hl, firstn_all, take_while_all_true by exact Hd.
  destruct field; [discriminate Hl|reflexivity].
Qed.

Lemma sprintf_02X_two (m : nat) :
  (m <= 255)%nat -> length (sprintf_02X (Z.of_nat m)) = 2%nat.
Proof.
  intro Hm.
  assert (count_reads_back (Z.of_nat m) = true) as Hc
      by (apply forall_byte_values; [vm_compute; reflexivity|lia]).
  unfold count_reads_back in Hc.
  destruct (sprintf_02X (Z.of_nat m)) as [|a [|b [|c l]]];
    try discriminate Hc; reflexivity.
Qed.

Section TrackReply.
Context {scalar : Type} `{Numeric scalar} `{Header}.

Local Open Scope nat_scope.
Local Open Scope driver_scope.

Lemma buffer_at_add (d : Driver scalar) (p n : nat) :
  buffer_at d (p + n) = skipn n (buffer_at d p).
Proof. unfold buffer_at. now rewrite skipn_skipn, Nat.add_comm. Qed.

Lemma peek_buffer_at (d : Driver scalar) (p : nat) :
  peek d p = hd x00 (buffer_at d p).
Proof.
  unfold peek, buffer_at. generalize (mSerialBuffer d). clear d.
  induction p as [|p IH]; intros [|b l]; try reflexivity.
  cbn [nth skipn]. apply IH.
Qed.

(** The command of [Track]. *)
Lemma TX_nul_free (stray : bool) :
  ~ In x00 (if stray then lit "TX 1001" else lit "TX 0001").
Proof. destruct stray; vm_compute; intuition discriminate. Qed.

Lemma TX_length (stray : bool) :
  length (if stray then lit "TX 1001" else lit "TX 0001") = 7.
Proof. now destruct stray. Qed.

(** [Track] is its command followed by the reading of the reply. *)
Lemma Track_steps (d : Driver scalar) :
  Track d
  = (CommandSend_str (if mTrackStrayMarkers d then lit "TX 1001"
                      else lit "TX 0001") ;;;
     ResponseRead ;;;
     d <- get ;;
     r <- Track_rows (scan_count (buffer_at d 0))
            (mk_locals 2 [x00; x00; x00] quat_identity vct3_uninitialized
                       frm_identity) ;;
     match r with
     | None => ret tt
     | Some L =>
         if mTrackStrayMarkers d
         then stray_markers_block (parsePointer L) ;;; ret tt
         else ret tt
     end) d.
Proof.
  unfold Track. unfold bind at 1, get at 1.
  now destruct (mTrackStrayMarkers d).
Qed.

(** The data of a row, as the three comparisons of [Track] see it. *)
Lemma row_data_cases (data rest : list byte) :
  is_row_data data = true ->
  (data = lit "MISSING" /\
   strncmp_eq (data ++ rest) (lit "MISSING") 7 = true) \/
  (data = lit "DISABLED" /\
   strncmp_eq (data ++ rest) (lit "MISSING") 7 = false /\
   strncmp_eq (data ++ rest) (lit "DISABLED") 8 = true) \/
  (data = lit "UNOCCUPIED" /\
   strncmp_eq (data ++ rest) (lit "MISSING") 7 = false /\
   strncmp_eq (data ++ rest) (lit "DISABLED") 8 = false /\
   strncmp_eq (data ++ rest) (lit "UNOCCUPIED") 10 = true) \/
  (length data = 51 /\
   strncmp_eq (data ++ rest) (lit "MISSING") 7 = false /\
   strncmp_eq (data ++ rest) (lit "DISABLED") 8 = false /\
   strncmp_eq (data ++ rest) (lit "UNOCCUPIED") 10 = false).
Proof.
  unfold is_row_data. intro Hd.
  apply orb_true_iff in Hd. destruct Hd as [Hd|Hd].
  - apply orb_true_iff in Hd. destruct Hd as [Hd|Hd].
    + apply orb_true_iff in Hd. destruct Hd as [Hd|Hd].
      * apply bytes_eqb_eq in Hd. subst. left. split; reflexivity.
      * apply bytes_eqb_eq in Hd. subst. right. left. repeat split.
    + apply bytes_eqb_eq in Hd. subst. right. right. left. repeat split.
  - apply andb_true_iff in Hd. destruct Hd as [Hl Hs].
    apply Nat.eqb_eq in Hl. right. right. right.
    split; [exact Hl|].
    destruct data as [|c data]; [discriminate Hs|].
    apply orb_true_iff in Hs.
    destruct Hs as [Hs|Hs]; apply Byte.byte_dec_bl in Hs; subst c;
      repeat split.
Qed.

(** One row of a reply: [Track_row] goes to the end of the row, and
    leaves all but the heap, whose size stays. *)
Lemma Track_row_advances (d : Driver scalar) (L : TrackLocals)
  (r : ToolRow) (rest : list byte) :
  row_ok (mPortToTool d) (length (heap d)) r = true ->
  ~ In x00 (row_handle r) ->
  skipn 2 (portHandle L) = [x00] ->
  buffer_at d (parsePointer L) = row_text r ++ rest ->
  exists L' h',
    Track_row L d = Ok (Some L') (set_heap h' d) /\
    parsePointer L' = parsePointer L + length (row_text r) /\
    skipn 2 (portHandle L') = [x00] /\
    length h' = length (heap d).
Proof.
  destruct r as [handle data status frame].
  unfold row_ok, row_text. cbn [row_handle row_data row_status row_frame].
  intros Hok Hnul Hport Hbuf.
  apply andb_true_iff in Hok. destruct Hok as [Hok Hfind].
  apply andb_true_iff in Hok. destruct Hok as [Hok Hframe].
  apply andb_true_iff in Hok. destruct Hok as [Hok Hstatus].
  apply andb_true_iff in Hok. destruct Hok as [Hhandle Hdata].
  apply Nat.eqb_eq in Hhandle, Hstatus, Hframe.
  destruct (map_find handle (mPortToTool d)) as [tool|] eqn:Hmap;
    [|discriminate Hfind].
  apply Nat.ltb_lt in Hfind.
  destruct (split_at (heap d) tool Hfind) as (above & t & below & Hh & Hlen).
  subst tool.
  (* the port handle read *)
  assert (scan_2c (buffer_at d (parsePointer L)) (portHandle L)
          = handle ++ [x00]) as Hscan.
  { unfold scan_2c. rewrite Hbuf.
    destruct handle as [|a [|b [|c handle]]]; try discriminate Hhandle.
    assert (a <> x00) as Ha by (intro E; apply Hnul; left; now rewrite E).
    assert (b <> x00) as Hb
        by (intro E; apply Hnul; right; left; now rewrite E).
    cbn [app cstr].
    replace (is_nul a) with false by (symmetry; now apply is_nul_false).
    replace (is_nul b) with false by (symmetry; now apply is_nul_false).
    cbn [firstn length]. now rewrite Hport. }
  assert (cstr (handle ++ [x00]) = handle) as Hkey
      by now apply cstr_terminated.
  (* the fields behind the data *)
  assert (forall w,
            length data = w ->
            peek d (parsePointer L + 2 + w + 8 + 8) = "010"%byte) as Hpeek.
  { intros w Hw. rewrite peek_buffer_at.
    rewrite (buffer_at_add d (parsePointer L + 2 + w + 8) 8).
    rewrite (buffer_at_add d (parsePointer L + 2 + w) 8).
    rewrite (buffer_at_add d (parsePointer L + 2) w).
    rewrite (buffer_at_add d (parsePointer L) 2), Hbuf.
    rewrite <- !app_assoc.
    rewrite (skipn_app_exact handle _ 2 Hhandle).
    rewrite (skipn_app_exact data _ w Hw).
    rewrite (skipn_app_exact status _ 8 Hstatus).
    rewrite (skipn_app_exact frame _ 8 Hframe). reflexivity. }
  assert (buffer_at d (parsePointer L + 2)
          = data ++ (status ++ frame ++ [LF]) ++ rest) as Hrow.
  { rewrite buffer_at_add, Hbuf, <- !app_assoc.
    now rewrite (skipn_app_exact handle _ 2 Hhandle). }
  assert (length (handle ++ data ++ status ++ frame ++ [LF])
          = 2 + length data + 8 + 8 + 1) as Htotal.
  { rewrite !length_app, Hhandle, Hstatus, Hframe. cbn [length]. lia. }
  unfold Track_row. unfold bind at 1, get at 1.
  cbn [skip parsePointer portHandle].
  rewrite Hscan, Hkey, Hmap, Hrow. unfold bind at 1.
  destruct (row_data_cases data ((status ++ frame ++ [LF]) ++ rest) Hdata)
    as [[Hd C1]|[[Hd (C1 & C2)]|[[Hd (C1 & C2 & C3)]|(Hw & C1 & C2 & C3)]]].
  - assert (length data = 7) as Hw by now rewrite Hd.
    rewrite C1. unfold bind at 1.
    erewrite update_tool_at by eassumption.
    unfold ret at 1. cbn [skip parsePointer portHandle]. unfold bind at 1.
    rewrite (Hpeek 7 Hw).
    change (negb (Byte.eqb "010" "010")) with false. cbv iota.
    destruct (scan_X 8 _) as [n|].
    + erewrite update_tool_at by (fields; reflexivity).
      unfold ret. eexists _, _. split; [f_equal; now destruct d|].
      cbn [skip parsePointer portHandle].
      rewrite Htotal, Hw, Hh, !length_app. cbn [length].
      split; [lia|]. split; [now apply skipn_app_exact|lia].
    + unfold ret. eexists _, _. split; [f_equal; now destruct d|].
      cbn [skip parsePointer portHandle].
      rewrite Htotal, Hw, Hh, !length_app. cbn [length].
      split; [lia|]. split; [now apply skipn_app_exact|lia].
  - assert (length data = 8) as Hw by now rewrite Hd.
    rewrite C1, C2. unfold bind at 1.
    erewrite update_tool_at by eassumption.
    unfold ret at 1. cbn [skip parsePointer portHandle]. unfold bind at 1.
    rewrite (Hpeek 8 Hw).
    change (negb (Byte.eqb "010" "010")) with false. cbv iota.
    destruct (scan_X 8 _) as [n|].
    + erewrite update_tool_at by (fields; reflexivity).
      unfold ret. eexists _, _. split; [f_equal; now destruct d|].
      cbn [skip parsePointer portHandle].
      rewrite Htotal, Hw, Hh, !length_app. cbn [length].
      split; [lia|]. split; [now apply skipn_app_exact|lia].
    + unfold ret. eexists _, _. split; [f_equal; now destruct d|].
      cbn [skip parsePointer portHandle].
      rewrite Htotal, Hw, Hh, !length_app. cbn [length].
      split; [lia|]. split; [now apply skipn_app_exact|lia].
  - assert (length data = 10) as Hw by now rewrite Hd.
    rewrite C1, C2, C3. unfold bind at 1.
    erewrite update_tool_at by eassumption.
    unfold ret at 1. cbn [skip parsePointer portHandle]. unfold bind at 1.
    rewrite (Hpeek 10 Hw).
    change (negb (Byte.eqb "010" "010")) with false. cbv iota.
    destruct (scan_X 8 _) as [n|].
    + erewrite update_tool_at by (fields; reflexivity).
      unfold ret. eexists _, _. split; [f_equal; now destruct d|].
      cbn [skip parsePointer portHandle].
      rewrite Htotal, Hw, Hh, !length_app. cbn [length].
      split; [lia|]. split; [now apply skipn_app_exact|lia].
    + unfold ret. eexists _, _. split; [f_equal; now destruct d|].
      cbn [skip parsePointer portHandle].
      rewrite Htotal, Hw, Hh, !length_app. cbn [length].
      split; [lia|]. split; [now apply skipn_app_exact|lia].
  - rewrite C1, C2, C3.
    destruct (Track_numeric_pose d
                (skip 2 (mk_locals (parsePointer L) (handle ++ [x00])
                                   (toolOrientation L) (toolPosition L)
                                   (tooltipPosition L)))
                above below t Hh)
      as (L1 & t1 & Hrun & Hpp & _ & _).
    assert (portHandle L1 = handle ++ [x00]) as Hph.
    { revert Hrun. unfold Track_numeric, bind, get.
      rewrite (read_tool_at d above below t Hh).
      erewrite update_tool_at by eassumption.
      erewrite update_tool_at by (fields; reflexivity).
      erewrite update_tool_at by (fields; reflexivity).
      erewrite update_tool_at by (fields; reflexivity).
      erewrite read_tool_at by (fields; reflexivity).
      erewrite update_tool_at by (fields; reflexivity).
      erewrite update_tool_at by (fields; reflexivity).
      unfold ret. intros [= <- _]. reflexivity. }
    rewrite Hrun. unfold bind at 1.
    cbn [skip parsePointer] in Hpp.
    cbn [skip parsePointer portHandle]. rewrite Hpp.
    replace (parsePointer L + 2 + 59 + 8)
      with (parsePointer L + 2 + 51 + 8 + 8) by lia.
    rewrite (Hpeek 51 Hw).
    change (negb (Byte.eqb "010" "010")) with false. cbv iota.
    destruct (scan_X 8 _) as [n|].
    + erewrite update_tool_at by (fields; reflexivity).
      unfold ret. eexists _, _. split; [f_equal; now destruct d|].
      cbn [skip parsePointer portHandle].
      rewrite Htotal, Hw, Hh, Hph, Hpp, !length_app. cbn [length].
      split; [lia|]. split; [now apply skipn_app_exact|lia].
    + unfold ret at 1.
      unfold ret. eexists _, _. split; [f_equal; now destruct d|].
      cbn [skip parsePointer portHandle].
      rewrite Htotal, Hw, Hh, Hph, Hpp, !length_app. cbn [length].
      split; [lia|]. split; [now apply skipn_app_exact|lia].
Qed.

(** The rows of a reply: [Track_rows] goes to the end of the last one. *)
Lemma Track_rows_advance (rows : list ToolRow) :
  forall (d : Driver scalar) (L : TrackLocals) (rest : list byte),
    forallb (row_ok (mPortToTool d) (length (heap d))) rows = true ->
    ~ In x00 (flat_map row_text rows) ->
    skipn 2 (portHandle L) = [x00] ->
    buffer_at d (parsePointer L) = flat_map row_text rows ++ rest ->
    exists L' h',
      Track_rows (length rows) L d = Ok (Some L') (set_heap h' d) /\
      parsePointer L' = parsePointer L + length (flat_map row_text rows) /\
      length h' = length (heap d).
Proof.
  induction rows as [|r rows IH]; intros d L rest Hok Hnul Hport Hbuf.
  - exists L, (heap d). cbn [length Track_rows flat_map]. unfold ret.
    split; [f_equal; now destruct d|]. split; [lia|reflexivity].
  - cbn [forallb] in Hok. apply andb_true_iff in Hok.
    destruct Hok as [Hr Hrows].
    cbn [flat_map] in Hnul, Hbuf. rewrite <- app_assoc in Hbuf.
    assert (~ In x00 (row_handle r)) as Hh.
    { intro Hin. apply Hnul. apply in_or_app. left. unfold row_text.
      apply in_or_app. now left. }
    destruct (Track_row_advances d L r _ Hr Hh Hport Hbuf)
      as (L1 & h1 & Hrun & Hpp & Hport1 & Hlen1).
    destruct (IH (set_heap h1 d) L1 rest) as (L2 & h2 & Hrun2 & Hpp2 & Hlen2).
    + fields. now rewrite Hlen1.
    + intro Hin. apply Hnul. apply in_or_app. now right.
    + exact Hport1.
    + rewrite Hpp, buffer_at_add. unfold buffer_at in *. fields.
      rewrite Hbuf. now apply skipn_app_exact.
    + exists L2, h2. cbn [length Track_rows flat_map].
      erewrite bind_Ok by exact Hrun. cbv beta iota. rewrite Hrun2.
      split; [f_equal; now destruct d|].
      rewrite Hpp2, Hpp, length_app. fields. split; [lia|congruence].
Qed.

(** [Track] with the stray markers on, on a reply whose rows are well
    formed: the stray-marker block is reached, at the text behind the
    rows, with the matrix as it was. *)
Lemma Track_reaches_block (d : Driver scalar) (rows : list ToolRow)
  (block : list byte) (queue : list (list byte)) :
  mTrackStrayMarkers d = true ->
  incoming (mSerialPort d) = framed (TX_reply rows block) :: queue ->
  9 <= length (mSerialBuffer d) ->
  length (TX_reply rows block) + 5 <= length (mSerialBuffer d) ->
  ~ In x00 (TX_reply rows block) ->
  length rows <= 255 ->
  forallb (row_ok (mPortToTool d) (length (heap d))) rows = true ->
  exists d3 p more,
    Track d = (stray_markers_block p ;;; ret tt) d3 /\
    mStrayMarkers d3 = mStrayMarkers d /\
    written (mSerialPort d3)
    = written (mSerialPort d) ++ [lit "TX 1001" ++ ["013"%byte]] /\
    buffer_at d3 p = block ++ x00 :: more.
Proof.
  intros Hstray Hin Hnine Hfit Hnul Hrows Hok.
  pose proof (sprintf_02X_two (length rows) Hrows) as Hc2.
  rewrite Track_steps, Hstray.
  erewrite bind_Ok;
    [|apply CommandSend_str_run; [apply (TX_nul_free true)|]];
    [|change (length (lit "TX 1001") + 2) with 9; exact Hnine].
  erewrite bind_Ok;
    [|apply (ResponseRead_framed _ (TX_reply rows block) queue);
      [ goal_fields; exact Hin
      | goal_fields; rewrite length_app; cbn [length]; rewrite length_skipn;
        change (length (lit "TX 1001")) with 7; lia
      | exact Hnul ]].
  erewrite bind_Ok; [|reflexivity].
  match goal with
  | |- context [Track_rows (scan_count (buffer_at ?s 0))] => set (d2 := s)
  end.
  assert (exists more,
            mSerialBuffer d2
            = sprintf_02X (Z.of_nat (length rows))
                ++ flat_map row_text rows ++ block ++ x00 :: more)
    as [more Hbuf].
  { subst d2. goal_fields. eexists. unfold TX_reply.
    rewrite <- !app_assoc. reflexivity. }
  assert (scan_count (buffer_at d2 0) = length rows) as ->.
  { unfold buffer_at. cbn [skipn]. rewrite Hbuf.
    apply scan_count_printed; lia. }
  assert (mPortToTool d2 = mPortToTool d /\ heap d2 = heap d /\
          mStrayMarkers d2 = mStrayMarkers d /\
          mTrackStrayMarkers d2 = true /\
          written (mSerialPort d2)
          = written (mSerialPort d) ++ [lit "TX 1001" ++ ["013"%byte]])
    as (Hp2 & Hh2 & Hs2 & Ht2 & Hw2).
  { subst d2. goal_fields. repeat split. exact Hstray. }
  destruct (Track_rows_advance rows d2
              (mk_locals 2 [x00; x00; x00] quat_identity vct3_uninitialized
                         frm_identity)
              (block ++ x00 :: more))
    as (L' & h' & Hrun & Hpp & Hlen).
  - rewrite Hp2, Hh2. exact Hok.
  - intro Hx. apply Hnul. unfold TX_reply.
    apply in_or_app. right. apply in_or_app. left. exact Hx.
  - reflexivity.
  - cbn [parsePointer]. unfold buffer_at. rewrite Hbuf.
    rewrite (skipn_app_exact _ _ 2 Hc2). reflexivity.
  - erewrite bind_Ok by exact Hrun. cbv beta iota.
    rewrite Ht2.
    exists (set_heap h' d2), (parsePointer L'), more.
    split; [reflexivity|]. split; [exact Hs2|]. split; [exact Hw2|].
    rewrite Hpp. cbn [parsePointer]. unfold buffer_at. goal_fields.
    rewrite Hbuf.
    replace (2 + length (flat_map row_text rows))
      with (length (flat_map row_text rows) + 2) by lia.
    rewrite <- skipn_skipn.
    rewrite (skipn_app_exact _ _ 2 Hc2).
    apply skipn_app_exact. reflexivity.
Qed.

(** C7. After [Track], with the stray markers on, has parsed the reply to
    its [TX 1001] that carries well-formed rows for the port handles and
    then reports [m <= 50] stray markers (the two-digit count, [ceil(m/4)]
    packed out-of-volume bytes and [m] position records of three
    7-character fixed-point coordinates): rows [0 .. m-1] of the 50 x 5
    matrix hold 1.0 in column 0, in column 1 the visibility of the marker
    (each packed byte inverted, its bits 3..0 read as the slots
    [4q+0 .. 4q+3], the first [4 * ceil(m/4) - m] slots skipped) and in
    columns 2..4 the coordinates divided by 100; rows [m .. 49] are all
    zeros.  With [m = 3] and the packed byte [0x0E] the visibilities are
    [0, 0, 1]. *)
Theorem Track_stray_markers_matrix (d : Driver scalar)
  (rows : list ToolRow) (oov : list byte) (positions : list (Z * Z * Z))
  (tail : list byte) (queue : list (list byte)) :
  let reply := TX_reply rows (stray_block oov positions tail) in
  mTrackStrayMarkers d = true ->
  incoming (mSerialPort d) = framed reply :: queue ->
  length reply + 5 <= length (mSerialBuffer d) ->
  ~ In x00 reply ->
  length rows <= 255 ->
  forallb (row_ok (mPortToTool d) (length (heap d))) rows = true ->
  length positions <= 50 ->
  five_columns 50 (mStrayMarkers d) ->
  length oov = ceil_quarter (length positions) ->
  Forall position_fits positions ->
  exists d',
    Track d = Ok tt d' /\
    written (mSerialPort d')
    = written (mSerialPort d) ++ [lit "TX 1001" ++ ["013"%byte]] /\
    length (mStrayMarkers d') = 50 /\
    (forall i x y z,
        nth_error positions i = Some (x, y, z) ->
        nth_error (mStrayMarkers d') i
        = Some [of_Z 1;
                of_bool (spec_visibility oov (length positions) i);
                fdiv (of_Z x) (of_Z 100);
                fdiv (of_Z y) (of_Z 100);
                fdiv (of_Z z) (of_Z 100)]) /\
    (forall i, length positions <= i < 50 ->
               nth_error (mStrayMarkers d') i = Some (repeat (of_Z 0) 5)) /\
    map (spec_visibility [x0e] 3) [0; 1; 2] = [false; false; true].
Proof.
  intros reply Hstray Hin Hfit Hnul Hrows Hok Hm Hshape Hoov Hpos.
  assert (9 <= length (mSerialBuffer d)) as Hnine.
  { subst reply. unfold TX_reply, stray_block in Hfit.
    rewrite !length_app, !sprintf_02X_two in Hfit by lia. lia. }
  destruct (Track_reaches_block d rows (stray_block oov positions tail) queue
              Hstray Hin Hnine Hfit Hnul Hrows Hok)
    as (d3 & p & more & Hrun & Hs3 & Hw3 & Hbuf).
  assert (five_columns 50 (mStrayMarkers d3)) as Hshape3
      by (rewrite Hs3; exact Hshape).
  assert (buffer_at d3 p
          = sprintf_02X (Z.of_nat (length positions)) ++ oov
              ++ flat_map position_record positions ++ tail ++ x00 :: more)
    as Hbuf3.
  { rewrite Hbuf. unfold stray_block. rewrite <- !app_assoc. reflexivity. }
  destruct (stray_markers_block_rows d3 p oov positions (tail ++ x00 :: more)
              Hm Hshape3 Hoov Hpos Hbuf3)
    as (p' & d' & Hblock & Hlen & Hfilled & Hzero & Hbits).
  exists d'. rewrite Hrun. unfold bind at 1. rewrite Hblock.
  split; [reflexivity|].
  split; [|split; [exact Hlen|split; [exact Hfilled|split;
                                                   [exact Hzero|exact Hbits]]]].
  assert (scan_count (buffer_at d3 p) = length positions) as Hcount
      by (rewrite Hbuf3; apply scan_count_printed; lia).
  pose proof (stray_markers_block_run d3 p 50 Hshape3) as Hexact.
  cbv zeta in Hexact. rewrite Hcount in Hexact. specialize (Hexact Hm).
  rewrite Hexact in Hblock. injection Hblock as _ <-. exact Hw3.
Qed.

(** C10. In the stray-marker block of [Track] the count of markers, two
    hexadecimal digits, can be as large as 255 and is not compared with
    the number of rows of the matrix.  Over the matrix of 50 rows that
    [Init] sets up, and on a reply whose rows for the port handles are
    well formed, every row write is inside the matrix exactly when the
    count is at most 50: then [Track] runs to its end, and with a greater
    count it writes the row of index 50, outside the matrix. *)
Theorem Track_stray_rows_in_bounds (d : Driver scalar)
  (rows : list ToolRow) (count rest : list byte)
  (queue : list (list byte)) :
  let reply := TX_reply rows (count ++ rest) in
  let m := hex_count count in
  mTrackStrayMarkers d = true ->
  incoming (mSerialPort d) = framed reply :: queue ->
  length reply + 5 <= length (mSerialBuffer d) ->
  ~ In x00 reply ->
  length rows <= 255 ->
  forallb (row_ok (mPortToTool d) (length (heap d))) rows = true ->
  five_columns 50 (mStrayMarkers d) ->
  two_hex_digits count = true ->
  m <= 255 /\
  (m <= 50 -> exists d', Track d = Ok tt d') /\
  (50 < m -> Track d = Crash (MatrixRange 50)) /\
  ((exists d', Track d = Ok tt d') -> m <= 50).
Proof.
  intros reply m Hstray Hin Hfit Hnul Hrows Hok Hshape Hcount.
  assert (length count = 2) as Hc2.
  { unfold two_hex_digits in Hcount. apply andb_true_iff in Hcount.
    apply Nat.eqb_eq. exact (proj1 Hcount). }
  assert (9 <= length (mSerialBuffer d)) as Hnine.
  { subst reply. unfold TX_reply in Hfit.
    rewrite !length_app, sprintf_02X_two in Hfit by lia. lia. }
  destruct (Track_reaches_block d rows (count ++ rest) queue
              Hstray Hin Hnine Hfit Hnul Hrows Hok)
    as (d3 & p & more & Hrun & Hs3 & _ & Hbuf).
  assert (five_columns 50 (mStrayMarkers d3)) as Hshape3
      by (rewrite Hs3; exact Hshape).
  assert (scan_count (buffer_at d3 p) = m) as Hm.
  { rewrite Hbuf, <- app_assoc, scan_count_field by exact Hc2.
    apply scan_count_hex_count. exact Hcount. }
  assert (m <= 255) as Hrange by (rewrite <- Hm; apply scan_count_range).
  pose proof (stray_markers_block_run d3 p 50 Hshape3) as Hin_bounds.
  pose proof (stray_markers_block_overrun d3 p 50 Hshape3) as Hout.
  cbv zeta in Hin_bounds. rewrite Hm in Hin_bounds, Hout.
  split; [exact Hrange|]. split; [|split].
  - intro Hle. rewrite Hrun. unfold bind. rewrite (Hin_bounds Hle).
    eexists. reflexivity.
  - intro Hgt. rewrite Hrun. unfold bind. rewrite (Hout Hgt). reflexivity.
  - intros (d' & Hret).
    destruct (le_lt_dec m 50) as [Hle|Hgt]; [exact Hle|].
    rewrite Hrun in Hret. unfold bind in Hret.
    rewrite (Hout Hgt) in Hret. discriminate Hret.
Qed.

End TrackReply.

(* ------------------------------------------------------------------ *)
(** *** The theorems at work *)

Lemma Track_row_numeric_pose_witness :
  exists r d' t',
    Track_row first_row probe_driver = Ok r d' /\
    nth_error (heap d') 0 = Some t' /\
    Valid (MarkerPosition t') = true /\
    Valid (TooltipPosition t') = true /\
    Rotation (Position (TooltipPosition t'))
    = Rotation (Position (MarkerPosition t')) /\
    Translation (Position (TooltipPosition t'))
    = vct3_Add (Translation (Position (MarkerPosition t')))
               (RotApply (Rotation (Position (MarkerPosition t')))
                         (TooltipOffset probe)).
Proof.
  apply (Track_row_numeric_pose probe_driver first_row 0%nat probe);
    reflexivity.
Defined.

(** A text without NUL, by inspection. *)
Lemma not_In_nul (text : list byte) :
  forallb (fun b => negb (is_nul b)) text = true -> ~ In x00 text.
Proof.
  intros Hall Hin. rewrite forallb_forall in Hall.
  specialize (Hall x00 Hin). discriminate Hall.
Qed.

Lemma Track_stray_markers_matrix_witness :
  exists d',
    Track (tracking_driver
             [framed (TX_reply [probe_row]
                        (stray_block [x0e] three_positions (lit "0000")))])
    = Ok tt d' /\
    written (mSerialPort d') = [lit "TX 1001" ++ ["013"%byte]] /\
    length (mStrayMarkers d') = 50%nat /\
    (forall i x y z,
        nth_error three_positions i = Some (x, y, z) ->
        nth_error (mStrayMarkers d') i
        = Some [of_Z 1;
                of_bool (spec_visibility [x0e] 3 i);
                fdiv (of_Z x) (of_Z 100);
                fdiv (of_Z y) (of_Z 100);
                fdiv (of_Z z) (of_Z 100)]) /\
    (forall i, (3 <= i < 50)%nat ->
               nth_error (mStrayMarkers d') i = Some (repeat (of_Z 0) 5)) /\
    map (spec_visibility [x0e] 3) [0; 1; 2]%nat = [false; false; true].
Proof.
  apply (Track_stray_markers_matrix
           (tracking_driver
              [framed (TX_reply [probe_row]
                         (stray_block [x0e] three_positions (lit "0000")))])
           [probe_row] [x0e] three_positions (lit "0000") []).
  - reflexivity.
  - reflexivity.
  - apply Nat.leb_le. vm_compute. reflexivity.
  - apply not_In_nul. vm_compute. reflexivity.
  - simpl. lia.
  - reflexivity.
  - simpl. lia.
  - apply (Init_five_columns (scalar := Q)).
  - reflexivity.
  - repeat constructor; unfold fits_field; simpl; lia.
Defined.

(** [Track] over the same reply, as the device sends it. *)
Example Track_three_markers :
  option_map (fun d => firstn 4 (mStrayMarkers d))
    (final (Track (driver_with
                     [framed (lit "00" ++ three_markers ++ lit "0000")])))
  = Some [[1; 0; 2469 # 20; - 1 # 2; 0];
          [1; 0; 1 # 100; 1 # 50; 3 # 100];
          [1; 1; - 1 # 100; - 1 # 50; - 3 # 100];
          [0; 0; 0; 0; 0]]%Q.
Proof. vm_compute. reflexivity. Qed.

(** [Track] over that reply leaves the matrix. *)
Example Track_fifty_one_markers :
  Track (driver_with [framed (lit "00" ++ fifty_one_markers ++ lit "0000")])
  = Crash (MatrixRange 50).
Proof. vm_compute. reflexivity. Qed.

Lemma Track_stray_rows_in_bounds_witness :
  hex_count (lit "33") = 51%nat /\
  Track (driver_with
           [framed (TX_reply []
                      (lit "33" ++ repeat "0"%byte 13
                         ++ flat_map position_record (repeat (0, 0, 0) 51)
                         ++ lit "0000"))])
  = Crash (MatrixRange 50) /\
  (exists d',
      Track (driver_with
               [framed (TX_reply []
                          (lit "03" ++ [x0e]
                             ++ flat_map position_record three_positions
                             ++ lit "0000"))])
      = Ok tt d').
Proof.
  split; [reflexivity|split].
  - refine (proj1 (proj2 (proj2
              (Track_stray_rows_in_bounds
                 (driver_with
                    [framed (TX_reply []
                               (lit "33" ++ repeat "0"%byte 13
                                  ++ flat_map position_record
                                       (repeat (0, 0, 0) 51)
                                  ++ lit "0000"))])
                 [] (lit "33")
                 (repeat "0"%byte 13
                    ++ flat_map position_record (repeat (0, 0, 0) 51)
                    ++ lit "0000")
                 [] _ _ _ _ _ _ _ _))) _).
    + reflexivity.
    + reflexivity.
    + apply Nat.leb_le. vm_compute. reflexivity.
    + apply not_In_nul. vm_compute. reflexivity.
    + simpl. lia.
    + reflexivity.
    + apply (Init_five_columns (scalar := Q)).
    + reflexivity.
    + apply Nat.ltb_lt. reflexivity.
  - refine (proj1 (proj2
              (Track_stray_rows_in_bounds
                 (driver_with
                    [framed (TX_reply []
                               (lit "03" ++ [x0e]
                                  ++ flat_map position_record three_positions
                                  ++ lit "0000"))])
                 [] (lit "03")
                 ([x0e] ++ flat_map position_record three_positions
                    ++ lit "0000")
                 [] _ _ _ _ _ _ _ _)) _).
    + reflexivity.
    + reflexivity.
    + apply Nat.leb_le. vm_compute. reflexivity.
    + apply not_In_nul. vm_compute. reflexivity.
    + simpl. lia.
    + reflexivity.
    + apply (Init_five_columns (scalar := Q)).
    + reflexivity.
    + apply Nat.leb_le. reflexivity.
Defined.


Lemma AddTool_registry_witness :
  (* the serial number is known *)
  returned (AddTool (lit "other") (lit "12345678") [] registry_driver)
  = Some (Some 0%nat) /\
  option_map (fun d => (heap d, mTools d, mToolNames d))
    (final (AddTool (lit "other") (lit "12345678") [] registry_driver))
  = Some (heap registry_driver, mTools registry_driver,
          mToolNames registry_driver) /\
  (* the name is taken *)
  returned (AddTool (lit "02-12345678") (lit "11111111") [] registry_driver)
  = Some None /\
  option_map (fun d => (heap d, mTools d, mToolNames d))
    (final (AddTool (lit "02-12345678") (lit "11111111") [] registry_driver))
  = Some (heap registry_driver, mTools registry_driver,
          mToolNames registry_driver) /\
  (* a new tool *)
  returned (AddTool (lit "01-11111111") (lit "11111111") (lit "a.rom")
              registry_driver)
  = Some (Some 1%nat) /\
  option_map mToolNames
    (final (AddTool (lit "01-11111111") (lit "11111111") (lit "a.rom")
              registry_driver))
  = Some [lit "01-11111111"; lit "02-12345678"].
Proof.
  pose proof (AddTool_registry registry_driver (lit "other") (lit "12345678")
                []) as Known.
  pose proof (AddTool_registry registry_driver (lit "02-12345678")
                (lit "11111111") []) as Taken.
  pose proof (AddTool_registry registry_driver (lit "01-11111111")
                (lit "11111111") (lit "a.rom")) as Fresh.
  change (CheckTool (lit "12345678") registry_driver) with (Some 0%nat)
    in Known.
  change (CheckTool (lit "11111111") registry_driver) with (@None ToolPtr)
    in Taken, Fresh.
  change (map_find (lit "02-12345678") (mTools registry_driver))
    with (Some 0%nat) in Taken.
  change (map_find (lit "01-11111111") (mTools registry_driver))
    with (@None ToolPtr) in Fresh.
  cbv beta iota zeta in Known, Taken, Fresh.
  destruct Known as [_ Known]. destruct Taken as [_ Taken].
  destruct Fresh as [_ [Fresh _]].
  rewrite Known, Taken, Fresh. repeat split.
Defined.
(* ================================================================== *)
(** * More of the driver *)

(** ** Commands under construction *)

Section CommandFacts.
Context {scalar : Type}.

Local Open Scope nat_scope.
Local Open Scope driver_scope.

Lemma CommandAppend_at (d : Driver scalar) (a rest c : list byte) :
  mSerialBuffer d = a ++ rest ->
  mSerialBufferPointer d = length a ->
  ~ In x00 c ->
  length c <= length rest ->
  CommandAppend c d
  = Ok tt (set_pointer (length (a ++ c))
             (set_buffer ((a ++ c) ++ skipn (length c) rest) d)).
Proof.
  intros Hbuf Hp Hn Hlen.
  unfold CommandAppend, bind, gets, advance, modify.
  rewrite strlen_nul_free, strncpy_whole by assumption.
  rewrite Hp, (poke_all_at c a rest d Hbuf Hlen).
  fields. rewrite Hp, length_app, <- app_assoc. reflexivity.
Qed.

Lemma CommandAppend_char_at (d : Driver scalar) (a rest : list byte)
  (c : byte) :
  mSerialBuffer d = a ++ rest ->
  mSerialBufferPointer d = length a ->
  1 <= length rest ->
  CommandAppend_char c d
  = Ok tt (set_pointer (length (a ++ [c]))
             (set_buffer ((a ++ [c]) ++ skipn 1 rest) d)).
Proof.
  intros Hbuf Hp Hlen.
  destruct rest as [|r0 rest]; [simpl in Hlen; lia|].
  unfold CommandAppend_char, bind, gets, advance, modify.
  rewrite Hp, (poke_at d a rest r0 c Hbuf).
  fields. rewrite Hp, length_app, <- app_assoc. reflexivity.
Qed.

Lemma CommandSend_at (d : Driver scalar) (a rest : list byte) :
  mSerialBuffer d = a ++ rest ->
  mSerialBufferPointer d = length a ->
  ~ In x00 a ->
  2 <= length rest ->
  CommandSend d
  = Ok true
      (set_port (mk_port (written (mSerialPort d) ++ [a ++ ["013"%byte]])
                         (incoming (mSerialPort d)))
         (set_pointer (length a + 2)
            (set_buffer (a ++ "013"%byte :: x00 :: skipn 2 rest) d))).
Proof.
  intros Hbuf Hp Hn Hlen.
  destruct rest as [|r0 [|r1 rest]]; [simpl in Hlen; lia|simpl in Hlen; lia|].
  unfold CommandSend, bind.
  rewrite (CommandAppend_char_at d a (r0 :: r1 :: rest) "013"%byte Hbuf Hp)
    by (simpl; lia).
  erewrite (CommandAppend_char_at _ (a ++ ["013"%byte]) (r1 :: rest) x00);
    [| fields; reflexivity | fields; reflexivity | simpl; lia].
  unfold gets, Write, bind, modify, ret. fields.
  cbn [skipn].
  assert (strlen (((a ++ ["013"%byte]) ++ [x00]) ++ rest)
          = length (a ++ ["013"%byte])) as Hs.
  { unfold strlen. rewrite <- app_assoc. cbn [app].
    rewrite cstr_terminated; [reflexivity|].
    intro Hin. apply in_app_or in Hin. destruct Hin as [Hin|[Hin|[]]].
    - now apply Hn.
    - discriminate. }
  rewrite Hs.
  rewrite <- !app_assoc. rewrite firstn_app.
  rewrite firstn_all2 by (rewrite !length_app; simpl; lia).
  replace (length (a ++ ["013"%byte]) - length a) with 1
    by (rewrite length_app; simpl; lia).
  cbn [app firstn].
  rewrite length_app. cbn [length].
  rewrite Nat.eqb_refl. cbn [negb].
  rewrite !length_app. cbn [length].
  replace (length a + 1 + 1) with (length a + 2) by lia.
  reflexivity.
Qed.

End CommandFacts.

(* ------------------------------------------------------------------ *)
(** ** Replies and their CRC *)

Section ReplyFacts.
Context {scalar : Type}.

Local Open Scope nat_scope.
Local Open Scope driver_scope.

(** X1.  [ComputeCRC] and [ResponseCheckCRC]: the CRC of any data is a
    16-bit value, so [%04X] writes it in exactly four upper-case
    hexadecimal digits, and these read back as the CRC: the four
    characters [ResponseCheckCRC] compares never lose a digit of it. *)
Theorem ComputeCRC_prints_in_four_digits (data : list byte) :
  (0 <= ComputeCRC data < 65536)%Z /\
  length (sprintf_04X (ComputeCRC data)) = 4 /\
  forallb is_upper_hex_digit (sprintf_04X (ComputeCRC data)) = true /\
  hex_number (sprintf_04X (ComputeCRC data)) = Some (ComputeCRC data).
Proof.
  split; [apply ComputeCRC_range|].
  apply sprintf_04X_reads_back, ComputeCRC_range.
Qed.

(** X2.  [ResponseRead] on a reply made of a payload, four characters and
    a carriage return: the result is [true] exactly when the four
    characters are the CRC of the payload as [%04X] prints it.  Either
    way the reply is taken off the link and the payload is left in the
    buffer as a C string, with the cursor behind its terminator. *)
Theorem ResponseRead_true_iff_CRC (d : Driver scalar)
  (payload c : list byte) (queue : list (list byte)) :
  incoming (mSerialPort d) = (payload ++ c ++ ["013"%byte]) :: queue ->
  length payload + 5 <= length (mSerialBuffer d) ->
  length c = 4 ->
  ~ In x00 c ->
  ~ In x00 payload ->
  exists ok d',
    ResponseRead d = Ok ok d' /\
    (ok = true <-> c = sprintf_04X (ComputeCRC payload)) /\
    cstr (mSerialBuffer d') = payload /\
    mSerialBufferPointer d' = length payload + 1 /\
    incoming (mSerialPort d') = queue /\
    written (mSerialPort d') = written (mSerialPort d).
Proof.
  intros Hin Hlen Hc Hnc Hnp.
  rewrite (ResponseRead_run d payload c [] queue Hin Hlen Hc).
  erewrite ResponseCheckCRC_run;
    [| fields; reflexivity | fields; reflexivity | assumption | assumption
     | assumption ].
  cbv zeta.
  destruct (bytes_eqb c (sprintf_04X (ComputeCRC payload))) eqn:E.
  - eexists _, _. split; [reflexivity|]. fields.
    split; [split; [intros _; now apply bytes_eqb_eq | reflexivity]|].
    split; [now apply cstr_terminated|]. repeat split.
  - eexists _, _. split; [reflexivity|]. fields.
    split; [split; [discriminate|]|].
    { intros ->. rewrite bytes_eqb_refl in E. discriminate. }
    split; [now apply cstr_terminated|]. repeat split.
Qed.

(** X3.  [ResponseRead] and [ResponseCheckCRC]: a reply of fewer than five
    bytes that ends in a carriage return passes for a complete message,
    and [ResponseCheckCRC] then places [crcPointer] before the start of
    the serial buffer: the length of a reply is never checked against
    [CRC_SIZE + 1]. *)
Theorem ResponseRead_short_reply_leaves_buffer (d : Driver scalar)
  (body : list byte) (queue : list (list byte)) :
  incoming (mSerialPort d) = (body ++ ["013"%byte]) :: queue ->
  length body < 4 ->
  length body + 1 <= length (mSerialBuffer d) ->
  ResponseRead d = Crash BufferRange.
Proof.
  intros Hin Hshort Hlen.
  unfold ResponseRead, Read, bind, modify, get, ret. fields.
  rewrite Hin.
  unfold GetSerialBufferAvailableSize, GetSerialBufferSize. fields.
  rewrite Nat.sub_0_r.
  rewrite firstn_all2 by (rewrite length_app; simpl; lia).
  rewrite poke_all_start by (fields; rewrite length_app; simpl; lia).
  fields.
  assert (length (body ++ ["013"%byte]) = length body + 1) as Hl
      by (rewrite length_app; reflexivity).
  rewrite Hl.
  replace (0 <? length body + 1) with true
    by (symmetry; apply Nat.ltb_lt; lia).
  unfold advance, modify, peek, GetSerialBufferSize. fields.
  cbn [Nat.add].
  replace (0 <? length body + 1) with true
    by (symmetry; apply Nat.ltb_lt; lia).
  replace (length body + 1 - 1) with (length body) by lia.
  rewrite <- app_assoc, app_nth2, Nat.sub_diag by lia.
  cbn [app nth andb].
  change (negb (Byte.eqb "013" "013")) with false. cbv iota.
  unfold ResponseCheckCRC, bind, gets, crash. fields.
  change CRC_SIZE with 4.
  replace (length body + 1 <? 4 + 1) with true
    by (symmetry; apply Nat.ltb_lt; lia).
  reflexivity.
Qed.

(** X4.  [CommandAppend(const char * )] twice is [CommandAppend] of the
    two commands joined, as long as both fit behind the cursor. *)
Theorem CommandAppend_twice (d : Driver scalar) (a b : list byte) :
  ~ In x00 a ->
  ~ In x00 b ->
  mSerialBufferPointer d + length a + length b <= length (mSerialBuffer d) ->
  (CommandAppend a ;;; CommandAppend b) d = CommandAppend (a ++ b) d.
Proof.
  intros Ha Hb Hlen.
  set (p := mSerialBufferPointer d) in *.
  assert (mSerialBuffer d
          = firstn p (mSerialBuffer d) ++ skipn p (mSerialBuffer d)) as Hbuf
      by (symmetry; apply firstn_skipn).
  assert (length (firstn p (mSerialBuffer d)) = p) as Hp
      by (rewrite length_firstn; lia).
  assert (length (skipn p (mSerialBuffer d)) = length (mSerialBuffer d) - p)
    as Hrest by apply length_skipn.
  unfold bind at 1.
  rewrite (CommandAppend_at d _ _ a Hbuf (eq_sym Hp) Ha) by lia.
  erewrite (CommandAppend_at _ _ _ b);
    [| fields; reflexivity | fields; reflexivity | assumption
     | rewrite length_skipn; lia ].
  rewrite (CommandAppend_at d _ _ (a ++ b) Hbuf (eq_sym Hp)).
  - unfold set_pointer, set_buffer. fields.
    rewrite skipn_skipn, !length_app, <- !app_assoc.
    rewrite (Nat.add_comm (length b)), Nat.add_assoc. reflexivity.
  - intro Hin. apply in_app_or in Hin. tauto.
  - rewrite length_app. lia.
Qed.

End ReplyFacts.

(* ------------------------------------------------------------------ *)
(** ** The registry of tools *)

Lemma byte_to_Z_inj (x y : byte) : byte_to_Z x = byte_to_Z y -> x = y.
Proof.
  unfold byte_to_Z. intro E.
  assert (Byte.to_N x = Byte.to_N y) as E' by lia.
  pose proof (Byte.of_to_N x) as Hx. pose proof (Byte.of_to_N y) as Hy.
  rewrite E' in Hx. congruence.
Qed.

Lemma bytes_eqb_sym (a b : list byte) : bytes_eqb a b = bytes_eqb b a.
Proof.
  destruct (bytes_eqb a b) eqn:E1, (bytes_eqb b a) eqn:E2; try reflexivity.
  - apply bytes_eqb_eq in E1. subst. rewrite bytes_eqb_refl in E2.
    discriminate.
  - apply bytes_eqb_eq in E2. subst. rewrite bytes_eqb_refl in E1.
    discriminate.
Qed.

Lemma bytes_ltb_irrefl (a : list byte) : bytes_ltb a a = false.
Proof.
  induction a as [|x a IH]; [reflexivity|].
  cbn [bytes_ltb]. rewrite Z.ltb_irrefl. exact IH.
Qed.

Lemma bytes_ltb_trans (a b c : list byte) :
  bytes_ltb a b = true -> bytes_ltb b c = true -> bytes_ltb a c = true.
Proof.
  revert b c. induction a as [|x a IH]; intros [|y b] [|z c];
    cbn [bytes_ltb]; try discriminate; try reflexivity.
  destruct (Z.ltb_spec (byte_to_Z x) (byte_to_Z y)),
           (Z.ltb_spec (byte_to_Z y) (byte_to_Z x)),
           (Z.ltb_spec (byte_to_Z y) (byte_to_Z z)),
           (Z.ltb_spec (byte_to_Z z) (byte_to_Z y)),
           (Z.ltb_spec (byte_to_Z x) (byte_to_Z z)),
           (Z.ltb_spec (byte_to_Z z) (byte_to_Z x));
    try discriminate; try reflexivity; try lia.
  apply IH.
Qed.

Lemma bytes_ltb_total (a b : list byte) :
  bytes_ltb a b = false -> bytes_eqb a b = false -> bytes_ltb b a = true.
Proof.
  revert b. induction a as [|x a IH]; intros [|y b];
    cbn [bytes_ltb bytes_eqb]; try discriminate; try reflexivity.
  destruct (Z.ltb_spec (byte_to_Z x) (byte_to_Z y)),
           (Z.ltb_spec (byte_to_Z y) (byte_to_Z x));
    try discriminate; try reflexivity; try lia.
  assert (x = y) as -> by (apply byte_to_Z_inj; lia).
  rewrite byte_eqb_refl. cbn [andb]. apply IH.
Qed.

Lemma In_map_insert (key : list byte) (v : ToolPtr)
  (m : list (list byte * ToolPtr)) (x : list byte * ToolPtr) :
  In x (map_insert key v m) <-> x = (key, v) \/ In x m.
Proof.
  induction m as [|[k w] rest IH]; cbn [map_insert].
  - simpl. intuition congruence.
  - destruct (bytes_ltb key k).
    + simpl. intuition congruence.
    + simpl. rewrite IH. intuition congruence.
Qed.

Lemma map_find_None (key : list byte) (m : list (list byte * ToolPtr)) :
  map_find key m = None <->
  forall k v, In (k, v) m -> bytes_eqb k key = false.
Proof.
  induction m as [|[k w] rest IH]; cbn [map_find].
  - split; [intros _ k v []|reflexivity].
  - destruct (bytes_eqb k key) eqn:E.
    + split; [discriminate|]. intro Hall.
      rewrite (Hall k w) in E by (left; reflexivity). discriminate.
    + rewrite IH. split.
      * intros Hall k' v' [[= <- <-]|Hin]; [exact E|eauto].
      * intros Hall k' v' Hin. apply (Hall k' v'). now right.
Qed.

Lemma map_find_Some (key : list byte) (m : list (list byte * ToolPtr))
  (v : ToolPtr) :
  map_find key m = Some v -> In (key, v) m.
Proof.
  induction m as [|[k w] rest IH]; cbn [map_find]; [discriminate|].
  destruct (bytes_eqb k key) eqn:E.
  - intros [= <-]. apply bytes_eqb_eq in E. subst. now left.
  - intro Hf. right. now apply IH.
Qed.

Lemma increasing_map_insert (key : list byte) (v : ToolPtr)
  (m : list (list byte * ToolPtr)) :
  increasing (GetNames m) = true ->
  map_find key m = None ->
  increasing (GetNames (map_insert key v m)) = true.
Proof.
  unfold GetNames.
  induction m as [|[k w] rest IH]; cbn [map_insert map fst increasing].
  - reflexivity.
  - intros Hinc Hfind.
    apply andb_true_iff in Hinc. destruct Hinc as [Hk Hrest].
    cbn [map_find] in Hfind.
    destruct (bytes_eqb k key) eqn:E; [discriminate|].
    destruct (bytes_ltb key k) eqn:L.
    + cbn [map fst increasing forallb]. rewrite L, Hk, Hrest.
      cbn [andb]. rewrite !andb_true_r.
      apply forallb_forall. intros x Hx.
      rewrite forallb_forall in Hk.
      eapply bytes_ltb_trans; [exact L|now apply Hk].
    + cbn [map fst increasing]. rewrite (IH Hrest Hfind), andb_true_r.
      apply forallb_forall. intros x Hx.
      apply in_map_iff in Hx. destruct Hx as [[k' w'] [<- Hx]].
      apply In_map_insert in Hx. destruct Hx as [[= -> ->]|Hx].
      * cbn [fst]. apply bytes_ltb_total; [exact L|].
        now rewrite bytes_eqb_sym.
      * rewrite forallb_forall in Hk. apply Hk.
        apply in_map_iff. now exists (k', w').
Qed.

(** In an increasing map, a name is the key of one entry at most. *)
Lemma increasing_unique (m : list (list byte * ToolPtr))
  (k : list byte) (v w : ToolPtr) :
  increasing (GetNames m) = true ->
  In (k, v) m -> In (k, w) m -> v = w.
Proof.
  unfold GetNames.
  induction m as [|[k0 w0] rest IH]; [intros _ []|].
  cbn [map fst increasing]. intro Hinc.
  apply andb_true_iff in Hinc. destruct Hinc as [Hk Hrest].
  rewrite forallb_forall in Hk.
  assert (forall u, In (k0, u) rest -> False) as Hfresh.
  { intros u Hu.
    assert (bytes_ltb k0 k0 = true) as Hlt
        by (apply Hk, in_map_iff; now exists (k0, u)).
    rewrite bytes_ltb_irrefl in Hlt. discriminate. }
  intros [[= -> ->]|Hv] [[= ->]|Hw].
  - reflexivity.
  - exfalso. eauto.
  - exfalso. eauto.
  - now apply IH.
Qed.

Section RegistryFacts.
Context {scalar : Type} `{Numeric scalar}.

Local Open Scope nat_scope.
Local Open Scope driver_scope.

(** The three ways through [AddTool]. *)
Lemma AddTool_run (d : Driver scalar) (name serialNumber definition : list byte) :
  AddTool name serialNumber definition d
  = match CheckTool serialNumber d with
    | Some tool =>
        Ok (Some tool)
           (set_Events
              (Events d ++
               [LogWarning "AddTool: there's already a tool with serial number"])
              d)
    | None =>
        match map_find name (mTools d) with
        | Some _ =>
            Ok None
               (set_Events
                  (Events d ++
                   [LogError "AddTool: no tool created, duplicate name exists"])
                  d)
        | None =>
            let tools := map_insert name (length (heap d)) (mTools d) in
            Ok (Some (length (heap d)))
               (set_Events (Events d ++ [EvUpdatedTools])
                  (set_ToolNames (GetNames tools)
                     (set_Tools tools
                        (set_heap
                           (heap d ++
                            [created_tool name serialNumber definition])
                           d))))
        end
    end.
Proof.
  destruct (CheckTool serialNumber d) as [tool|] eqn:Hc.
  - unfold AddTool, bind, get. rewrite Hc. reflexivity.
  - destruct (map_find name (mTools d)) as [p|] eqn:Hf;
      destruct d as [nm buf ptr port trk stray sm hp tools p2t names evs];
      unfold AddTool, mTools_AddItem, AddItem, emit, bind, get, modify, ret;
      rewrite Hc; fields; rewrite Hf; cbv beta iota zeta; fields.
    + rewrite removelast_last. reflexivity.
    + reflexivity.
Qed.

Lemma CheckTool_loop_extend (h : list (Tool scalar)) (t : Tool scalar)
  (entries : list (list byte * ToolPtr)) (s : list byte) :
  (forall name tool, In (name, tool) entries -> tool < length h) ->
  CheckTool_loop (h ++ [t]) entries s = CheckTool_loop h entries s.
Proof.
  induction entries as [|[k p] rest IH]; intro Hval; [reflexivity|].
  cbn [CheckTool_loop].
  rewrite nth_error_app1 by (apply (Hval k p); now left).
  rewrite IH by (intros n q Hin; apply (Hval n q); now right).
  reflexivity.
Qed.

Lemma CheckTool_loop_insert_other (h : list (Tool scalar)) (t : Tool scalar)
  (m : list (list byte * ToolPtr)) (key : list byte) (p : ToolPtr)
  (s : list byte) :
  nth_error h p = Some t ->
  bytes_eqb (SerialNumber t) s = false ->
  CheckTool_loop h (map_insert key p m) s = CheckTool_loop h m s.
Proof.
  intros Hp Hs.
  induction m as [|[k w] rest IH]; cbn [map_insert].
  - cbn [CheckTool_loop]. now rewrite Hp, Hs.
  - destruct (bytes_ltb key k).
    + cbn [CheckTool_loop]. now rewrite Hp, Hs.
    + cbn [CheckTool_loop]. now rewrite IH.
Qed.

Lemma CheckTool_loop_insert_same (h : list (Tool scalar)) (t : Tool scalar)
  (m : list (list byte * ToolPtr)) (key : list byte) (p : ToolPtr) :
  nth_error h p = Some t ->
  CheckTool_loop h m (SerialNumber t) = None ->
  CheckTool_loop h (map_insert key p m) (SerialNumber t) = Some p.
Proof.
  intros Hp.
  induction m as [|[k w] rest IH]; cbn [map_insert]; intro Hnone.
  - cbn [CheckTool_loop]. now rewrite Hp, bytes_eqb_refl.
  - destruct (bytes_ltb key k).
    + cbn [CheckTool_loop]. now rewrite Hp, bytes_eqb_refl.
    + cbn [CheckTool_loop] in *.
      destruct (nth_error h w) as [tw|]; [|now apply IH].
      destruct (bytes_eqb (SerialNumber tw) (SerialNumber t));
        [discriminate|now apply IH].
Qed.

Lemma bytes_eqb_neq (a b : list byte) : a <> b -> bytes_eqb a b = false.
Proof.
  intro Hne. destruct (bytes_eqb a b) eqn:E; [|reflexivity].
  apply bytes_eqb_eq in E. contradiction.
Qed.

(** X5.  [AddTool] always returns, and it keeps the registry well formed:
    the names of [mTools] still increase (so no name is used twice),
    every entry points to a tool, [mToolNames] lists the names of
    [mTools], and no two registered tools share a serial number. *)
Theorem AddTool_keeps_registry (d : Driver scalar)
  (name serialNumber definition : list byte) :
  registry_ok d ->
  exists r d',
    AddTool name serialNumber definition d = Ok r d' /\ registry_ok d'.
Proof.
  intros (Hinc & Hval & Hnames & Hser).
  rewrite AddTool_run.
  destruct (CheckTool serialNumber d) as [tool|] eqn:Hc.
  { eexists _, _. split; [reflexivity|]. unfold registry_ok. fields.
    repeat split; assumption. }
  destruct (map_find name (mTools d)) as [p|] eqn:Hf.
  { eexists _, _. split; [reflexivity|]. unfold registry_ok. fields.
    repeat split; assumption. }
  cbv zeta. eexists _, _. split; [reflexivity|].
  unfold registry_ok. fields.
  split; [now apply increasing_map_insert|].
  split; [|split; [reflexivity|]].
  - intros n q Hin. rewrite length_app. cbn [length].
    apply In_map_insert in Hin. destruct Hin as [[= -> ->]|Hin]; [lia|].
    specialize (Hval n q Hin). lia.
  - assert (forall n q t, In (n, q) (mTools d) ->
              nth_error (heap d ++ [created_tool name serialNumber definition])
                        q = Some t ->
              nth_error (heap d) q = Some t /\ SerialNumber t <> serialNumber)
      as Hold.
    { intros n q t Hin Hq.
      rewrite nth_error_app1 in Hq by now apply (Hval n q).
      split; [exact Hq|].
      now apply (CheckTool_loop_missing (heap d) (mTools d) serialNumber Hc
                   n q t). }
    assert (forall t,
              nth_error (heap d ++ [created_tool name serialNumber definition])
                        (length (heap d)) = Some t ->
              SerialNumber t = serialNumber) as Hnew.
    { intros t Ht. rewrite nth_error_app2, Nat.sub_diag in Ht by lia.
      injection Ht as <-. reflexivity. }
    intros n1 p1 t1 n2 p2 t2 H1 H2 Ht1 Ht2 Heq.
    apply In_map_insert in H1. apply In_map_insert in H2.
    destruct H1 as [[= -> ->]|H1], H2 as [[= -> ->]|H2].
    + reflexivity.
    + exfalso. apply Hnew in Ht1.
      destruct (Hold n2 p2 t2 H2 Ht2) as [_ Hne]. congruence.
    + exfalso. apply Hnew in Ht2.
      destruct (Hold n1 p1 t1 H1 Ht1) as [_ Hne]. congruence.
    + destruct (Hold n1 p1 t1 H1 Ht1) as [Ht1' _].
      destruct (Hold n2 p2 t2 H2 Ht2) as [Ht2' _].
      now apply (Hser n1 p1 t1 n2 p2 t2).
Qed.

(** X6.  [AddTool] and [CheckTool]: after [AddTool] has returned a tool
    for a serial number, [CheckTool] finds that tool under the serial
    number, so a second [AddTool] with it creates nothing; and whatever
    [AddTool] returns, [CheckTool] answers for every other serial number
    as it did before. *)
Theorem AddTool_then_CheckTool (d d' : Driver scalar)
  (name serialNumber definition : list byte) (r : option ToolPtr) :
  registry_ok d ->
  AddTool name serialNumber definition d = Ok r d' ->
  (forall tool, r = Some tool ->
                CheckTool serialNumber d' = Some tool /\
                forall name' definition',
                  returned (AddTool name' serialNumber definition' d')
                  = Some (Some tool) /\
                  option_map (fun s => (heap s, mTools s, mToolNames s))
                             (final (AddTool name' serialNumber definition' d'))
                  = Some (heap d', mTools d', mToolNames d')) /\
  (r = None -> CheckTool serialNumber d' = None) /\
  (forall other, other <> serialNumber ->
                 CheckTool other d' = CheckTool other d).
Proof.
  intros (Hinc & Hval & Hnames & Hser) Hrun.
  assert (forall tool, CheckTool serialNumber d' = Some tool ->
            forall name' definition',
              returned (AddTool name' serialNumber definition' d')
              = Some (Some tool) /\
              option_map (fun s => (heap s, mTools s, mToolNames s))
                         (final (AddTool name' serialNumber definition' d'))
              = Some (heap d', mTools d', mToolNames d')) as Hagain.
  { intros tool Hfound name' definition'.
    rewrite AddTool_run, Hfound. split; reflexivity. }
  rewrite AddTool_run in Hrun.
  destruct (CheckTool serialNumber d) as [tool|] eqn:Hc.
  { injection Hrun as <- <-.
    assert (forall s, CheckTool s
                        (set_Events
                           (Events d ++
                            [LogWarning
                               "AddTool: there's already a tool with serial number"])
                           d) = CheckTool s d) as Hsame by reflexivity.
    split; [|split].
    - intros tool' [= <-]. split; [now rewrite Hsame|].
      apply Hagain. now rewrite Hsame.
    - discriminate.
    - intros other _. apply Hsame. }
  destruct (map_find name (mTools d)) as [p|] eqn:Hf.
  { injection Hrun as <- <-.
    split; [|split].
    - discriminate.
    - intros _. exact Hc.
    - reflexivity. }
  cbv zeta in Hrun. injection Hrun as <- <-.
  assert (nth_error (heap d ++ [created_tool name serialNumber definition])
                    (length (heap d))
          = Some (created_tool name serialNumber definition)) as Hnew
      by (rewrite nth_error_app2, Nat.sub_diag by lia; reflexivity).
  assert (CheckTool
            serialNumber
            (set_Events (Events d ++ [EvUpdatedTools])
               (set_ToolNames
                  (GetNames (map_insert name (length (heap d)) (mTools d)))
                  (set_Tools (map_insert name (length (heap d)) (mTools d))
                     (set_heap
                        (heap d ++ [created_tool name serialNumber definition])
                        d))))
          = Some (length (heap d))) as Hfound.
  { unfold CheckTool. fields.
    apply (CheckTool_loop_insert_same _ _ _ _ _ Hnew).
    change (SerialNumber (created_tool name serialNumber definition))
      with serialNumber.
    rewrite CheckTool_loop_extend by exact Hval. exact Hc. }
  split; [|split].
  - intros tool [= <-]. split; [exact Hfound|]. now apply Hagain.
  - discriminate.
  - intros other Hne. unfold CheckTool. fields.
    rewrite (CheckTool_loop_insert_other _ _ _ _ _ _ Hnew)
      by (apply bytes_eqb_neq; intro E; apply Hne; symmetry; exact E).
    now apply CheckTool_loop_extend.
Qed.

(* ------------------------------------------------------------------ *)
(** *** [GetToolName] *)

Lemma iterator_advance_skipn (n : nat) (m : list (list byte * ToolPtr)) :
  iterator_advance n m = skipn n m.
Proof.
  revert m. induction n as [|n IH]; intro m; [reflexivity|].
  cbn [iterator_advance]. rewrite IH. destruct m; [|reflexivity].
  cbn [tl]. now rewrite !skipn_nil.
Qed.

Lemma skipn_head {A} (l : list A) (n : nat) (a : A) :
  nth_error l n = Some a -> exists rest, skipn n l = a :: rest.
Proof.
  revert l. induction n as [|n IH]; intros [|x l]; cbn [nth_error skipn];
    try discriminate.
  - intros [= ->]. now exists l.
  - apply IH.
Qed.

Lemma map_find_In (m : list (list byte * ToolPtr)) (k : list byte)
  (v : ToolPtr) :
  increasing (GetNames m) = true -> In (k, v) m -> map_find k m = Some v.
Proof.
  intros Hinc Hin.
  destruct (map_find k m) as [w|] eqn:Hf.
  - apply map_find_Some in Hf. f_equal.
    now apply (increasing_unique m k w v Hinc).
  - exfalso.
    pose proof (proj1 (map_find_None k m) Hf k v Hin) as E.
    rewrite bytes_eqb_refl in E. discriminate.
Qed.

Lemma increasing_nth (l : list (list byte)) (i j : nat) (a b : list byte) :
  increasing l = true -> i < j ->
  nth_error l i = Some a -> nth_error l j = Some b ->
  bytes_ltb a b = true.
Proof.
  revert i j. induction l as [|x l IH]; intros i j Hinc Hij Hi Hj.
  - destruct i; discriminate.
  - cbn [increasing] in Hinc. apply andb_true_iff in Hinc.
    destruct Hinc as [Hx Hl].
    destruct j as [|j]; [lia|]. cbn [nth_error] in Hj.
    destruct i as [|i]; cbn [nth_error] in Hi.
    + injection Hi as <-. rewrite forallb_forall in Hx.
      apply Hx. eapply nth_error_In. exact Hj.
    + apply (IH i j Hl); [lia|assumption|assumption].
Qed.

(** X7.  [GetToolName] in a well-formed registry: an index below the
    number of tools gives the name published at that place of
    [mToolNames], which is the key of an entry of [mTools], and changes
    nothing; the names come in strictly increasing order of the index;
    an index out of range gives the empty name and one log line. *)
Theorem GetToolName_enumerates (d : Driver scalar) :
  registry_ok d ->
  (forall index, index < length (mTools d) ->
     exists name tool,
       GetToolName index d = Ok name d /\
       nth_error (mToolNames d) index = Some name /\
       map_find name (mTools d) = Some tool) /\
  (forall i j ni nj di dj,
     i < j -> j < length (mTools d) ->
     GetToolName i d = Ok ni di -> GetToolName j d = Ok nj dj ->
     bytes_ltb ni nj = true) /\
  (forall index, length (mTools d) <= index ->
     GetToolName index d
     = Ok [] (set_Events
                (Events d ++
                 [LogError "GetToolName: requested index is out of range"])
                d)).
Proof.
  intros (Hinc & Hval & Hnames & Hser).
  assert (forall index, index < length (mTools d) ->
            exists name tool,
              GetToolName index d = Ok name d /\
              nth_error (mTools d) index = Some (name, tool)) as Hget.
  { intros index Hlt.
    destruct (nth_error (mTools d) index) as [[name tool]|] eqn:Hn;
      [|apply nth_error_None in Hn; lia].
    exists name, tool. split; [|reflexivity].
    unfold GetToolName, bind, get, ret.
    replace (length (mTools d) <=? index) with false
      by (symmetry; apply Nat.leb_gt; lia).
    rewrite iterator_advance_skipn.
    destruct (skipn_head _ _ _ Hn) as [rest ->]. reflexivity. }
  split; [|split].
  - intros index Hlt.
    destruct (Hget index Hlt) as (name & tool & Hrun & Hn).
    exists name, tool. split; [exact Hrun|]. split.
    + rewrite Hnames. unfold GetNames.
      rewrite nth_error_map, Hn. reflexivity.
    + apply map_find_In; [exact Hinc|]. eapply nth_error_In. exact Hn.
  - intros i j ni nj di dj Hij Hj Hi Hjj.
    destruct (Hget i ltac:(lia)) as (ni' & ti & Hri & Hni).
    destruct (Hget j Hj) as (nj' & tj & Hrj & Hnj).
    rewrite Hri in Hi. rewrite Hrj in Hjj.
    injection Hi as <- _. injection Hjj as <- _.
    apply (increasing_nth (GetNames (mTools d)) i j); try assumption.
    + unfold GetNames. rewrite nth_error_map, Hni. reflexivity.
    + unfold GetNames. rewrite nth_error_map, Hnj. reflexivity.
  - intros index Hge.
    unfold GetToolName, bind, get, emit, modify, ret.
    replace (length (mTools d) <=? index) with true
      by (symmetry; apply Nat.leb_le; lia).
    reflexivity.
Qed.

End RegistryFacts.

(* ------------------------------------------------------------------ *)
(** ** What an exchange with the device leaves alone *)

Section Exchanges.
Context {scalar : Type} `{Numeric scalar} `{Header}.

Local Open Scope nat_scope.
Local Open Scope driver_scope.

Local Abbreviation exch s r m := (@exchanges scalar _ s r m).

Lemma same_identity_refl (t : Tool scalar) : same_identity t t.
Proof. repeat split. Qed.

Lemma same_identity_trans (t1 t2 t3 : Tool scalar) :
  same_identity t1 t2 -> same_identity t2 t3 -> same_identity t1 t3.
Proof. unfold same_identity. intuition congruence. Qed.

Lemma identities_refl (h : list (Tool scalar)) : Forall2 same_identity h h.
Proof. induction h; constructor; [apply same_identity_refl|assumption]. Qed.

Lemma identities_trans (h1 h2 h3 : list (Tool scalar)) :
  Forall2 same_identity h1 h2 -> Forall2 same_identity h2 h3 ->
  Forall2 same_identity h1 h3.
Proof.
  intro H12. revert h3. induction H12 as [|t1 t2 h1 h2 Ht _ IH];
    intros h3 H23; inversion H23; subst; constructor.
  - eapply same_identity_trans; eassumption.
  - now apply IH.
Qed.

Lemma link_step_refl (d : Driver scalar) : link_step 0 0 d d.
Proof.
  split; [exists []; split; [symmetry; apply app_nil_r|reflexivity]|].
  repeat split. apply identities_refl.
Qed.

Lemma link_step_trans (s1 r1 s2 r2 : nat) (d1 d2 d3 : Driver scalar) :
  link_step s1 r1 d1 d2 -> link_step s2 r2 d2 d3 ->
  link_step (s1 + s2) (r1 + r2) d1 d3.
Proof.
  intros ((c1 & W1 & L1) & I1 & A1 & B1 & C1 & D1 & E1 & F1 & G1 & J1 & K1)
         ((c2 & W2 & L2) & I2 & A2 & B2 & C2 & D2 & E2 & F2 & G2 & J2 & K2).
  split.
  { exists (c1 ++ c2). split.
    - rewrite W2, W1, app_assoc. reflexivity.
    - rewrite length_app. lia. }
  split.
  { rewrite I2, I1, skipn_skipn. f_equal. lia. }
  repeat split; try congruence.
  eapply identities_trans; eassumption.
Qed.

(** A step that leaves the link and the tools as they are. *)
Lemma link_step_local (d d' : Driver scalar) :
  mSerialPort d' = mSerialPort d ->
  Name d' = Name d ->
  mIsTracking d' = mIsTracking d ->
  mTrackStrayMarkers d' = mTrackStrayMarkers d ->
  mTools d' = mTools d ->
  mPortToTool d' = mPortToTool d ->
  mToolNames d' = mToolNames d ->
  tracking_events (Events d') = tracking_events (Events d) ->
  length (mSerialBuffer d') = length (mSerialBuffer d) ->
  Forall2 same_identity (heap d) (heap d') ->
  link_step 0 0 d d'.
Proof.
  intros P A B C D E F G J K.
  split; [exists []; rewrite P; split; [symmetry; apply app_nil_r|reflexivity]|].
  rewrite P. repeat split; assumption.
Qed.

Lemma exchanges_ret {A} (a : A) : exch 0 0 (ret a).
Proof. intros d a' d' [= <- <-]. apply link_step_refl. Qed.

Lemma exchanges_crash {A : Type} (s r : nat) (f : Fault) :
  @exchanges scalar A s r (crash f).
Proof. intros d a d' Hrun. discriminate Hrun. Qed.

Lemma exchanges_get : exch 0 0 get.
Proof. intros d a d' [= <- <-]. apply link_step_refl. Qed.

Lemma exchanges_gets {A} (f : Driver scalar -> A) : exch 0 0 (gets f).
Proof. intros d a d' [= <- <-]. apply link_step_refl. Qed.

Lemma exchanges_bind {A B} (s1 r1 s2 r2 s r : nat) (m : M (Driver scalar) A)
  (k : A -> M (Driver scalar) B) :
  exch s1 r1 m -> (forall x, exch s2 r2 (k x)) ->
  s = s1 + s2 -> r = r1 + r2 ->
  exch s r (bind m k).
Proof.
  intros Hm Hk -> -> d b d' Hrun. unfold bind in Hrun.
  destruct (m d) as [x d1|f] eqn:E; [|discriminate].
  eapply link_step_trans; [exact (Hm _ _ _ E)|exact (Hk x _ _ _ Hrun)].
Qed.

Lemma exchanges_modify (f : Driver scalar -> Driver scalar) :
  (forall d, link_step 0 0 d (f d)) -> exch 0 0 (modify f).
Proof.
  intros Hf d a d' Hrun. unfold modify in Hrun.
  inversion Hrun; subst. apply Hf.
Qed.

Lemma exchanges_pointer (p : Driver scalar -> nat) :
  exch 0 0 (modify (fun d => set_pointer (p d) d)).
Proof.
  apply exchanges_modify. intro d.
  apply link_step_local; try reflexivity. apply identities_refl.
Qed.

Lemma exchanges_emit (e : Event) :
  is_tracking_event e = false -> exch 0 0 (emit e).
Proof.
  intro He. apply exchanges_modify. intro d.
  apply link_step_local; try reflexivity; [|apply identities_refl].
  fields. rewrite tracking_events_app.
  destruct e; try discriminate He; simpl; now rewrite app_nil_r.
Qed.

Lemma exchanges_poke (i : nat) (b : byte) : exch 0 0 (poke i b).
Proof.
  intros d a d' Hrun. unfold poke in Hrun.
  destruct (store (mSerialBuffer d) i b) as [buf|] eqn:E; [|discriminate].
  injection Hrun as <- <-. apply store_length in E.
  apply link_step_local; try reflexivity; [exact E|apply identities_refl].
Qed.

Lemma exchanges_poke_all (bs : list byte) (i : nat) :
  exch 0 0 (poke_all i bs).
Proof.
  revert i. induction bs as [|b bs IH]; intro i; simpl.
  - apply exchanges_ret.
  - eapply exchanges_bind;
      [apply exchanges_poke|intros; apply IH|reflexivity|reflexivity].
Qed.

Lemma exchanges_advance (n : nat) : exch 0 0 (advance n).
Proof. apply exchanges_pointer. Qed.


(** Binds whose parts exchange [0 0] and [s r]. *)
Ltac local_then :=
  eapply (exchanges_bind 0 0); [| intro | reflexivity | reflexivity].






Lemma exchanges_ResponseCheckCRC : exch 0 0 ResponseCheckCRC.
Proof.
  unfold ResponseCheckCRC.
  local_then; [apply exchanges_gets|].
  destruct (_ <? CRC_SIZE + 1); [apply exchanges_crash|].
  local_then; [apply exchanges_gets|].
  local_then; [apply exchanges_poke|].
  local_then; [apply (exchanges_pointer (fun _ => _))|].
  local_then; [apply exchanges_gets|].
  destruct (negb _).
  - local_then; [now apply exchanges_emit|apply exchanges_ret].
  - apply exchanges_ret.
Qed.

Lemma exchanges_Read : exch 0 1 Read.
Proof.
  intros d a d' Hrun. unfold Read, bind, get in Hrun.
  destruct (incoming (mSerialPort d)) as [|reply later] eqn:Hin.
  - injection Hrun as <- <-.
    destruct (link_step_refl d) as (W & _ & Rest).
    split; [exact W|]. split; [now rewrite Hin|exact Rest].
  - unfold modify in Hrun.
    match type of Hrun with
    | match poke_all ?i ?bs ?s with _ => _ end = _ =>
        destruct (poke_all i bs s) as [u s'|f] eqn:E; [|discriminate];
        pose proof (exchanges_poke_all bs i _ _ _ E) as Hstep
    end.
    injection Hrun as <- <-.
    destruct Hstep as ((c & W & L) & I & Rest).
    fields.
    split; [exists c; split; [exact W|exact L]|].
    split; [rewrite I, Hin; reflexivity|exact Rest].
Qed.

Lemma exchanges_ResponseRead : exch 0 1 ResponseRead.
Proof.
  unfold ResponseRead.
  local_then; [apply (exchanges_pointer (fun _ => 0))|].
  eapply (exchanges_bind 0 1 0 0);
    [apply exchanges_Read|intro n|reflexivity|reflexivity].
  local_then;
    [destruct (0 <? n); [apply exchanges_advance|apply exchanges_ret]|].
  local_then; [apply exchanges_get|].
  destruct (negb _).
  - local_then; [now apply exchanges_emit|apply exchanges_ret].
  - local_then; [apply exchanges_ResponseCheckCRC|].
    destruct (negb _); apply exchanges_ret.
Qed.

Lemma exchanges_ResponseRead_expect (e : list byte) :
  exch 0 1 (ResponseRead_expect e).
Proof.
  unfold ResponseRead_expect.
  eapply (exchanges_bind 0 1 0 0);
    [apply exchanges_ResponseRead|intro ok|reflexivity|reflexivity].
  destruct (negb ok).
  - local_then; [now apply exchanges_emit|apply exchanges_ret].
  - local_then; [apply exchanges_get|].
    destruct (negb _).
    + local_then; [now apply exchanges_emit|apply exchanges_ret].
    + apply exchanges_ret.
Qed.

(* ------------------------------------------------------------------ *)
(** *** The stray markers and the tools *)













End Exchanges.

(* ------------------------------------------------------------------ *)
(** ** [Track], outside the numeric rows *)

Lemma hex_number_from_digits (digits : list byte) :
  forall acc, forallb is_hex_digit digits = true ->
              exists n, hex_number_from acc digits = Some n.
Proof.
  induction digits as [|c digits IH]; intros acc Hall.
  - now exists acc.
  - cbn [forallb] in Hall. apply andb_true_iff in Hall.
    destruct Hall as [Hc Hrest]. cbn [hex_number_from].
    unfold is_hex_digit in Hc.
    destruct (hex_value c) as [v|]; [|discriminate Hc].
    now apply IH.
Qed.

Section TrackFacts.
Context {scalar : Type} `{Numeric scalar} `{Header}.

Local Open Scope nat_scope.
Local Open Scope driver_scope.

(** X8.  [Track], a row whose status is [MISSING], [DISABLED] or
    [UNOCCUPIED]: both poses of the tool are marked not valid and keep
    their frames, the error stays, the frame number is the one written in
    the eight hexadecimal digits behind the status field, and the cursor
    moves past the line feed that ends the row. *)
Theorem Track_row_not_tracked (d : Driver scalar) (L : TrackLocals)
  (tool : ToolPtr) (t : Tool scalar)
  (keyword status frame rest : list byte) :
  let handle := scan_2c (buffer_at d (parsePointer L)) (portHandle L) in
  map_find (cstr handle) (mPortToTool d) = Some tool ->
  nth_error (heap d) tool = Some t ->
  In keyword [lit "MISSING"; lit "DISABLED"; lit "UNOCCUPIED"] ->
  buffer_at d (parsePointer L + 2)
  = keyword ++ status ++ frame ++ "010"%byte :: rest ->
  length status = 8 ->
  length frame = 8 ->
  forallb is_hex_digit frame = true ->
  exists L' d' t',
    Track_row L d = Ok (Some L') d' /\
    parsePointer L' = parsePointer L + 2 + length keyword + 8 + 8 + 1 /\
    nth_error (heap d') tool = Some t' /\
    Valid (MarkerPosition t') = false /\
    Valid (TooltipPosition t') = false /\
    Position (MarkerPosition t') = Position (MarkerPosition t) /\
    Position (TooltipPosition t') = Position (TooltipPosition t) /\
    ErrorRMS t' = ErrorRMS t /\
    hex_number frame = Some (FrameNumber t').
Proof.
  intros handle Hfind Ht Hkw Hrow Hstatus Hframe Hhex.
  destruct (hex_number_from_digits frame 0%Z Hhex) as [n Hnum].
  fold (hex_number frame) in Hnum.
  assert (scan_X 8 frame = Some n) as Hscan.
  { unfold scan_X. rewrite <- Hframe, firstn_all.
    rewrite take_while_all_true by exact Hhex.
    destruct frame; [discriminate Hframe|exact Hnum]. }
  assert (tool < length (heap d)) as Hlt
      by (apply nth_error_Some; congruence).
  destruct (split_at (heap d) tool Hlt) as (above & t0 & below & Hh & Hlen).
  assert (t0 = t) as ->.
  { rewrite Hh, <- Hlen, nth_error_middle in Ht. congruence. }
  subst tool.
  assert (forall k,
            length keyword = k ->
            scan_X 8 (buffer_at d (parsePointer L + 2 + k + 8))
            = scan_X 8 frame /\
            peek d (parsePointer L + 2 + k + 8 + 8) = "010"%byte)
    as Hfields.
  { intros k Hk. rewrite peek_buffer_at.
    rewrite (buffer_at_add d (parsePointer L + 2 + k + 8) 8).
    rewrite (buffer_at_add d (parsePointer L + 2 + k) 8).
    rewrite (buffer_at_add d (parsePointer L + 2) k), Hrow.
    rewrite (skipn_app_exact keyword _ k Hk).
    rewrite (skipn_app_exact status _ 8 Hstatus).
    split; [now apply scan_X_field|].
    rewrite (skipn_app_exact frame _ 8 Hframe). reflexivity. }
  unfold Track_row. unfold bind at 1, get at 1.
  cbn [skip parsePointer portHandle].
  fold handle. rewrite Hfind, Hrow. unfold bind at 1.
  destruct Hkw as [<-|[<-|[<-|[]]]].
  - change (strncmp_eq (lit "MISSING" ++ status ++ frame ++ "010"%byte :: rest)
              (lit "MISSING") 7) with true. cbv iota.
    unfold bind at 1.
    erewrite update_tool_at by eassumption.
    unfold ret at 1. cbn [skip parsePointer]. unfold bind at 1.
    destruct (Hfields 7 eq_refl) as [-> Hpeek].
    rewrite Hpeek.
    rewrite Hscan.
    erewrite update_tool_at by (fields; reflexivity).
    change (negb (Byte.eqb "010" "010")) with false. cbv iota.
    unfold ret. eexists _, _, _. split; [reflexivity|].
    fields. rewrite nth_error_middle. cbn [length].
    repeat split; try lia; exact Hnum.
  - change (strncmp_eq (lit "DISABLED" ++ status ++ frame ++ "010"%byte :: rest)
              (lit "MISSING") 7) with false.
    change (strncmp_eq (lit "DISABLED" ++ status ++ frame ++ "010"%byte :: rest)
              (lit "DISABLED") 8) with true. cbv iota.
    unfold bind at 1.
    erewrite update_tool_at by eassumption.
    unfold ret at 1. cbn [skip parsePointer]. unfold bind at 1.
    destruct (Hfields 8 eq_refl) as [-> Hpeek].
    rewrite Hpeek.
    rewrite Hscan.
    erewrite update_tool_at by (fields; reflexivity).
    change (negb (Byte.eqb "010" "010")) with false. cbv iota.
    unfold ret. eexists _, _, _. split; [reflexivity|].
    fields. rewrite nth_error_middle. cbn [length].
    repeat split; try lia; exact Hnum.
  - change (strncmp_eq
              (lit "UNOCCUPIED" ++ status ++ frame ++ "010"%byte :: rest)
              (lit "MISSING") 7) with false.
    change (strncmp_eq
              (lit "UNOCCUPIED" ++ status ++ frame ++ "010"%byte :: rest)
              (lit "DISABLED") 8) with false.
    change (strncmp_eq
              (lit "UNOCCUPIED" ++ status ++ frame ++ "010"%byte :: rest)
              (lit "UNOCCUPIED") 10) with true. cbv iota.
    unfold bind at 1.
    erewrite update_tool_at by eassumption.
    unfold ret at 1. cbn [skip parsePointer]. unfold bind at 1.
    destruct (Hfields 10 eq_refl) as [-> Hpeek].
    rewrite Hpeek.
    rewrite Hscan.
    erewrite update_tool_at by (fields; reflexivity).
    change (negb (Byte.eqb "010" "010")) with false. cbv iota.
    unfold ret. eexists _, _, _. split; [reflexivity|].
    fields. rewrite nth_error_middle. cbn [length].
    repeat split; try lia; exact Hnum.
Qed.

End TrackFacts.

Section TrackCalls.
Context {scalar : Type} `{Numeric scalar} `{Header}.

Local Open Scope nat_scope.
Local Open Scope driver_scope.

Lemma Track_row_unknown (d : Driver scalar) (L : TrackLocals) :
  map_find (cstr (scan_2c (buffer_at d (parsePointer L)) (portHandle L)))
           (mPortToTool d) = None ->
  Track_row L d
  = Ok None (set_Events
               (Events d ++ [LogError "Track: no tool for port handle"]) d).
Proof.
  intro Hfind. unfold Track_row. unfold bind at 1, get at 1.
  cbn [skip parsePointer portHandle]. rewrite Hfind. reflexivity.
Qed.


(** X10.  [Track], a reply whose first row names a port handle no tool is
    registered for: [Track] returns from inside the loop over the port handles with
    one log line.  No tool is written to and the stray markers keep the
    values of the call before, although the reply may end with a
    stray-marker block. *)
Theorem Track_unknown_port_handle (d : Driver scalar)
  (count handle rest : list byte) (queue : list (list byte)) :
  incoming (mSerialPort d) = framed (count ++ handle ++ rest) :: queue ->
  two_hex_digits count = true ->
  length handle = 2 ->
  ~ In x00 (count ++ handle ++ rest) ->
  0 < hex_count count ->
  map_find handle (mPortToTool d) = None ->
  length (count ++ handle ++ rest) + 5 <= length (mSerialBuffer d) ->
  exists d',
    Track d = Ok tt d' /\
    heap d' = heap d /\
    mStrayMarkers d' = mStrayMarkers d /\
    Events d' = Events d ++ [LogError "Track: no tool for port handle"].
Proof.
  intros Hin Hdigits Hh Hn Hcount Hfind Hlen.
  rewrite <- scan_count_hex_count in Hcount by exact Hdigits.
  assert (length count = 2) as Hc.
  { unfold two_hex_digits in Hdigits. apply andb_true_iff in Hdigits.
    apply Nat.eqb_eq. exact (proj1 Hdigits). }
  assert (9 <= length (mSerialBuffer d)) as Hnine.
  { rewrite !length_app in Hlen. lia. }
  rewrite Track_steps.
  erewrite bind_Ok;
    [|apply CommandSend_str_run;
      first [apply TX_nul_free | rewrite TX_length; lia]].
  erewrite bind_Ok;
    [|apply (ResponseRead_framed _ (count ++ handle ++ rest) queue);
      [ fields; exact Hin
      | fields; rewrite !length_app; cbn [length];
        rewrite length_skipn, !TX_length; rewrite !length_app in Hlen; lia
      | exact Hn ]].
  erewrite bind_Ok; [|reflexivity].
  match goal with
  | |- context [Track_rows (scan_count (buffer_at ?s 0))] => set (d2 := s)
  end.
  assert (exists tail,
            mSerialBuffer d2 = count ++ (handle ++ rest) ++ x00 :: tail)
    as [tail Hbuf].
  { subst d2. fields. eexists. rewrite <- !app_assoc. reflexivity. }
  assert (scan_count (buffer_at d2 0) = scan_count count) as ->.
  { unfold buffer_at. cbn [skipn]. rewrite Hbuf.
    now apply scan_count_field. }
  destruct (scan_count count) as [|n]; [lia|].
  cbn [Track_rows].
  erewrite bind_Ok.
  2:{ erewrite bind_Ok; cycle 1.
      - apply Track_row_unknown. cbn [parsePointer portHandle].
        unfold buffer_at, scan_2c. rewrite Hbuf.
        rewrite (skipn_app_exact count _ 2 Hc).
        rewrite cstr_terminated
          by (intro Hx; apply Hn; apply in_or_app; now right).
        assert (firstn 2 (handle ++ rest) = handle) as ->.
        { rewrite firstn_app, Hh, Nat.sub_diag, firstn_O, app_nil_r.
          rewrite <- Hh. apply firstn_all. }
        rewrite Hh. cbn [skipn].
        rewrite cstr_terminated
          by (intro Hx; apply Hn; apply in_or_app; right;
              apply in_or_app; now left).
        subst d2. fields. exact Hfind.
      - reflexivity. }
  unfold ret. eexists. split; [reflexivity|].
  subst d2. fields. repeat split.
Qed.

End TrackCalls.

(* ------------------------------------------------------------------ *)
(** ** [LoadToolDefinitionFile] *)









Section UploadFacts.
Context {scalar : Type} `{Numeric scalar} `{Header}.

Local Open Scope nat_scope.
Local Open Scope driver_scope.





End UploadFacts.

(** *** What the chunks carry *)

Section ChunkFacts.

Local Open Scope nat_scope.





End ChunkFacts.

(* ------------------------------------------------------------------ *)
(** ** The serial port: settings, reset, disconnection *)

(** The fields of a session built by the setters, in the goal. *)
Ltac session_fields :=
  cbn [driver IsOpened settings configured breaks mReadTimeout
       set_driver set_IsOpened set_settings set_configured set_breaks
       set_ReadTimeout].

Section SessionFacts.
Context {scalar : Type} `{Numeric scalar} `{Header}.

Local Open Scope nat_scope.
Local Open Scope driver_scope.

Lemma on_driver_Ok {A} (m : M (Driver scalar) A) (s : Session scalar)
  (a : A) (d : Driver scalar) :
  m (driver s) = Ok a d -> on_driver m s = Ok a (set_driver d s).
Proof. intro E. unfold on_driver. now rewrite E. Qed.

Lemma on_driver_inv {A} (m : M (Driver scalar) A) (s s' : Session scalar)
  (a : A) :
  on_driver m s = Ok a s' ->
  exists d, m (driver s) = Ok a d /\ s' = set_driver d s.
Proof.
  unfold on_driver. destruct (m (driver s)) as [x d|f]; [|discriminate].
  intros [= <- <-]. now exists d.
Qed.

Lemma port_kept_refl (s : Session scalar) : port_kept s s.
Proof. repeat split. Qed.

Lemma port_kept_trans (s1 s2 s3 : Session scalar) :
  port_kept s1 s2 -> port_kept s2 s3 -> port_kept s1 s3.
Proof. unfold port_kept. intuition congruence. Qed.

Lemma store_in_range (mem : list byte) (i : nat) (b : byte) :
  i < length mem -> exists mem', store mem i b = Some mem'.
Proof.
  revert i. induction mem as [|c mem IH]; intros [|i] Hi;
    cbn [length store] in *; try lia.
  - now eexists.
  - destruct (IH i ltac:(lia)) as [mem' ->]. now eexists.
Qed.

(** [CommandAppend(char)] with room behind the cursor. *)
Lemma CommandAppend_char_room (c : byte) (s : Session scalar) :
  mSerialBufferPointer (driver s) < length (mSerialBuffer (driver s)) ->
  exists s',
    on_driver (CommandAppend_char c) s = Ok tt s' /\
    port_kept s s' /\
    mSerialBufferPointer (driver s') = S (mSerialBufferPointer (driver s)).
Proof.
  intro Hroom.
  destruct (store_in_range (mSerialBuffer (driver s))
              (mSerialBufferPointer (driver s)) c Hroom) as [mem Hst].
  pose proof (store_length _ _ _ _ Hst) as Hl.
  eexists. split.
  - apply on_driver_Ok. unfold CommandAppend_char, bind, gets, poke.
    rewrite Hst. unfold advance, modify. reflexivity.
  - session_fields. goal_fields. unfold port_kept. session_fields.
    goal_fields. repeat split; try assumption. lia.
Qed.

Lemma refuses_default (k : nat) (invalid : string)
  (rest : M (Session scalar) bool) :
  refuses k (switch_digit None invalid rest).
Proof.
  intros s _. unfold switch_digit. eexists. split.
  - erewrite bind_Ok; [reflexivity|]. apply on_driver_Ok. reflexivity.
  - unfold port_kept. session_fields. goal_fields. repeat split.
Qed.

Lemma refuses_case (k : nat) (c : byte) (invalid : string)
  (rest : M (Session scalar) bool) :
  refuses k rest -> refuses (S k) (switch_digit (Some c) invalid rest).
Proof.
  intros Hrest s Hroom. unfold switch_digit.
  destruct (CommandAppend_char_room c s ltac:(lia))
    as (s1 & Hrun & Hkept & Hptr).
  erewrite bind_Ok by exact Hrun.
  destruct (Hrest s1) as (s' & Hrun' & Hkept').
  - destruct Hkept as (_ & Hl & _). rewrite Hptr, Hl. lia.
  - exists s'. split; [exact Hrun'|].
    eapply port_kept_trans; eassumption.
Qed.

Lemma COMM_nul_free : ~ In x00 (lit "COMM ").
Proof. vm_compute. intuition discriminate. Qed.

(** The command composed by the five [switch] statements, when each
    setting has a digit. *)
Lemma COMM_composed (s : Session scalar) (b c y t f : byte)
  (m1 m2 m3 m4 m5 : string) (rest : M (Session scalar) bool) :
  10 <= length (mSerialBuffer (driver s)) ->
  (on_driver CommandInitialize ;;;
   on_driver (CommandAppend (lit "COMM ")) ;;;
   switch_digit (Some b) m1
     (switch_digit (Some c) m2
        (switch_digit (Some y) m3
           (switch_digit (Some t) m4
              (switch_digit (Some f) m5 rest))))) s
  = rest (set_driver
            (set_pointer 10
               (set_buffer ((lit "COMM " ++ [b; c; y; t; f])
                              ++ skipn 10 (mSerialBuffer (driver s)))
                  (driver s)))
            s).
Proof.
  intro Hlen.
  destruct s as [d opened stored applied brk timeout].
  destruct d as [nm buf ptr port trk stray sm hp tools p2t names evs].
  cbn [driver mSerialBuffer] in Hlen.
  do 10 (destruct buf as [|? buf]; [cbn [length] in Hlen; lia|]).
  reflexivity.
Qed.

Lemma switches_refuse (p : PortSettings) (rest : M (Session scalar) bool) :
  COMM_command p = None ->
  refuses 4
    (switch_digit (baudRate_digit (BaudRate p))
       "SetSerialPortSettings: invalid baud rate"
    (switch_digit (characterSize_digit (CharacterSize p))
       "SetSerialPortSettings: invalid character size"
    (switch_digit (parityChecking_digit (ParityChecking p))
       "SetSerialPortSettings: invalid parity checking"
    (switch_digit (stopBits_digit (StopBits p))
       "SetSerialPortSettings: invalid stop bits"
    (switch_digit (flowControl_digit (FlowControl p))
       "SetSerialPortSettings: invalid flow control"
       rest))))).
Proof.
  unfold COMM_command. intro Hnone.
  destruct (baudRate_digit (BaudRate p));
    [apply refuses_case|apply refuses_default].
  destruct (characterSize_digit (CharacterSize p));
    [apply refuses_case|apply refuses_default].
  destruct (parityChecking_digit (ParityChecking p));
    [apply refuses_case|apply refuses_default].
  destruct (stopBits_digit (StopBits p));
    [apply refuses_case|apply refuses_default].
  destruct (flowControl_digit (FlowControl p));
    [discriminate Hnone|apply refuses_default].
Qed.

(** X13.  [SetSerialPortSettings] with a setting that the driver has no
    digit for: the function returns [false] from the [default] case of
    the [switch]; nothing has been written to the device and the port
    keeps its settings. *)
Theorem SetSerialPortSettings_unsupported (p : PortSettings)
  (s : Session scalar) :
  COMM_command p = None ->
  9 <= length (mSerialBuffer (driver s)) ->
  exists s',
    SetSerialPortSettings p s = Ok false s' /\
    written (mSerialPort (driver s')) = written (mSerialPort (driver s)) /\
    incoming (mSerialPort (driver s')) = incoming (mSerialPort (driver s)) /\
    settings s' = settings s /\
    configured s' = configured s.
Proof.
  intros Hnone Hlen.
  assert (exists s1,
            (forall rest : M (Session scalar) bool,
                (on_driver CommandInitialize ;;;
                 on_driver (CommandAppend (lit "COMM ")) ;;; rest) s
                = rest s1) /\
            port_kept s s1 /\
            mSerialBufferPointer (driver s1) = 5) as (s1 & Hhead & Hk1 & Hp1).
  { eexists. split; [intro rest|].
    - erewrite bind_Ok; [|apply on_driver_Ok; reflexivity].
      erewrite bind_Ok; [reflexivity|].
      apply on_driver_Ok.
      apply (CommandAppend_at _ [] (mSerialBuffer (driver s)) (lit "COMM "));
        [reflexivity|reflexivity|exact COMM_nul_free|].
      change (length (lit "COMM ")) with 5. lia.
    - session_fields. goal_fields. unfold port_kept. session_fields.
      goal_fields. repeat split.
      rewrite !length_app, length_skipn.
      change (length (lit "COMM ")) with 5. cbn [length]. lia. }
  unfold SetSerialPortSettings. rewrite Hhead.
  match goal with
  | |- exists s', switch_digit _ _ (switch_digit _ _ (switch_digit _ _
         (switch_digit _ _ (switch_digit _ _ ?rest)))) s1 = _ /\ _ =>
      destruct (switches_refuse p rest Hnone s1) as (s' & Hrun & Hk2)
  end.
  - destruct Hk1 as (_ & Hl & _). rewrite Hp1, Hl. lia.
  - exists s'. split; [exact Hrun|].
    destruct (port_kept_trans _ _ _ Hk1 Hk2) as (Hport & _ & _ & Hs & Hc & _).
    rewrite Hport. repeat split; assumption.
Qed.

End SessionFacts.
Section SessionLink.
Context {scalar : Type} `{Numeric scalar} `{Header}.

Local Open Scope nat_scope.
Local Open Scope driver_scope.

Lemma COMM_command_length (p : PortSettings) (cmd : list byte) :
  COMM_command p = Some cmd -> length cmd = 10 /\ ~ In x00 cmd.
Proof.
  unfold COMM_command.
  destruct (BaudRate p), (CharacterSize p), (ParityChecking p), (StopBits p),
    (FlowControl p); intros [= <-]; clear; vm_compute;
    (split; [reflexivity|intuition discriminate]).
Qed.

(** [SetSerialPortSettings] up to the reply: the command has been sent and
    the answer is awaited. *)
Lemma SetSerialPortSettings_sent (p : PortSettings) (s : Session scalar)
  (cmd : list byte) :
  COMM_command p = Some cmd ->
  12 <= length (mSerialBuffer (driver s)) ->
  exists d1,
    written (mSerialPort d1)
    = written (mSerialPort (driver s)) ++ [cmd ++ ["013"%byte]] /\
    incoming (mSerialPort d1) = incoming (mSerialPort (driver s)) /\
    length (mSerialBuffer d1) = length (mSerialBuffer (driver s)) /\
    SetSerialPortSettings p s
    = (ok <- on_driver (ResponseRead_expect (lit "OKAY")) ;;
       if ok
       then
         on_driver Sleep ;;;
         SetPortSettings p ;;;
         Configure ;;;
         on_driver Sleep ;;;
         on_driver
           (emit (SendStatus
                    (Name d1 ++ lit ": SetSerialPortSettings succeeded")))
         ;;; ret true
       else
         on_driver
           (emit (SendError
                    (Name d1 ++ lit ": SetSerialPortSettings: didn't receive "
                          ++ ["034"%byte] ++ lit "OKAY" ++ ["034"%byte])))
         ;;; ret false) (set_driver d1 s).
Proof.
  intros Hcmd Hlen.
  destruct (COMM_command_length p cmd Hcmd) as [Hl Hn].
  unfold SetSerialPortSettings. unfold COMM_command in Hcmd.
  destruct (baudRate_digit (BaudRate p)) as [b|]; [|discriminate].
  destruct (characterSize_digit (CharacterSize p)) as [c|]; [|discriminate].
  destruct (parityChecking_digit (ParityChecking p)) as [y|]; [|discriminate].
  destruct (stopBits_digit (StopBits p)) as [t|]; [|discriminate].
  destruct (flowControl_digit (FlowControl p)) as [f|]; [|discriminate].
  injection Hcmd as <-.
  rewrite COMM_composed by lia.
  erewrite bind_Ok; [|apply on_driver_Ok; reflexivity].
  session_fields.
  erewrite bind_Ok.
  2:{ apply on_driver_Ok. session_fields.
      apply (CommandSend_at _ (lit "COMM " ++ [b; c; y; t; f])
               (skipn 10 (mSerialBuffer (driver s))));
        [reflexivity|reflexivity|exact Hn|].
      rewrite length_skipn. lia. }
  cbn [negb]. session_fields.
  match goal with
  | |- exists d1, _ /\ _ /\ _ /\ _ ?s1 = _ => exists (driver s1)
  end.
  session_fields. goal_fields.
  split; [reflexivity|]. split; [reflexivity|]. split; [|reflexivity].
  rewrite length_app. cbn [length app].
  rewrite !length_skipn.
  change (length (lit "COMM " ++ [b; c; y; t; f])) with 10. lia.
Qed.

(** X14.  [SetSerialPortSettings] on settings the driver has digits for,
    the device answering [OKAY]: the [COMM] command with its five digits
    is what went out, the function returns [true], and the settings are
    stored in the port and applied. *)
Theorem SetSerialPortSettings_acknowledged (p : PortSettings)
  (s : Session scalar) (cmd : list byte) (queue : list (list byte)) :
  COMM_command p = Some cmd ->
  12 <= length (mSerialBuffer (driver s)) ->
  incoming (mSerialPort (driver s)) = framed (lit "OKAY") :: queue ->
  exists s',
    SetSerialPortSettings p s = Ok true s' /\
    written (mSerialPort (driver s'))
    = written (mSerialPort (driver s)) ++ [cmd ++ ["013"%byte]] /\
    incoming (mSerialPort (driver s')) = queue /\
    settings s' = p /\
    configured s' = p.
Proof.
  intros Hcmd Hlen Hin.
  destruct (SetSerialPortSettings_sent p s cmd Hcmd Hlen)
    as (d1 & Hw & Hi & Hb & ->).
  erewrite bind_Ok.
  2:{ apply on_driver_Ok. session_fields.
      apply (ResponseRead_expect_framed d1 (lit "OKAY") queue).
      - rewrite Hi. exact Hin.
      - rewrite Hb. change (length (lit "OKAY")) with 4. lia.
      - clear. vm_compute. intuition discriminate. }
  eexists. split; [reflexivity|].
  session_fields. goal_fields. repeat split. exact Hw.
Qed.



(** X17.  [ResetSerialPort] returns [true] on the reply [RESET]. *)
Theorem ResetSerialPort_on_RESET (s : Session scalar)
  (queue : list (list byte)) :
  10 <= length (mSerialBuffer (driver s)) ->
  incoming (mSerialPort (driver s)) = framed (lit "RESET") :: queue ->
  exists s', ResetSerialPort s = Ok true s'.
Proof.
  intros Hlen Hin.
  unfold ResetSerialPort, SetPortSettings, Configure, WriteBreak.
  unfold bind, modify, gets, Sleep, ret, on_driver. session_fields.
  rewrite (ResponseRead_expect_framed (driver s) (lit "RESET") queue Hin);
    [eexists; reflexivity| |clear; vm_compute; intuition discriminate].
  change (length (lit "RESET")) with 5. lia.
Qed.

End SessionLink.
Section DisconnectFacts.
Context {scalar : Type} `{Numeric scalar} `{Header}.

Local Open Scope nat_scope.
Local Open Scope driver_scope.

(** [Disconnect] after the attempt to stop tracking. *)
Lemma Disconnect_after_toggle (s : Session scalar) (d1 : Driver scalar) :
  ToggleTracking false (driver s) = Ok tt d1 ->
  exists s',
    Disconnect s = Ok tt s' /\
    mIsTracking (driver s') = false /\
    IsOpened s' = false /\
    tracking_events (Events (driver s')) = tracking_events (Events d1) /\
    mSerialPort (driver s') = mSerialPort d1.
Proof.
  intro Hrun. unfold Disconnect.
  erewrite bind_Ok; [|apply on_driver_Ok; exact Hrun].
  eexists. split; [reflexivity|].
  session_fields. goal_fields. repeat split.
  rewrite <- app_assoc, tracking_events_app, app_nil_r. reflexivity.
Qed.

(** What [ToggleTracking] has written when the flag differs. *)
Lemma ToggleTracking_command (d d' : Driver scalar) (track : bool) :
  mIsTracking d <> track ->
  11 <= length (mSerialBuffer d) ->
  ToggleTracking track d = Ok tt d' ->
  written (mSerialPort d')
  = written (mSerialPort d) ++ [toggle_command track ++ ["013"%byte]].
Proof.
  intros Hne Hlen.
  rewrite (ToggleTracking_differs d track Hne).
  unfold bind at 1.
  rewrite CommandSend_str_run
    by (first [apply toggle_command_nul_free | destruct track; simpl; lia]).
  unfold bind at 1.
  destruct (ResponseRead_expect _ _) as [ok d2|f] eqn:Hread; [|discriminate].
  destruct (exchanges_ResponseRead_expect _ _ _ _ Hread)
    as ((cs & Hw2 & Hcs) & _).
  destruct cs; [|discriminate]. rewrite app_nil_r in Hw2.
  revert Hw2. goal_fields. intro Hw2.
  destruct ok; unfold bind, modify, emit, Sleep, ret; intros [= <-];
    goal_fields; exact Hw2.
Qed.

(** X18.  [Disconnect] on a device that does not answer: the driver is
    left not tracking and the port closed; [TSTOP] has been sent if the
    driver was tracking and nothing otherwise, and no [Tracking] event has
    been emitted in either case. *)
Theorem Disconnect_silent_device (s : Session scalar) :
  11 <= length (mSerialBuffer (driver s)) ->
  incoming (mSerialPort (driver s)) = [] ->
  exists s',
    Disconnect s = Ok tt s' /\
    mIsTracking (driver s') = false /\
    IsOpened s' = false /\
    tracking_events (Events (driver s'))
    = tracking_events (Events (driver s)) /\
    written (mSerialPort (driver s'))
    = written (mSerialPort (driver s))
        ++ (if mIsTracking (driver s) then [lit "TSTOP " ++ ["013"%byte]]
            else []).
Proof.
  intros Hlen Hin.
  destruct (mIsTracking (driver s)) eqn:Htrk.
  - destruct (ToggleTracking_silent (driver s) false) as (d1 & Hrun & _ & Hev);
      [rewrite Htrk; discriminate|exact Hlen|exact Hin|].
    destruct (Disconnect_after_toggle s d1 Hrun)
      as (s' & Hd & Hf & Ho & He & Hp).
    exists s'. rewrite He, Hev, Hp. repeat split; try assumption.
    apply (ToggleTracking_command (driver s) d1 false);
      [rewrite Htrk; discriminate|exact Hlen|exact Hrun].
  - destruct (Disconnect_after_toggle s (driver s))
      as (s' & Hd & Hf & Ho & He & Hp);
      [now apply ToggleTracking_same|].
    exists s'. rewrite Hp, app_nil_r. repeat split; assumption.
Qed.

(** X19.  Whatever the device answers to [TSTOP], [Disconnect] leaves the
    driver not tracking and the port closed, with its settings as they
    were; it has written [TSTOP] if the driver was tracking and nothing
    otherwise. *)
Theorem Disconnect_ends_tracking (s s' : Session scalar) :
  11 <= length (mSerialBuffer (driver s)) ->
  Disconnect s = Ok tt s' ->
  mIsTracking (driver s') = false /\
  IsOpened s' = false /\
  settings s' = settings s /\
  configured s' = configured s /\
  written (mSerialPort (driver s'))
  = written (mSerialPort (driver s))
      ++ (if mIsTracking (driver s) then [lit "TSTOP " ++ ["013"%byte]]
          else []).
Proof.
  intros Hlen. unfold Disconnect. unfold bind at 1. unfold on_driver at 1.
  destruct (ToggleTracking false (driver s)) as [[] d1|f] eqn:Hrun;
    [|discriminate].
  intros [= <-]. session_fields. goal_fields.
  repeat split.
  destruct (mIsTracking (driver s)) eqn:Htrk.
  - apply (ToggleTracking_command (driver s) d1 false);
      [rewrite Htrk; discriminate|exact Hlen|exact Hrun].
  - rewrite ToggleTracking_same in Hrun by exact Htrk.
    injection Hrun as <-. now rewrite app_nil_r.
Qed.

End DisconnectFacts.
(* ------------------------------------------------------------------ *)
(** ** The statements above at sample states *)

Local Open Scope nat_scope.
Local Open Scope driver_scope.

Lemma registry_driver_ok : registry_ok registry_driver.
Proof.
  repeat split.
  - intros name tool [[= <- <-]|[]]. apply Nat.ltb_lt. reflexivity.
  - intros n1 p1 t1 n2 p2 t2 [[= <- <-]|[]] [[= <- <-]|[]] _ _ _.
    reflexivity.
Qed.

Lemma ResponseRead_true_iff_CRC_witness :
  exists ok d',
    ResponseRead
      (with_incoming [lit "OKAY" ++ lit "0000" ++ ["013"%byte]] idle_driver)
    = Ok ok d' /\
    (ok = true <-> lit "0000" = sprintf_04X (ComputeCRC (lit "OKAY"))) /\
    cstr (mSerialBuffer d') = lit "OKAY" /\
    mSerialBufferPointer d' = 5 /\
    incoming (mSerialPort d') = [] /\
    written (mSerialPort d') = [].
Proof.
  apply (ResponseRead_true_iff_CRC
           (with_incoming [lit "OKAY" ++ lit "0000" ++ ["013"%byte]]
                          idle_driver)
           (lit "OKAY") (lit "0000") []).
  - reflexivity.
  - apply Nat.leb_le. reflexivity.
  - reflexivity.
  - apply not_In_nul. reflexivity.
  - apply not_In_nul. reflexivity.
Defined.

Lemma ResponseRead_short_reply_leaves_buffer_witness :
  ResponseRead (with_incoming [lit "OK" ++ ["013"%byte]] idle_driver)
  = Crash BufferRange.
Proof.
  apply (ResponseRead_short_reply_leaves_buffer
           (with_incoming [lit "OK" ++ ["013"%byte]] idle_driver)
           (lit "OK") []).
  - reflexivity.
  - apply Nat.ltb_lt. reflexivity.
  - apply Nat.leb_le. reflexivity.
Defined.

Lemma CommandAppend_twice_witness :
  (CommandAppend (lit "PVWR ") ;;; CommandAppend (lit "01")) idle_driver
  = CommandAppend (lit "PVWR " ++ lit "01") idle_driver.
Proof.
  apply (CommandAppend_twice idle_driver (lit "PVWR ") (lit "01")).
  - apply not_In_nul. reflexivity.
  - apply not_In_nul. reflexivity.
  - apply Nat.leb_le. reflexivity.
Defined.

Lemma AddTool_keeps_registry_witness :
  exists r d',
    AddTool (lit "01-11111111") (lit "11111111") (lit "a.rom") registry_driver
    = Ok r d' /\
    registry_ok d'.
Proof.
  apply (AddTool_keeps_registry registry_driver (lit "01-11111111")
           (lit "11111111") (lit "a.rom")).
  exact registry_driver_ok.
Defined.

Lemma AddTool_then_CheckTool_witness :
  exists d',
    AddTool (lit "01-11111111") (lit "11111111") (lit "a.rom") registry_driver
    = Ok (Some 1) d' /\
    CheckTool (lit "11111111") d' = Some 1 /\
    CheckTool (lit "12345678") d' = CheckTool (lit "12345678") registry_driver.
Proof.
  destruct (AddTool (lit "01-11111111") (lit "11111111") (lit "a.rom")
              registry_driver) as [r d'|f] eqn:E.
  - assert (r = Some 1) as -> by (revert E; vm_compute; congruence).
    exists d'. split; [reflexivity|].
    destruct (AddTool_then_CheckTool registry_driver d' (lit "01-11111111")
                (lit "11111111") (lit "a.rom") (Some 1)
                registry_driver_ok E) as (Hfound & _ & Hother).
    split.
    + apply (Hfound 1 eq_refl).
    + apply Hother. clear. vm_compute. discriminate.
  - exfalso. revert E. vm_compute. discriminate.
Defined.

Lemma GetToolName_enumerates_witness :
  (exists name tool,
      GetToolName 0 registry_driver = Ok name registry_driver /\
      nth_error (mToolNames registry_driver) 0 = Some name /\
      map_find name (mTools registry_driver) = Some tool) /\
  returned (GetToolName 1 registry_driver) = Some [].
Proof.
  destruct (GetToolName_enumerates registry_driver registry_driver_ok)
    as (Hin & _ & Hout).
  split.
  - apply (Hin 0). apply Nat.ltb_lt. reflexivity.
  - rewrite (Hout 1); [reflexivity|]. apply Nat.leb_le. reflexivity.
Defined.

Lemma Track_row_not_tracked_witness :
  exists L' d' t',
    Track_row first_row missing_driver = Ok (Some L') d' /\
    parsePointer L' = 28 /\
    nth_error (heap d') 0 = Some t' /\
    Valid (MarkerPosition t') = false /\
    Valid (TooltipPosition t') = false /\
    Position (MarkerPosition t') = Position (MarkerPosition probe) /\
    Position (TooltipPosition t') = Position (TooltipPosition probe) /\
    ErrorRMS t' = ErrorRMS probe /\
    hex_number (lit "0000002A") = Some (FrameNumber t').
Proof.
  apply (Track_row_not_tracked missing_driver first_row 0 probe
           (lit "MISSING") (lit "00000000") (lit "0000002A")
           (repeat x00 16)).
  - reflexivity.
  - reflexivity.
  - left. reflexivity.
  - reflexivity.
  - reflexivity.
  - reflexivity.
  - reflexivity.
Defined.


Lemma Track_unknown_port_handle_witness :
  exists d',
    Track (driver_with
             [framed (lit "01" ++ lit "0A" ++ lit "MISSING" ++ lit "00000000"
                        ++ lit "0000002A" ++ [LF] ++ lit "0000")])
    = Ok tt d' /\
    heap d' = [] /\
    mStrayMarkers d' = mStrayMarkers (driver_with []) /\
    Events d' = [LogError "Track: no tool for port handle"].
Proof.
  apply (Track_unknown_port_handle
           (driver_with
              [framed (lit "01" ++ lit "0A" ++ lit "MISSING" ++ lit "00000000"
                         ++ lit "0000002A" ++ [LF] ++ lit "0000")])
           (lit "01") (lit "0A")
           (lit "MISSING" ++ lit "00000000" ++ lit "0000002A" ++ [LF]
              ++ lit "0000") []).
  - reflexivity.
  - reflexivity.
  - reflexivity.
  - apply not_In_nul. reflexivity.
  - apply Nat.ltb_lt. reflexivity.
  - reflexivity.
  - apply Nat.leb_le. reflexivity.
Defined.



Lemma SetSerialPortSettings_unsupported_witness :
  exists s',
    SetSerialPortSettings unnamed_baud_rate
      (session_at reset_settings idle_driver) = Ok false s' /\
    written (mSerialPort (driver s')) = [] /\
    incoming (mSerialPort (driver s')) = [] /\
    settings s' = reset_settings /\
    configured s' = reset_settings.
Proof.
  apply (SetSerialPortSettings_unsupported unnamed_baud_rate
           (session_at reset_settings idle_driver)).
  - reflexivity.
  - apply Nat.leb_le. reflexivity.
Defined.

Lemma SetSerialPortSettings_acknowledged_witness :
  exists s',
    SetSerialPortSettings connect_settings
      (session_at reset_settings
         (with_incoming [framed (lit "OKAY")] idle_driver)) = Ok true s' /\
    written (mSerialPort (driver s')) = [lit "COMM 50000" ++ ["013"%byte]] /\
    incoming (mSerialPort (driver s')) = [] /\
    settings s' = connect_settings /\
    configured s' = connect_settings.
Proof.
  apply (SetSerialPortSettings_acknowledged connect_settings
           (session_at reset_settings
              (with_incoming [framed (lit "OKAY")] idle_driver))
           (lit "COMM 50000") []).
  - reflexivity.
  - apply Nat.leb_le. reflexivity.
  - reflexivity.
Defined.



Lemma ResetSerialPort_on_RESET_witness :
  exists s',
    ResetSerialPort
      (session_at connect_settings
         (with_incoming [framed (lit "RESET")] idle_driver)) = Ok true s'.
Proof.
  apply (ResetSerialPort_on_RESET _ []).
  - apply Nat.leb_le. reflexivity.
  - reflexivity.
Defined.

Lemma Disconnect_silent_device_witness :
  exists s',
    Disconnect (session_at connect_settings (busy_driver [])) = Ok tt s' /\
    mIsTracking (driver s') = false /\
    IsOpened s' = false /\
    tracking_events (Events (driver s')) = [] /\
    written (mSerialPort (driver s')) = [lit "TSTOP " ++ ["013"%byte]].
Proof.
  apply (Disconnect_silent_device
           (session_at connect_settings (busy_driver []))).
  - apply Nat.leb_le. reflexivity.
  - reflexivity.
Defined.

Lemma Disconnect_ends_tracking_witness :
  exists s',
    Disconnect (session_at connect_settings
                  (busy_driver [framed (lit "OKAY")])) = Ok tt s' /\
    mIsTracking (driver s') = false /\
    IsOpened s' = false /\
    settings s' = connect_settings /\
    configured s' = connect_settings /\
    written (mSerialPort (driver s')) = [lit "TSTOP " ++ ["013"%byte]].
Proof.
  destruct (Disconnect (session_at connect_settings
                          (busy_driver [framed (lit "OKAY")])))
    as [[] s'|f] eqn:E.
  - exists s'. split; [reflexivity|].
    assert (11 <= length (mSerialBuffer (driver
              (session_at connect_settings
                 (busy_driver [framed (lit "OKAY")])))))
      as Hroom by (apply Nat.leb_le; reflexivity).
    apply (Disconnect_ends_tracking _ s' Hroom E).
  - exfalso. revert E. vm_compute. discriminate.
Defined.
